(** * GamerFeed: feed ingestion and normalisation pipeline

    A shallow embedding of [src/services/newsService.ts] and of the merge and
    scraper steps of [src/App.tsx], with the properties of the specification
    stated and settled over it.

    Conventions of the embedding.
    - A JavaScript string is a Rocq [string] read as its sequence of code
      units.  Case mapping and white space are those of the ASCII range;
      characters with a code above 127 are kept as they are and are neither
      letters nor white space.  Which of them are surrogates is not fixed:
      the one test that asks, whether a string holds a lone surrogate, is a
      service of the platform.
    - A JavaScript number that holds an integer is a [Z]; [NaN] is [None].
    - [undefined] and [null] are [None].
    - Platform services whose behaviour is not part of the repository (the
      HTML and XML parsers, the URL parser, [Date], the network) are the
      variables of a section: every theorem holds for each behaviour of
      them. *)

From Stdlib Require Import List String Ascii ZArith Lia Bool Arith.
From Stdlib Require Import Permutation Sorted.
Import ListNotations.
Open Scope string_scope.

Set Implicit Arguments.

(* ------------------------------------------------------------------ *)
(** ** The string operations of the runtime *)

Module JS.

Definition code (c : ascii) : nat := nat_of_ascii c.

Definition isUpperAZ (c : ascii) : bool :=
  (65 <=? code c)%nat && (code c <=? 90)%nat.

Definition isLowerAZ (c : ascii) : bool :=
  (97 <=? code c)%nat && (code c <=? 122)%nat.

Definition isDigit (c : ascii) : bool :=
  (48 <=? code c)%nat && (code c <=? 57)%nat.

(** White space as [String.prototype.trim] and [parseInt] see it. *)
Definition isWhiteSpace (c : ascii) : bool :=
  ((9 <=? code c)%nat && (code c <=? 13)%nat) || (code c =? 32)%nat.

Definition toLowerChar (c : ascii) : ascii :=
  if isUpperAZ c then ascii_of_nat (code c + 32) else c.

Definition toUpperChar (c : ascii) : ascii :=
  if isLowerAZ c then ascii_of_nat (code c - 32) else c.

Fixpoint mapChars (f : ascii -> ascii) (s : string) : string :=
  match s with
  | EmptyString => EmptyString
  | String c s' => String (f c) (mapChars f s')
  end.

Definition toLowerCase : string -> string := mapChars toLowerChar.
Definition toUpperCase : string -> string := mapChars toUpperChar.

(** [s.startsWith(p)] *)
Fixpoint startsWith (s p : string) {struct p} : bool :=
  match p with
  | EmptyString => true
  | String b p' =>
      match s with
      | EmptyString => false
      | String a s' => Ascii.eqb a b && startsWith s' p'
      end
  end.

(** Prefix test of a regular expression alternative under the [i] flag. *)
Fixpoint startsWithIgnoreCase (s p : string) {struct p} : bool :=
  match p with
  | EmptyString => true
  | String b p' =>
      match s with
      | EmptyString => false
      | String a s' =>
          Ascii.eqb (toUpperChar a) (toUpperChar b)
          && startsWithIgnoreCase s' p'
      end
  end.

(** [s.includes(sub)] *)
Fixpoint includes (s sub : string) : bool :=
  startsWith s sub
  || match s with
     | EmptyString => false
     | String _ s' => includes s' sub
     end.

Fixpoint take (n : nat) (s : string) : string :=
  match n, s with
  | S k, String c s' => String c (take k s')
  | _, _ => EmptyString
  end.

Fixpoint drop (n : nat) (s : string) : string :=
  match n, s with
  | S k, String _ s' => drop k s'
  | _, _ => s
  end.

(** [s.substring(a, b)]: the arguments are swapped when [a > b]. *)
Definition substring (s : string) (a b : nat) : string :=
  take (Nat.max a b - Nat.min a b) (drop (Nat.min a b) s).

(** [s.slice(1)] *)
Definition slice1 (s : string) : string := drop 1 s.

(** [s.charAt(0)] *)
Definition charAt0 (s : string) : string := take 1 s.

Fixpoint trimStart (s : string) : string :=
  match s with
  | EmptyString => EmptyString
  | String c s' => if isWhiteSpace c then trimStart s' else s
  end.

Fixpoint trimEnd (s : string) : string :=
  match s with
  | EmptyString => EmptyString
  | String c s' =>
      match trimEnd s' with
      | EmptyString => if isWhiteSpace c then EmptyString
                       else String c EmptyString
      | t => String c t
      end
  end.

Definition trim (s : string) : string := trimEnd (trimStart s).

(** [s.lastIndexOf(c)] for a one-character needle; [-1] when absent. *)
Fixpoint lastIndexOf (s : string) (c : ascii) : Z :=
  match s with
  | EmptyString => (-1)%Z
  | String a s' =>
      let r := lastIndexOf s' c in
      if (0 <=? r)%Z then (r + 1)%Z
      else if Ascii.eqb a c then 0%Z else (-1)%Z
  end.

(** [s.split(sep)] for a non-empty separator: [skip] counts the characters
    of a separator still to be passed over, [cur] is the piece read so
    far. *)
Fixpoint splitAux (sep s : string) (skip : nat) (cur : string)
  : list string :=
  match s with
  | EmptyString => [cur]
  | String c s' =>
      match skip with
      | S k => splitAux sep s' k cur
      | O =>
          if startsWith s sep
          then cur :: splitAux sep s' (String.length sep - 1) EmptyString
          else splitAux sep s' 0 (cur ++ String c EmptyString)
      end
  end.

Definition split (s sep : string) : list string :=
  splitAux sep s 0 EmptyString.

(** [parts.join(sep)] *)
Fixpoint join (sep : string) (parts : list string) : string :=
  match parts with
  | [] => EmptyString
  | [p] => p
  | p :: rest => p ++ sep ++ join sep rest
  end.

(** [arr.sort(cmp)]: the sort of the language is stable, and so is this
    insertion sort; a comparator result is negative, zero or positive. *)
Section Sort.
Variable A : Type.
Variable cmp : A -> A -> Z.

Fixpoint insert (x : A) (l : list A) : list A :=
  match l with
  | [] => [x]
  | y :: l' => if (cmp x y <=? 0)%Z then x :: y :: l'
               else y :: insert x l'
  end.

Fixpoint sort (l : list A) : list A :=
  match l with
  | [] => []
  | x :: l' => insert x (sort l')
  end.
End Sort.

(** The digits read by [parseInt(s, 10)] after white space and sign. *)
Fixpoint digitsValue (s : string) (acc : option Z) : option Z :=
  match s with
  | EmptyString => acc
  | String c s' =>
      if isDigit c
      then digitsValue s'
             (Some (10 * match acc with Some a => a | None => 0 end
                    + Z.of_nat (code c - 48))%Z)
      else acc
  end.

(** [parseInt(s, 10)]; [None] is [NaN]. *)
Definition parseInt (s : string) : option Z :=
  match trimStart s with
  | String "-" r => option_map Z.opp (digitsValue r None)
  | String "+" r => digitsValue r None
  | r => digitsValue r None
  end.

Definition hexDigit (n : nat) : ascii :=
  if (n <? 10)%nat then ascii_of_nat (48 + n) else ascii_of_nat (55 + n).

Definition isUriUnreserved (c : ascii) : bool :=
  isUpperAZ c || isLowerAZ c || isDigit c
  || existsb (Ascii.eqb c)
       ["-"; "_"; "."; "!"; "~"; "*"; "'"; "("; ")"]%char.

Definition percent (n : nat) : string :=
  String "%" (String (hexDigit (n / 16)) (String (hexDigit (n mod 16))
    EmptyString)).

(** [encodeURIComponent(s)]: unreserved characters stay, every other code
    unit is written as the percent-escapes of its UTF-8 bytes. *)
Fixpoint encodeURIComponent (s : string) : string :=
  match s with
  | EmptyString => EmptyString
  | String c s' =>
      (if isUriUnreserved c then String c EmptyString
       else if (code c <? 128)%nat then percent (code c)
       else percent (192 + code c / 64) ++ percent (128 + code c mod 64))
      ++ encodeURIComponent s'
  end.

(** Truthiness of a string that may be absent. *)
Definition truthy (o : option string) : bool :=
  match o with
  | Some s => negb (s =? "")
  | None => false
  end.

(** [a || b] on strings. *)
Definition orElse (a b : string) : string :=
  if a =? "" then b else a.

End JS.

(* ------------------------------------------------------------------ *)
(** ** Static tables of [newsService.ts] *)

Inductive Language : Type := de | en.

Definition PRIMARY_FEEDS : list (string * Language) :=
  [ ("https://www.gamestar.de/rss/gamestar.rss", de);
    ("https://www.gamepro.de/rss/gamepro.rss", de);
    ("https://mein-mmo.de/feed/", de);
    ("https://www.pcgames.de/feed.cfm?menu_alias=home", de);
    ("https://de.ign.com/feed.xml", de);
    ("https://www.4p.de/feed", de);
    ("https://www.gamespot.com/feeds/mashup", en);
    ("https://gameinformer.com/rss.xml", en);
    ("https://www.polygon.com/rss/news/index.xml", en);
    ("https://kotaku.com/rss", en);
    ("https://www.pcgamer.com/rss/", en);
    ("https://www.gematsu.com/feed", en) ].

Definition SECONDARY_FEEDS : list (string * Language) :=
  [ ("https://www.play3.de/feed/rss/", de);
    ("https://www.buffed.de/feed.cfm", de);
    ("https://www.xboxdynasty.de/cip_xd.rss.xml", de);
    ("https://www.playstationinfo.de/feed/", de);
    ("https://www.videogameszone.de/feed.cfm", de);
    ("https://www.computerbild.de/rssfeed_2261.html?node=12", de);
    ("https://www.gameswirtschaft.de/feed/", de);
    ("https://www.gamezone.de/feed.cfm?menu_alias=home/", de);
    ("https://playfront.de/feed/", de);
    ("https://www.gamersglobal.de/feeds/all", de);
    ("https://www.eurogamer.de/feed", de);
    ("https://www.pcgameshardware.de/feed.cfm?menu_alias=home", de);
    ("https://pixelcritics.com/feed", de);
    ("https://www.gameswelt.ch/feeds/artikel/rss.xml", de);
    ("https://jpgames.de/feed/", de);
    ("https://www.gamesradar.com/feeds.xml", en);
    ("https://www.rockpapershotgun.com/feed", en);
    ("https://www.destructoid.com/feed/", en);
    ("https://rss.golem.de/rss.php?feed=ATOM1.0&tp=games", de);
    ("https://www.giga.de/games/feed/", de);
    ("https://www.heise.de/rss/heise-atom.xml", de) ].

Definition SOURCES_NEEDING_SCRAPING : list string :=
  [ "play3"; "xboxdynasty"; "playfront"; "playstation info";
    "pixelcritics"; "gameswelt"; "jpgames" ].

(** The object literal, in the order in which [for ... in] visits its keys
    (none of them is an array index, so this is the order of the source). *)
Definition URL_TO_NAME_MAP : list (string * string) :=
  [ ("play3.de", "Play3");
    ("gamestar.de", "GameStar");
    ("buffed.de", "Buffed");
    ("xboxdynasty.de", "Xbox Dynasty");
    ("playstationinfo.de", "PlayStation Info");
    ("videogameszone.de", "Video Games Zone");
    ("computerbild.de", "Computer Bild");
    ("gameswirtschaft.de", "GamesWirtschaft");
    ("gamepro.de", "GamePro");
    ("gamezone.de", "GameZone");
    ("playfront.de", "PlayFront");
    ("gamersglobal.de", "GamersGlobal");
    ("mein-mmo.de", "Mein-MMO");
    ("eurogamer.de", "Eurogamer");
    ("pcgames.de", "PC Games");
    ("pcgameshardware.de", "PC Games Hardware");
    ("ign.com", "IGN");
    ("4p.de", "4P");
    ("pixelcritics.com", "PixelCritics");
    ("gameswelt.ch", "GamesWelt");
    ("jpgames.de", "JPGames");
    ("gamesradar.com", "GamesRadar+");
    ("gamespot.com", "GameSpot");
    ("gameinformer.com", "Game Informer");
    ("rockpapershotgun.com", "Rock Paper Shotgun");
    ("polygon.com", "Polygon");
    ("kotaku.com", "Kotaku");
    ("pcgamer.com", "PC Gamer");
    ("destructoid.com", "Destructoid");
    ("gematsu.com", "Gematsu");
    ("golem.de", "Golem");
    ("giga.de", "GIGA Games");
    ("heise.de", "Heise Online") ].

(* ------------------------------------------------------------------ *)
(** ** [cleanSourceName] *)

Definition junkPhrases : list string :=
  [ "latest articles feed"; "mashup"; "all content"; "alles"; "news";
    "feed"; "rss"; "uk" ].

(** [s.replace(new RegExp(junkPhrases.join('|'), 'gi'), '')]: at each
    position the first alternative that matches is removed and the scan goes
    on behind it. *)
Fixpoint removeJunk (s : string) (skip : nat) : string :=
  match s with
  | EmptyString => EmptyString
  | String c s' =>
      match skip with
      | S k => removeJunk s' k
      | O =>
          match find (JS.startsWithIgnoreCase s) junkPhrases with
          | Some p => removeJunk s' (String.length p - 1)
          | None => String c (removeJunk s' 0)
          end
      end
  end.

Definition separators : list string := [" - "; " | "; ": "].

Definition nonEmpty (s : string) : bool := negb (s =? "").

Definition byLength (a b : string) : Z :=
  (Z.of_nat (String.length a) - Z.of_nat (String.length b))%Z.

Definition capitalize (word : string) : string :=
  JS.toUpperCase (JS.charAt0 word) ++ JS.toLowerCase (JS.slice1 word).

Definition cleanSourceName (name feedUrl : string) : string :=
  if name =? "" then "Unknown Source"
  else
    match find (fun kv => JS.includes feedUrl (fst kv)) URL_TO_NAME_MAP with
    | Some kv => snd kv
    | None =>
        let cleanedName := removeJunk name 0 in
        let parts :=
          match find (JS.includes cleanedName) separators with
          | Some sep =>
              filter nonEmpty (map JS.trim (JS.split cleanedName sep))
          | None => [cleanedName]
          end in
        let cleanedName :=
          match JS.sort byLength parts with
          | p :: _ => JS.orElse p cleanedName
          | [] => cleanedName
          end in
        let cleanedName := JS.trim cleanedName in
        JS.join " "
          (map capitalize (filter nonEmpty (JS.split cleanedName " ")))
    end.

(* ------------------------------------------------------------------ *)
(** ** Document trees

    What [DOMParser] returns, as far as the code looks at it: elements with
    a namespace prefix, a local name, attributes and children, and text.
    Type selectors compare local names; [nodeName] is the qualified name.
    In a document parsed as HTML an element has no prefix and its local name
    is the whole (lower-case) tag name. *)

Module Dom.

#[local] Set Warnings "-register-all".

Inductive node : Type :=
| Element (prefix : option string) (localName : string)
          (attrs : list (string * string)) (children : list node)
| Text (data : string).

(** An HTML element. *)
Definition elem (tag : string) (attrs : list (string * string))
           (children : list node) : node :=
  Element None tag attrs children.

Definition nodeName (n : node) : string :=
  match n with
  | Element (Some p) l _ _ => p ++ ":" ++ l
  | Element None l _ _ => l
  | Text _ => "#text"
  end.

Definition hasTag (t : string) (n : node) : bool :=
  match n with
  | Element _ l _ _ => l =? t
  | Text _ => false
  end.

Definition childNodes (n : node) : list node :=
  match n with
  | Element _ _ _ cs => cs
  | Text _ => []
  end.

Fixpoint lookupAttr (name : string) (attrs : list (string * string))
  : option string :=
  match attrs with
  | [] => None
  | (k, v) :: rest => if k =? name then Some v else lookupAttr name rest
  end.

(** [n.getAttribute(name)] *)
Definition getAttribute (n : node) (name : string) : option string :=
  match n with
  | Element _ _ attrs _ => lookupAttr name attrs
  | Text _ => None
  end.

(** [n.textContent] *)
Fixpoint textContent (n : node) : string :=
  match n with
  | Text s => s
  | Element _ _ _ cs =>
      (fix all (l : list node) : string :=
         match l with
         | [] => EmptyString
         | c :: l' => textContent c ++ all l'
         end) cs
  end.

(** The selectors the code uses. *)
Inductive selector : Type :=
| Tag (t : string)                       (* [t] *)
| TagAttr (t a : string)                 (* [t[a]] *)
| TagAttrEq (t a v : string)             (* [t[a="v"]] *)
| Child (p t : string)                   (* [p > t] *)
| Or (s1 s2 : selector).                 (* [s1, s2] *)

Fixpoint matches (parent : option string) (n : node) (s : selector)
  : bool :=
  match s with
  | Tag t => hasTag t n
  | TagAttr t a =>
      hasTag t n && match getAttribute n a with
                    | Some _ => true
                    | None => false
                    end
  | TagAttrEq t a v =>
      hasTag t n && match getAttribute n a with
                    | Some w => w =? v
                    | None => false
                    end
  | Child p t =>
      hasTag t n && match parent with
                    | Some q => q =? p
                    | None => false
                    end
  | Or s1 s2 => matches parent n s1 || matches parent n s2
  end.

Definition tagOf (n : node) : option string :=
  match n with
  | Element _ l _ _ => Some l
  | Text _ => None
  end.

(** The elements of the tree of [n] that match [s], [n] included, in
    document order; [parent] is the local name of the parent of [n]. *)
Fixpoint selectFrom (parent : option string) (s : selector) (n : node)
  {struct n} : list node :=
  match n with
  | Text _ => []
  | Element _ l _ cs =>
      ((if matches parent n s then [n] else [])
       ++ (fix all (k : list node) : list node :=
             match k with
             | [] => []
             | c :: k' => selectFrom (Some l) s c ++ all k'
             end) cs)%list
  end.

(** [n.querySelectorAll(s)]: the proper descendants of [n]. *)
Definition querySelectorAll (n : node) (s : selector) : list node :=
  flat_map (selectFrom (tagOf n) s) (childNodes n).

(** [n.querySelector(s)] *)
Definition querySelector (n : node) (s : selector) : option node :=
  hd_error (querySelectorAll n s).

(** [doc.querySelectorAll(s)], [doc.querySelector(s)]: the root element
    is a candidate too. *)
Definition docQuerySelectorAll (root : node) (s : selector) : list node :=
  selectFrom None s root.

Definition docQuerySelector (root : node) (s : selector) : option node :=
  hd_error (docQuerySelectorAll root s).

(** The tree without the elements that satisfy [p] (the effect of
    [el.remove()] on each of them). *)
Fixpoint removeWhere (p : node -> bool) (n : node) : node :=
  match n with
  | Text s => Text s
  | Element pre l a cs =>
      Element pre l a
        ((fix all (k : list node) : list node :=
            match k with
            | [] => []
            | c :: k' =>
                if p c then all k' else removeWhere p c :: all k'
            end) cs)
  end.

(** A document parsed as [text/html]: the parser always builds
    [html > (head, body)]. *)
Record HTMLDocument : Type := mkHTMLDocument {
  headChildren : list node;
  bodyAttrs : list (string * string);
  bodyChildren : list node
}.

Definition bodyElement (d : HTMLDocument) : node :=
  elem "body" (bodyAttrs d) (bodyChildren d).

Definition documentElement (d : HTMLDocument) : node :=
  elem "html" [] [elem "head" [] (headChildren d); bodyElement d].

(** [doc.body] of a tree rooted at [html]. *)
Definition bodyOf (root : node) : option node :=
  find (hasTag "body") (childNodes root).

End Dom.

Import Dom.

(* ------------------------------------------------------------------ *)
(** ** Data of the pipeline *)

(** [Article] of [types.ts]; [needsScraping] is optional there. *)
Module Article.
Record t : Type := mk {
  id : string;
  title : string;
  source : string;
  publicationDate : string;
  summary : string;
  link : string;
  imageUrl : string;
  needsScraping : option bool;
  language : Language
}.
End Article.

(** The items [parseRssXml] pushes.  [thumbnail] is a field that
    [extractInitialData] reads and [parseRssXml] never sets; the objects
    under ['media:thumbnail'] and [enclosure] are always there, only their
    fields may be absent. *)
Module Item.
Record t : Type := mk {
  title : string;
  link : string;
  pubDate : string;
  guid : string;
  description : string;
  content : string;
  mediaThumbnailUrl : option string;
  enclosureLink : option string;
  enclosureType : option string;
  thumbnail : option string
}.
End Item.

(** What [parseRssXml] returns. *)
Record ParsedFeed : Type := mkParsedFeed {
  feedTitle : string;
  feedUrl : string;
  items : list Item.t
}.

(** The two fields of a [URL] object that the code reads. *)
Record URL : Type := mkURL { href : string; hostname : string }.

(** A [Response]: [ok] and the body [text()] resolves to ([None] when it
    rejects). *)
Record Response : Type := mkResponse { ok : bool; text : option string }.

Inductive exn : Type :=
| Error (message : string)
| RangeError (message : string)
| URIError (message : string).

Inductive outcome (A : Type) : Type :=
| Returns (a : A)
| Throws (e : exn).

Arguments Returns {A} a.
Arguments Throws {A} e.

Definition bind {A B : Type} (m : outcome A) (k : A -> outcome B)
  : outcome B :=
  match m with
  | Returns a => k a
  | Throws e => Throws e
  end.

Notation "x <- m ;; k" := (bind m (fun x => k))
  (at level 61, m at next level, right associativity).

(** Runs [f] over a list from left to right and stops at the first throw. *)
Fixpoint forEachCollect {A B : Type} (f : A -> outcome (list B))
         (l : list A) : outcome (list B) :=
  match l with
  | [] => Returns []
  | a :: l' =>
      bs <- f a ;;
      rest <- forEachCollect f l' ;;
      Returns (bs ++ rest)%list
  end.

(* ------------------------------------------------------------------ *)
(** ** Regular expression replacements of [extractInitialData] *)

(** [s.replace(re, repl)] without the [g] flag: [matchAt] gives the length
    of the match of [re] that starts at the head of its argument. *)
Fixpoint replaceFirst (matchAt : string -> option nat) (repl : string)
         (s : string) {struct s} : string :=
  match matchAt s with
  | Some n => repl ++ JS.drop n s
  | None =>
      match s with
      | EmptyString => EmptyString
      | String c s' => String c (replaceFirst matchAt repl s')
      end
  end.

(** Length of the longest prefix whose characters satisfy [p]. *)
Fixpoint span (p : ascii -> bool) (s : string) : nat :=
  match s with
  | String c s' => if p c then S (span p s') else 0
  | EmptyString => 0
  end.

Definition notSlash (c : ascii) : bool := negb (Ascii.eqb c "/").

(** [/\/uploads\/[^\/]+\//] *)
Definition matchUploads (s : string) : option nat :=
  if JS.startsWith s "/uploads/" then
    let rest := JS.drop 9 s in
    let n := span notSlash rest in
    if (0 <? n)%nat && JS.startsWith (JS.drop n rest) "/"
    then Some (9 + n + 1) else None
  else None.

(** [/\/(\d{2,4})\//] *)
Definition matchResize (s : string) : option nat :=
  if JS.startsWith s "/" then
    let rest := JS.drop 1 s in
    let n := span JS.isDigit rest in
    if (2 <=? n)%nat && (n <=? 4)%nat && JS.startsWith (JS.drop n rest) "/"
    then Some (1 + n + 1) else None
  else None.

Definition imageExtensions : list string :=
  ["jpg"; "jpeg"; "png"; "gif"; "webp"].

(** [/-\d+x\d+(?=\.(jpg|jpeg|png|gif|webp)$)/i]: the look-ahead is not
    part of the match. *)
Definition matchSizeSuffix (s : string) : option nat :=
  if JS.startsWith s "-" then
    let r1 := JS.drop 1 s in
    let n1 := span JS.isDigit r1 in
    let r2 := JS.drop n1 r1 in
    let r3 := JS.drop 1 r2 in
    let n2 := span JS.isDigit r3 in
    let r4 := JS.drop n2 r3 in
    if (0 <? n1)%nat && JS.startsWithIgnoreCase r2 "x" && (0 <? n2)%nat
       && existsb (fun e => JS.toUpperCase r4 =? JS.toUpperCase ("." ++ e))
            imageExtensions
    then Some (1 + n1 + 1 + n2) else None
  else None.

(** The predicate of [images.find] in [extractInitialData]. *)
Definition isContentImage (img : node) : bool :=
  match getAttribute img "src" with
  | None => false
  | Some src =>
      if (src =? "") || JS.includes src "cpx.golem.de" then false
      else
        let width :=
          JS.parseInt (match getAttribute img "width" with
                       | Some w => JS.orElse w "0"
                       | None => "0"
                       end) in
        let height :=
          JS.parseInt (match getAttribute img "height" with
                       | Some h => JS.orElse h "0"
                       | None => "0"
                       end) in
        (* a comparison with NaN is false *)
        let tiny (d : option Z) :=
          match d with
          | Some v => (v <=? 1)%Z
          | None => false
          end in
        if tiny width || tiny height then false else true
  end.

(** [a || b || c] on attribute values, followed by a truthiness test: the
    first truthy one, if any. *)
Definition firstTruthy (l : list (option string)) : option string :=
  match find JS.truthy l with
  | Some o => o
  | None => None
  end.

Definition lazySrc (img : node) : option string :=
  firstTruthy [getAttribute img "data-src";
               getAttribute img "data-lazy-src";
               getAttribute img "src"].

(* ------------------------------------------------------------------ *)
(** ** Boilerplate removal of [stripHtmlAndTruncate] *)

Definition isScriptOrStyle (n : node) : bool :=
  hasTag "script" n || hasTag "style" n.

Definition isReadMoreLink (n : node) : bool :=
  hasTag "a" n
  && (let linkText := JS.toLowerCase (textContent n) in
      JS.includes linkText "continue reading"
      || JS.includes linkText "read more").

(** Some read-more link below [n] has no [p] between itself and [n]: its
    [closest('p')] is [n] when [n] is a [p]. *)
Fixpoint hasReadMore (n : node) : bool :=
  match n with
  | Text _ => false
  | Element _ _ _ cs =>
      (fix any (k : list node) : bool :=
         match k with
         | [] => false
         | c :: k' =>
             isReadMoreLink c
             || (if hasTag "p" c then false else hasReadMore c)
             || any k'
         end) cs
  end.

(** The tree after the loop over the links.  The loop removes the closest
    [p] ancestor of every read-more link; a removal never changes the text
    of a link visited later (such a link would have to enclose the removed
    paragraph, and then it was visited earlier), so the removed paragraphs
    are exactly those with [hasReadMore]. *)
Fixpoint removeReadMore (n : node) : node :=
  match n with
  | Text s => Text s
  | Element pre l a cs =>
      Element pre l a
        ((fix all (k : list node) : list node :=
            match k with
            | [] => []
            | c :: k' =>
                if hasTag "p" c && hasReadMore c then all k'
                else removeReadMore c :: all k'
            end) cs)
  end.

(** [Map.prototype.set] on a map kept in insertion order: an existing key
    keeps its place and takes the new value, a new key goes to the end. *)
Fixpoint mapSet {V : Type} (k : string) (v : V) (m : list (string * V))
  : list (string * V) :=
  match m with
  | [] => [(k, v)]
  | (k', v') :: m' =>
      if k' =? k then (k, v) :: m' else (k', v') :: mapSet k v m'
  end.

Definition mapHas {V : Type} (k : string) (m : list (string * V)) : bool :=
  existsb (fun kv => fst kv =? k) m.

(** [Array.from(map.values())] *)
Definition mapValues {V : Type} (m : list (string * V)) : list V :=
  map snd m.

(** The persisted cache envelope ([CachedNews]). *)
Record CachedNews : Type := mkCachedNews {
  cachedArticles : list Article.t;
  timestamp : Z
}.

(** The state [updateArticlesAndCache] and [runImageScraper] write:
    the [articles] and [allSources] states, the [favorites] and the
    [localStorage] entry under [CACHE_KEY]. *)
Record AppState : Type := mkAppState {
  articles : list Article.t;
  favorites : list string;
  allSources : list (string * Language);
  cache : option CachedNews
}.

(** The result of [extractInitialData]. *)
Record InitialData : Type := mkInitialData {
  imageUrl : string;
  needsScraping : bool
}.

(* ------------------------------------------------------------------ *)
(** ** The pipeline over the services of the platform *)

Section Platform.

(** [new DOMParser().parseFromString(s, 'text/html')] *)
Variable parseHTML : string -> HTMLDocument.
(** [new DOMParser().parseFromString(s, 'application/xml')]: the root
    element of the document (a [parsererror] document on failure). *)
Variable parseXML : string -> node.
(** [new URL(input, base)]; [None] when it throws. *)
Variable newURL : string -> option string -> option URL.
(** [new Date(s).getTime()]; [None] for an invalid date. *)
Variable dateTime : string -> option Z.
(** [new Date(t).toISOString()] *)
Variable toISOString : Z -> string.
(** [fetch(url, ...)]; [None] when the promise rejects (network error or
    timeout). *)
Variable fetch : string -> option Response.
(** [s.isWellFormed()]: [s] holds no lone surrogate. *)
Variable isWellFormed : string -> bool.

(** *** [stripHtmlAndTruncate] *)

Definition cleanedDocument (html : string) : node :=
  removeReadMore
    (removeWhere isScriptOrStyle (documentElement (parseHTML html))).

Definition bodyText (html : string) : string :=
  match bodyOf (cleanedDocument html) with
  | Some b => textContent b
  | None => EmptyString
  end.

Definition stripHtmlAndTruncate (html : string) (length : nat) : string :=
  if html =? "" then ""
  else
    let text := JS.trim (bodyText html) in
    if text =? "..." then ""
    else if (length <? String.length text)%nat then
      let truncated := JS.substring text 0 length in
      let lastSpace := JS.lastIndexOf truncated " " in
      (if (0 <? lastSpace)%Z
       then JS.substring truncated 0 (Z.to_nat lastSpace)
       else truncated) ++ "..."
    else text.

(** *** [getOgImageFromUrl] *)

(** The URL is the link of an article, text of a parsed feed: it holds no
    lone surrogate and [encodeURIComponent] does not throw on it. *)
Definition ogProxies (url : string) : list string :=
  [ "https://api.codetabs.com/v1/proxy?quest=" ++ JS.encodeURIComponent url;
    "https://corsproxy.io/?" ++ JS.encodeURIComponent url;
    "https://api.allorigins.win/raw?url=" ++ JS.encodeURIComponent url ].

Definition firstSome {A : Type} (l : list (option A)) : option A :=
  match find (fun o => match o with Some _ => true | None => false end) l
  with
  | Some o => o
  | None => None
  end.

(** One turn of the loop over the proxies; [None] goes on to the next. *)
Definition ogImageVia (url proxyUrl : string) : option string :=
  match fetch proxyUrl with
  | None => None
  | Some response =>
      if negb (ok response) then None
      else
        match text response with
        | None => None
        | Some html =>
            let doc := documentElement (parseHTML html) in
            let ogImageMeta :=
              firstSome
                [ docQuerySelector doc (TagAttrEq "meta" "property" "og:image");
                  docQuerySelector doc
                    (TagAttrEq "meta" "property" "og:image:url");
                  docQuerySelector doc
                    (TagAttrEq "meta" "name" "twitter:image") ] in
            match ogImageMeta with
            | None => None
            | Some meta =>
                match getAttribute meta "content" with
                | Some imageUrl =>
                    if imageUrl =? "" then None
                    else option_map href (newURL imageUrl (Some url))
                | None => None
                end
            end
        end
  end.

Definition getOgImageFromUrl (url : string) : option string :=
  firstSome (map (ogImageVia url) (ogProxies url)).

(** *** [extractInitialData] *)

(** The value of the local [imageUrl] before the rewrites. *)
Definition imageCandidate (item : Item.t) : option string :=
  if JS.truthy (Item.enclosureLink item)
     && match Item.enclosureType item with
        | Some t => negb (t =? "") && JS.startsWith t "image"
        | None => false
        end
  then Item.enclosureLink item
  else if JS.truthy (Item.thumbnail item) then Item.thumbnail item
  else if JS.truthy (Item.mediaThumbnailUrl item)
       then Item.mediaThumbnailUrl item
  else
    let content := JS.orElse (Item.content item) (Item.description item) in
    if content =? "" then None
    else
      let doc := documentElement (parseHTML content) in
      let images := docQuerySelectorAll doc (Tag "img") in
      match find isContentImage images with
      | Some bestImage => lazySrc bestImage
      | None => None
      end.

Definition rewriteForHost (host sourceName processedUrl : string) : string :=
  if JS.includes host "gamespot.com" then
    replaceFirst matchUploads "/uploads/original/" processedUrl
  else if JS.includes host "pcgames.de"
          && negb (JS.includes host "pcgameshardware.de") then
    processedUrl
  else if JS.includes host "pcgameshardware.de" then
    processedUrl
  else if JS.includes host "cgames.de"
          || JS.includes sourceName "GameStar"
          || JS.includes sourceName "GamePro" then
    replaceFirst matchResize "/800/" processedUrl
  else processedUrl.

Definition stripSizeSuffix (sourceName processedUrl : string) : string :=
  if JS.includes sourceName "GamesWirtschaft"
  then replaceFirst matchSizeSuffix "" processedUrl
  else processedUrl.

Definition uriMalformed : exn := URIError "URI malformed".

(** [encodeURIComponent(s)] where [s] is a piece of a string: it throws a
    [URIError] when [s] holds a lone surrogate. *)
Definition encodeURIComponentOf (s : string) : outcome string :=
  if isWellFormed s then Returns (JS.encodeURIComponent s)
  else Throws uriMalformed.

Definition placeholderUrl (sourceName : string) : outcome string :=
  encoded <- encodeURIComponentOf (JS.substring sourceName 0 30) ;;
  Returns ("https://placehold.co/600x400/374151/d1d5db?text=" ++ encoded).

(** The last two lines of [extractInitialData], which no [try] encloses. *)
Definition placeholderData (sourceName : string) (needsScraping : bool)
  : outcome InitialData :=
  url <- placeholderUrl sourceName ;;
  Returns (mkInitialData url needsScraping).

Definition extractInitialData (item : Item.t) (sourceName : string)
  : outcome InitialData :=
  let imageUrl := imageCandidate item in
  let sourceNameLower := JS.toLowerCase sourceName in
  let needsScraping :=
    negb (JS.truthy imageUrl)
    && existsb (fun s => JS.includes sourceNameLower s)
         SOURCES_NEEDING_SCRAPING in
  let placeholder := placeholderData sourceName needsScraping in
  match imageUrl with
  | Some candidate =>
      if JS.truthy imageUrl then
        match newURL candidate (Some (Item.link item)) with
        | Some resolved =>
            let processedUrl := href resolved in
            match newURL processedUrl None with
            | Some urlObject =>
                Returns
                  (mkInitialData
                     (stripSizeSuffix sourceName
                        (rewriteForHost (hostname urlObject) sourceName
                           processedUrl))
                     false)
            | None => placeholder
            end
        | None => placeholder
        end
      else placeholder
  | None => placeholder
  end.

(** *** [parseRssXml] *)

(** [getQueryText] and [getHtmlContent] on an element. *)
Definition getQueryText (context : node) (s : selector) : string :=
  match querySelector context s with
  | Some el => JS.trim (textContent el)
  | None => EmptyString
  end.

(** [getQueryText] on the document. *)
Definition getDocQueryText (root : node) (s : selector) : string :=
  match docQuerySelector root s with
  | Some el => JS.trim (textContent el)
  | None => EmptyString
  end.

Definition isAlternate (l : node) : bool :=
  match getAttribute l "rel" with
  | Some r => r =? "alternate"
  | None => false
  end.

(** The [href] of the [rel=alternate] link of an entry, else of its first
    link. *)
Definition atomLink (entry : node) : option string :=
  let linkNode :=
    match find isAlternate (querySelectorAll entry (Tag "link")) with
    | Some l => Some l
    | None => querySelector entry (Tag "link")
    end in
  match linkNode with
  | Some l => getAttribute l "href"
  | None => None
  end.

Definition itemLink (isAtom : bool) (n : node) : option string :=
  if isAtom then atomLink n else Some (getQueryText n (Tag "link")).

Definition itemPubDate (isAtom : bool) (n : node) : string :=
  JS.orElse
    (getQueryText n (Tag (if isAtom then "published" else "pubDate")))
    (getQueryText n (Tag "updated")).

(** The body of the loop over [itemNodes]: [None] is the early [return]. *)
Definition itemOfNode (isAtom : bool) (n : node) : option Item.t :=
  let link := itemLink isAtom n in
  let title := getQueryText n (Tag "title") in
  let pubDate := itemPubDate isAtom n in
  match link with
  | Some link =>
      if (title =? "") || (link =? "") || (pubDate =? "") then None
      else
        let description :=
          JS.orElse (getQueryText n (Tag "description"))
                    (getQueryText n (Tag "summary")) in
        let contentEncoded :=
          JS.orElse (getQueryText n (Tag "content:encoded"))
                    (getQueryText n (Tag "content")) in
        let mediaThumbnail :=
          querySelector n
            (Or (Tag "media:thumbnail") (TagAttr "thumbnail" "url")) in
        let enclosure := querySelector n (TagAttr "enclosure" "url") in
        Some (Item.mk title link pubDate
                (JS.orElse (getQueryText n (Tag "guid"))
                   (JS.orElse (getQueryText n (Tag "id")) link))
                description
                (JS.orElse contentEncoded description)
                (match mediaThumbnail with
                 | Some m => getAttribute m "url"
                 | None => None
                 end)
                (match enclosure with
                 | Some e => getAttribute e "url"
                 | None => None
                 end)
                (match enclosure with
                 | Some e => getAttribute e "type"
                 | None => None
                 end)
                None)
  | None => None
  end.

Definition isAtomDocument (doc : node) : bool := nodeName doc =? "feed".

Definition itemNodes (doc : node) : list node :=
  docQuerySelectorAll doc
    (Tag (if isAtomDocument doc then "entry" else "item")).

Definition pushItem (isAtom : bool) (n : node) : list Item.t :=
  match itemOfNode isAtom n with
  | Some i => [i]
  | None => []
  end.

Definition parseRssXml (xmlString feedUrl : string) : outcome ParsedFeed :=
  let doc := parseXML xmlString in
  match docQuerySelector doc (Tag "parsererror") with
  | Some _ => Throws (Error ("Failed to parse XML for feed: " ++ feedUrl))
  | None =>
      let isAtom := isAtomDocument doc in
      Returns
        (mkParsedFeed
           (getDocQueryText doc
              (if isAtom then Tag "title" else Child "channel" "title"))
           feedUrl
           (flat_map (pushItem isAtom) (itemNodes doc)))
  end.

(** *** [fetchArticlesFromFeeds] *)

(** The URL is one of the configured feeds: [encodeURIComponent] does not
    throw on it. *)
Definition feedProxies (url : string) : list string :=
  [ "https://corsproxy.io/?" ++ JS.encodeURIComponent url;
    "https://api.allorigins.win/raw?url=" ++ JS.encodeURIComponent url ].

(** One turn of the loop over the proxies of a feed; [None] goes on to the
    next proxy (a [continue] or a caught exception). *)
Definition feedVia (feedUrl proxyUrl : string) : option ParsedFeed :=
  match fetch proxyUrl with
  | None => None
  | Some response =>
      if negb (ok response) then None
      else
        match text response with
        | None => None
        | Some xmlString =>
            if (xmlString =? "")
               || negb (JS.startsWith (JS.trim xmlString) "<")
            then None
            else
              match parseRssXml xmlString feedUrl with
              | Returns data => Some data
              | Throws _ => None
              end
        end
  end.

(** The settled value of the promise of one feed: the parsed feed with its
    language, or [None] for the [null] of a feed all of whose proxies
    failed.  The promise never rejects. *)
Definition fetchFeed (feed : string * Language)
  : option (ParsedFeed * Language) :=
  match firstSome (map (feedVia (fst feed)) (feedProxies (fst feed))) with
  | Some data => Some (data, snd feed)
  | None => None
  end.

Definition invalidTime : exn := RangeError "Invalid time value".

(** The body of the loop over the items of a feed. *)
Definition articleOfItem (sourceName : string) (lang : Language)
           (item : Item.t) : outcome (list Article.t) :=
  if (Item.title item =? "") || (Item.link item =? "")
     || (Item.pubDate item =? "")
  then Returns []
  else
    data <- extractInitialData item sourceName ;;
    match dateTime (Item.pubDate item) with
    | None => Throws invalidTime
    | Some t =>
        Returns
          [ Article.mk
              (JS.orElse (Item.guid item) (Item.link item))
              (JS.trim (Item.title item))
              sourceName
              (toISOString t)
              (stripHtmlAndTruncate
                 (JS.orElse (Item.description item) (Item.content item))
                 150)
              (Item.link item)
              (imageUrl data)
              (Some (needsScraping data))
              lang ]
    end.

(** The body of [results.forEach]. *)
Definition articlesOfResult (result : option (ParsedFeed * Language))
  : outcome (list Article.t) :=
  match result with
  | Some (feedData, lang) =>
      let sourceName :=
        cleanSourceName (feedTitle feedData) (feedUrl feedData) in
      forEachCollect (articleOfItem sourceName lang) (items feedData)
  | None => Returns []
  end.

Definition isFailed (result : option (ParsedFeed * Language)) : bool :=
  match result with
  | Some _ => false
  | None => true
  end.

Definition exhausted : exn :=
  Error "Could not fetch news from any source. Please check your internet connection or try again later.".

Definition fetchArticlesFromFeeds (feeds : list (string * Language))
  : outcome (list Article.t) :=
  let results := map fetchFeed feeds in
  allArticles <- forEachCollect articlesOfResult results ;;
  if (List.length allArticles =? 0)%nat && (0 <? List.length results)%nat
  then
    let failedCount := List.length (filter isFailed results) in
    if (failedCount =? List.length results)%nat
    then Throws exhausted
    else Returns allArticles
  else Returns allArticles.

(** *** [updateArticlesAndCache] of [App.tsx] *)

Definition getTime (a : Article.t) : option Z :=
  dateTime (Article.publicationDate a).

Definition retention : Z := 7 * 24 * 60 * 60 * 1000.

Definition deduplicate (newArticles : list Article.t) : list Article.t :=
  mapValues
    (fold_left (fun m a => mapSet (Article.id a) a m) newArticles []).

Definition isRecent (sevenDaysAgo : Z) (a : Article.t) : bool :=
  match getTime a with
  | Some t => (sevenDaysAgo <=? t)%Z
  | None => false
  end.

(** The comparator of the sort; a [NaN] result counts as [0]. *)
Definition byDateDescending (a b : Article.t) : Z :=
  match getTime b, getTime a with
  | Some tb, Some ta => (tb - ta)%Z
  | _, _ => 0%Z
  end.

Definition finalArticles (now : Z) (newArticles : list Article.t)
  : list Article.t :=
  let sevenDaysAgo := (now - retention)%Z in
  JS.sort byDateDescending
    (filter (isRecent sevenDaysAgo) (deduplicate newArticles)).

Definition uniqueSources (l : list Article.t) : list (string * Language) :=
  fold_left
    (fun m a =>
       if mapHas (Article.source a) m then m
       else mapSet (Article.source a) (Article.language a) m)
    l [].

(** [now] is the instant of the first [Date.now()], [stamp] that of the
    second one. *)
Definition updateArticlesAndCache (now stamp : Z)
           (newArticles : list Article.t) (st : AppState) : AppState :=
  let final := finalArticles now newArticles in
  let availableArticleIds := map Article.id final in
  mkAppState
    final
    (filter (fun favId => existsb (String.eqb favId) availableArticleIds)
       (favorites st))
    (uniqueSources final)
    (Some (mkCachedNews final stamp)).

(** [mergeAndPersist(existing, incoming)] of the specification: the call
    [updateArticlesAndCache([...existing, ...incoming])] of [loadNews]. *)
Definition mergeAndPersist (now stamp : Z)
           (existing incoming : list Article.t) (st : AppState) : AppState :=
  updateArticlesAndCache now stamp (existing ++ incoming)%list st.

(** *** [runImageScraper] of [App.tsx] *)

Definition isFlagged (a : Article.t) : bool :=
  match Article.needsScraping a with
  | Some true => true
  | _ => JS.includes (Article.imageUrl a) "placehold.co"
  end.

(** [{ ...prevArticle, imageUrl: scrapedUrl || prevArticle.imageUrl,
       needsScraping: false }] *)
Definition scraped (scrapedUrl : option string) (prevArticle : Article.t)
  : Article.t :=
  Article.mk
    (Article.id prevArticle)
    (Article.title prevArticle)
    (Article.source prevArticle)
    (Article.publicationDate prevArticle)
    (Article.summary prevArticle)
    (Article.link prevArticle)
    (if JS.truthy scrapedUrl
     then match scrapedUrl with
          | Some u => u
          | None => Article.imageUrl prevArticle
          end
     else Article.imageUrl prevArticle)
    (Some false)
    (Article.language prevArticle).

(** The updater passed to [setArticles] for one scraped article. *)
Definition applyScrape (article : Article.t) (scrapedUrl : option string)
           (prevArticles : list Article.t) : list Article.t :=
  map (fun prevArticle =>
         if Article.id prevArticle =? Article.id article
         then scraped scrapedUrl prevArticle
         else prevArticle)
      prevArticles.

(** What the callback of [batch.map] does to the [articles] state. *)
Definition scrapeOne (prevArticles : list Article.t) (article : Article.t)
  : list Article.t :=
  applyScrape article (getOgImageFromUrl (Article.link article))
    prevArticles.

Definition articlesToScrape (articlesToCheck : list Article.t)
  : list Article.t :=
  filter isFlagged articlesToCheck.

(** The [articles] state after the pass, the callbacks having completed in
    the order [completion]: the batches run one after the other and the
    callbacks of a batch complete in any order, so [completion] is some
    permutation of [articlesToScrape articlesToCheck]. *)
Definition scraperPass (completion : list Article.t)
           (prevArticles : list Article.t) : list Article.t :=
  fold_left scrapeOne completion prevArticles.

(** The pass when every callback completes in the order of the list. *)
Definition runImageScraper (articlesToCheck : list Article.t)
           (st : AppState) : AppState :=
  mkAppState
    (scraperPass (articlesToScrape articlesToCheck) (articles st))
    (favorites st) (allSources st) (cache st).

(** *** The two feed groups *)

Definition getPrimaryNewsArticles : outcome (list Article.t) :=
  fetchArticlesFromFeeds PRIMARY_FEEDS.

Definition getSecondaryNewsArticles : outcome (list Article.t) :=
  fetchArticlesFromFeeds SECONDARY_FEEDS.

End Platform.

(* ------------------------------------------------------------------ *)
(** ** Notions used in the statements *)

(** A dimension that does not make the comparison [d <= 1] true. *)
Definition overOnePixel (d : option Z) : Prop :=
  match d with
  | Some v => (1 < v)%Z
  | None => True
  end.

(** [Map.prototype.get] and the keys of a map in their order. *)
Fixpoint mapGet {V : Type} (k : string) (m : list (string * V)) : option V :=
  match m with
  | [] => None
  | (k', v) :: m' => if k' =? k then Some v else mapGet k m'
  end.

Definition mapKeys {V : Type} (m : list (string * V)) : list string :=
  map fst m.

(** The step of the loop that fills the map of [updateArticlesAndCache]. *)
Definition setArticle (m : list (string * Article.t)) (a : Article.t)
  : list (string * Article.t) :=
  mapSet (Article.id a) a m.

(** Every value of the map sits under its own id. *)
Definition keyedById (m : list (string * Article.t)) : Prop :=
  Forall (fun kv => Article.id (snd kv) = fst kv) m.

(** The last article of a list that carries the id [k]. *)
Definition lastWithId (k : string) (l : list Article.t) : option Article.t :=
  find (fun a => Article.id a =? k) (rev l).

(** Descending order of a key. *)
Definition descending {A : Type} (key : A -> Z) (a b : A) : Prop :=
  (key b <= key a)%Z.

(** An article whose date parses, and the instant of its date. *)
Definition hasTime (dateTime : string -> option Z) (a : Article.t) : Prop :=
  getTime dateTime a <> None.

Definition timeOr0 (dateTime : string -> option Z) (a : Article.t) : Z :=
  match getTime dateTime a with
  | Some t => t
  | None => 0%Z
  end.

(** The value of an outcome that returns. *)
Definition returned {B : Type} (o : outcome (list B)) : list B :=
  match o with
  | Returns bs => bs
  | Throws _ => []
  end.

(** The dates of all items of the feeds that were fetched parse. *)
Definition datesParse (parseXML : string -> node)
           (dateTime : string -> option Z)
           (fetch : string -> option Response)
           (feeds : list (string * Language)) : Prop :=
  forall feed data lang item,
    In feed feeds -> fetchFeed parseXML fetch feed = Some (data, lang) ->
    In item (items data) -> dateTime (Item.pubDate item) <> None.

(** The source names of the feeds that were fetched, cut to 30 code units,
    hold no lone surrogate. *)
Definition namesEncode (parseXML : string -> node)
           (fetch : string -> option Response)
           (isWellFormed : string -> bool)
           (feeds : list (string * Language)) : Prop :=
  forall feed data lang,
    In feed feeds -> fetchFeed parseXML fetch feed = Some (data, lang) ->
    isWellFormed
      (JS.substring (cleanSourceName (feedTitle data) (feedUrl data)) 0 30)
    = true.

(** The fields of an article that the scraper never writes. *)
Definition sameOtherFields (a b : Article.t) : Prop :=
  Article.id b = Article.id a
  /\ Article.title b = Article.title a
  /\ Article.source b = Article.source a
  /\ Article.publicationDate b = Article.publicationDate a
  /\ Article.summary b = Article.summary a
  /\ Article.link b = Article.link a
  /\ Article.language b = Article.language a.

(** What a whole scraper pass does to one article of the state. *)
Definition passOn (parseHTML : string -> HTMLDocument)
           (newURL : string -> option string -> option URL)
           (fetch : string -> option Response)
           (completion : list Article.t) (prev : Article.t) : Article.t :=
  fold_left
    (fun q art =>
       if Article.id q =? Article.id art
       then scraped
              (getOgImageFromUrl parseHTML newURL fetch (Article.link art)) q
       else q)
    completion prev.

(* ------------------------------------------------------------------ *)
(** ** The platform on the inputs of the examples

    The theorems hold for every parser, clock and network.  The examples
    and the concrete instances of the theorems need the answers of the
    platform on a few inputs; they are written down here. *)

(** The URL parser on an absolute [https] URL in normal form, without
    credentials and port: the [href] is the input and the host name ends at
    the first slash behind the scheme.  Other inputs are refused. *)
Definition absoluteHttpsURL (input : string) (base : option string)
  : option URL :=
  if JS.startsWith input "https://" then
    let rest := JS.drop 8 input in
    Some (mkURL input (JS.take (span notSlash rest) rest))
  else None.

(** The code units outside ASCII in the examples: a surrogate is written
    as the character of its high byte, 216 to 219 (0xD8 to 0xDB) for a high
    surrogate and 220 to 223 (0xDC to 0xDF) for a low one. *)
Definition isHighSurrogate (c : ascii) : bool :=
  (216 <=? JS.code c)%nat && (JS.code c <=? 219)%nat.

Definition isLowSurrogate (c : ascii) : bool :=
  (220 <=? JS.code c)%nat && (JS.code c <=? 223)%nat.

(** [isWellFormed] on the strings of the examples: every high surrogate is
    followed by a low one and every low one follows a high one. *)
Fixpoint pairedSurrogates (s : string) : bool :=
  match s with
  | EmptyString => true
  | String c s' =>
      if isHighSurrogate c then
        match s' with
        | String d s'' => isLowSurrogate d && pairedSurrogates s''
        | EmptyString => false
        end
      else negb (isLowSurrogate c) && pairedSurrogates s'
  end.

(** The two code units of U+1F3AE (a game pad), 0xD83C and 0xDFAE. *)
Definition gamePad : string :=
  String (ascii_of_nat 216) (String (ascii_of_nat 223) EmptyString).

(** A feed title of 36 code units with the game pad at the positions 29
    and 30. *)
Definition gamePadTitle : string :=
  "Retro Gaming Magazine Berlin " ++ gamePad ++ " Blog".

(** The HTML parser on a string without "<" and "&" that does not start
    with white space: one text node under [body]. *)
Definition plainTextDocument (s : string) : HTMLDocument :=
  mkHTMLDocument [] [] [Text s].

(** The HTML parser on the strings of the examples. *)
Definition exampleHTML (s : string) : HTMLDocument :=
  if s =? "<p>One</p>"
  then mkHTMLDocument [] [] [elem "p" [] [Text "One"]]
  else plainTextDocument s.

(** The document the HTML parser builds for
    [<img src='track.gif' width='1' height='1'>]. *)
Definition trackingPixelDocument (s : string) : HTMLDocument :=
  mkHTMLDocument [] []
    [elem "img" [("src", "track.gif"); ("width", "1"); ("height", "1")] []].

(** An item whose content holds only a tracking pixel. *)
Definition trackingPixelItem : Item.t :=
  Item.mk "Title" "https://www.play3.de/a" "Mon, 27 Oct 2025 10:00:00 GMT"
    "guid-1" "" "<img src='track.gif' width='1' height='1'>"
    None None None None.

(** A GameSpot item with its image in the enclosure. *)
Definition gamespotItem : Item.t :=
  Item.mk "Title" "https://www.gamespot.com/articles/a/1100-1/"
    "Mon, 27 Oct 2025 10:00:00 GMT" "guid-2" "" "" None
    (Some "https://www.gamespot.com/a/uploads/square_small/123/image.jpg")
    (Some "image/jpeg") None.

(** [n] copies of [s]. *)
Fixpoint repeatString (n : nat) (s : string) : string :=
  match n with
  | O => EmptyString
  | S k => s ++ repeatString k s
  end.

Definition lineFeed : ascii := ascii_of_nat 10.

(** Fifteen ten-letter words, one per line: 165 characters. *)
Definition wordsOnLines : string :=
  repeatString 15 ("abcdefghij" ++ String lineFeed EmptyString).

(** The dates of the examples as [Date] reads them, in milliseconds since
    the epoch; every other string is an invalid date. *)
Definition exampleDateTime (s : string) : option Z :=
  mapGet s
    [ ("Mon, 27 Oct 2025 10:00:00 GMT", 1761559200000%Z);
      ("2025-10-27T10:00:00Z", 1761559200000%Z);
      ("2025-10-27T10:00:00.000Z", 1761559200000%Z);
      ("2025-10-26T10:00:00.000Z", 1761472800000%Z);
      ("2025-10-01T00:00:00.000Z", 1759276800000%Z) ].

(** [toISOString] on the instants of the examples. *)
Definition exampleISOString (t : Z) : string :=
  if (t =? 1761559200000)%Z then "2025-10-27T10:00:00.000Z"
  else if (t =? 1761472800000)%Z then "2025-10-26T10:00:00.000Z"
  else if (t =? 1759276800000)%Z then "2025-10-01T00:00:00.000Z"
  else EmptyString.

(** An XML element without prefix and attributes that holds one text. *)
Definition leaf (tag data : string) : node :=
  Element None tag [] [Text data].

(** The tree of an RSS document with three items: a complete one, one
    without title, and one that has no [pubDate] but an [updated]
    element. *)
Definition rssDocument : node :=
  Element None "rss" [("version", "2.0")]
    [ Element None "channel" []
        [ leaf "title" "GameStar News";
          leaf "link" "https://www.gamestar.de/";
          Element None "item" []
            [ leaf "title" " First ";
              leaf "link" "https://www.gamestar.de/1";
              leaf "pubDate" "Mon, 27 Oct 2025 10:00:00 GMT";
              leaf "guid" "gs-1";
              leaf "description" "<p>One</p>" ];
          Element None "item" []
            [ leaf "link" "https://www.gamestar.de/2";
              leaf "pubDate" "Mon, 27 Oct 2025 10:00:00 GMT" ];
          Element None "item" []
            [ leaf "title" "Third";
              leaf "link" "https://www.gamestar.de/3";
              leaf "updated" "2025-10-27T10:00:00Z" ] ] ].

(** The tree of an Atom document with one entry. *)
Definition atomDocument : node :=
  Element None "feed" [("xmlns", "http://www.w3.org/2005/Atom")]
    [ leaf "title" "Golem";
      Element None "entry" []
        [ leaf "title" "Entry";
          Element None "link" [("rel", "self"); ("href", "https://g.de/self")]
            [];
          Element None "link"
            [("rel", "alternate"); ("href", "https://g.de/e1")] [];
          leaf "id" "tag:g.de,1";
          leaf "updated" "2025-10-27T10:00:00Z";
          leaf "summary" "Text" ] ].

(** The item [parseRssXml] builds from the entry of [atomDocument]. *)
Definition atomEntryItem : Item.t :=
  Item.mk "Entry" "https://g.de/e1" "2025-10-27T10:00:00Z" "tag:g.de,1"
    "Text" "Text" None None None None.

(** The tree of an RSS document whose only item has a [pubDate] that is no
    date. *)
Definition badDateDocument : node :=
  Element None "rss" []
    [ Element None "channel" []
        [ leaf "title" "Kotaku";
          Element None "item" []
            [ leaf "title" "Soon";
              leaf "link" "https://kotaku.com/soon";
              leaf "pubDate" "coming soon" ] ] ].

(** The tree of an RSS document whose title holds the game pad and whose
    only item has no image. *)
Definition gamePadDocument : node :=
  Element None "rss" []
    [ Element None "channel" []
        [ leaf "title" gamePadTitle;
          Element None "item" []
            [ leaf "title" "Review";
              leaf "link" "https://retro.example/review";
              leaf "pubDate" "Mon, 27 Oct 2025 10:00:00 GMT" ] ] ].

(** A network on which the hosts named "down" answer with an error status
    through every proxy and every other host delivers an RSS document. *)
Definition exampleFetch (proxyUrl : string) : option Response :=
  if JS.includes proxyUrl "down"
  then Some (mkResponse false (Some "Internal Server Error"))
  else Some (mkResponse true (Some "<rss version='2.0'>...</rss>")).

(** A group of five feeds, two of them on hosts that are down. *)
Definition fiveFeeds : list (string * Language) :=
  [ ("https://www.gamestar.de/rss/gamestar.rss", de);
    ("https://down1.example/feed", de);
    ("https://www.gamespot.com/feeds/mashup", en);
    ("https://down2.example/feed", en);
    ("https://www.4p.de/feed", de) ].

(** The page of an article with an Open Graph image, and a network that
    delivers it for the article "https://www.play3.de/a" only. *)
Definition ogDocument (s : string) : HTMLDocument :=
  mkHTMLDocument
    [ elem "meta" [("name", "twitter:image"); ("content", "/tw.jpg")] [];
      elem "meta" [("property", "og:image");
                   ("content", "https://cdn.play3.de/og.jpg")] [] ]
    [] [Text "page"].

Definition ogFetch (proxyUrl : string) : option Response :=
  if JS.includes proxyUrl "play3.de%2Fa"
  then Some (mkResponse true (Some "<html>...</html>"))
  else None.

Definition exampleArticle (i l img : string) (flag : option bool)
  : Article.t :=
  Article.mk i "Title" "Play3" "2025-10-27T10:00:00.000Z" "Summary" l img
    flag de.

(** The selector ['script, style'] of [stripHtmlAndTruncate]. *)
Definition scriptOrStyle : selector := Or (Tag "script") (Tag "style").

(* ------------------------------------------------------------------ *)
(** ** The view logic of [App.tsx] *)

(** [arr.includes(x)] on an array of strings. *)
Definition arrayIncludes (l : list string) (x : string) : bool :=
  existsb (String.eqb x) l.

(** [TimeFilter] of [types.ts]: ['today' | 'yesterday' | '7d' | 'all']. *)
Inductive TimeFilter : Type := today | yesterday | last7d | allTime.

(** The language filter: ['all' | 'de' | 'en']. *)
Inductive LanguageFilter : Type :=
| allLanguages
| onlyLanguage (l : Language).

Definition sameLanguage (a b : Language) : bool :=
  match a, b with
  | de, de => true
  | en, en => true
  | _, _ => false
  end.

(** The filter state of [FilterContext] that [filteredArticles] reads. *)
Record Filters : Type := mkFilters {
  timeFilter : TimeFilter;
  sourceFilter : string;
  languageFilter : LanguageFilter;
  showFavoritesOnly : bool;
  searchQuery : string
}.

(** The instants the time filter takes from the platform: [new Date()],
    the local midnight [todayStart] and the local midnight of the day
    before, [yesterdayStart] (milliseconds since the epoch). *)
Record DayClock : Type := mkDayClock {
  nowInstant : Z;
  todayStart : Z;
  yesterdayStart : Z
}.

Definition ARTICLES_PER_PAGE : nat := 32.

(** [date >= t] and [date < t] for a date that may be invalid: a comparison
    with [NaN] is false. *)
Definition notBefore (date : option Z) (t : Z) : bool :=
  match date with
  | Some v => (t <=? v)%Z
  | None => false
  end.

Definition isBefore (date : option Z) (t : Z) : bool :=
  match date with
  | Some v => (v <? t)%Z
  | None => false
  end.

Section View.

Variable dateTime : string -> option Z.

Definition matchesSearch (lowercasedQuery : string) (article : Article.t)
  : bool :=
  JS.includes (JS.toLowerCase (Article.title article)) lowercasedQuery
  || JS.includes (JS.toLowerCase (Article.summary article)) lowercasedQuery.

Definition inTimeRange (clock : DayClock) (f : TimeFilter)
           (article : Article.t) : bool :=
  let articleDate := dateTime (Article.publicationDate article) in
  match f with
  | allTime => true
  | today => notBefore articleDate (todayStart clock)
  | yesterday =>
      notBefore articleDate (yesterdayStart clock)
      && isBefore articleDate (todayStart clock)
  | last7d =>
      notBefore articleDate (nowInstant clock - 7 * 24 * 60 * 60 * 1000)%Z
  end.

(** The [filteredArticles] memo of [AppContent]: the filters are applied one
    after the other. *)
Definition filteredArticles (clock : DayClock) (articles : list Article.t)
           (favorites mutedSources : list string) (f : Filters)
  : list Article.t :=
  let result := articles in
  let result :=
    if negb (showFavoritesOnly f)
    then filter (fun article =>
                   negb (arrayIncludes mutedSources (Article.source article)))
                result
    else result in
  let result :=
    if negb (searchQuery f =? "")
    then filter (matchesSearch (JS.toLowerCase (searchQuery f))) result
    else result in
  let result :=
    if showFavoritesOnly f
    then filter (fun article => arrayIncludes favorites (Article.id article))
                result
    else result in
  let result :=
    if negb (sourceFilter f =? "all")
    then filter (fun article => Article.source article =? sourceFilter f)
                result
    else result in
  let result :=
    match languageFilter f with
    | allLanguages => result
    | onlyLanguage l =>
        filter (fun article => sameLanguage (Article.language article) l)
               result
    end in
  match timeFilter f with
  | allTime => result
  | t => filter (inTimeRange clock t) result
  end.

End View.

(** [filteredArticles.slice(0, page * ARTICLES_PER_PAGE)] *)
Definition articlesToShow (filtered : list Article.t) (page : nat)
  : list Article.t :=
  firstn (page * ARTICLES_PER_PAGE) filtered.

(** Whether the "Load More Articles" button is rendered. *)
Definition showsLoadMore (filtered : list Article.t) (page : nat) : bool :=
  (List.length (articlesToShow filtered page) <? List.length filtered)%nat.

Definition availableFavoritesCount (articles : list Article.t)
           (favorites : list string) : nat :=
  match articles, favorites with
  | [], _ => 0
  | _, [] => 0
  | _, _ =>
      List.length
        (filter (arrayIncludes (map Article.id articles)) favorites)
  end.

Definition availableSources (allSources : list (string * Language))
           (mutedSources : list string) : list (string * Language) :=
  filter (fun s => negb (arrayIncludes mutedSources (fst s))) allSources.

(** The state updates of [handleToggleFavorite] and of its "Undo". *)
(** [favorites] is the list the callback was created with, [prev] the one the
    state update receives. *)
Definition handleToggleFavorite (id : string) (favorites prev : list string)
  : list string :=
  let isCurrentlyFavorite := arrayIncludes favorites id in
  if isCurrentlyFavorite
  then filter (fun favId => negb (favId =? id)) prev
  else (prev ++ [id])%list.




(* ------------------------------------------------------------------ *)
(** ** The mute settings of [SettingsModal.tsx] *)

(** [[...new Set(arr)]]: the first occurrence of every element, in order. *)
Definition setAdd (s : list string) (x : string) : list string :=
  if arrayIncludes s x then s else (s ++ [x])%list.

Definition uniqueValues (arr : list string) : list string :=
  fold_left setAdd arr [].

Definition handleToggleSource (sourceName : string) (prev : list string)
  : list string :=
  if arrayIncludes prev sourceName
  then filter (fun s => negb (s =? sourceName)) prev
  else (prev ++ [sourceName])%list.

Definition languageSourceNames (allSources : list (string * Language))
           (language : Language) : list string :=
  map fst (filter (fun s => sameLanguage (snd s) language) allSources).

Definition handleToggleLanguage (allSources : list (string * Language))
           (language : Language) (shouldMute : bool) (prev : list string)
  : list string :=
  let names := languageSourceNames allSources language in
  if shouldMute
  then uniqueValues (prev ++ names)%list
  else filter (fun s => negb (arrayIncludes names s)) prev.

(** [mutedCount], [allForLangMuted] and [someForLangMuted] of
    [LanguageSourceGroup]. *)
Definition mutedCount (sources : list (string * Language))
           (mutedSources : list string) : nat :=
  List.length (filter (fun s => arrayIncludes mutedSources (fst s)) sources).

Definition allForLangMuted (sources : list (string * Language))
           (mutedSources : list string) : bool :=
  (0 <? List.length sources)%nat
  && (mutedCount sources mutedSources =? List.length sources)%nat.

Definition someForLangMuted (sources : list (string * Language))
           (mutedSources : list string) : bool :=
  (0 <? mutedCount sources mutedSources)%nat
  && negb (allForLangMuted sources mutedSources).

(** [handleToggle] of [LanguageSourceGroup]: the click on the check box of a
    language, with [onToggleLanguage] bound to [handleToggleLanguage]. *)
Definition handleToggle (allSources sources : list (string * Language))
           (mutedSources : list string) : list string :=
  match sources with
  | [] => mutedSources
  | first :: _ =>
      handleToggleLanguage allSources (snd first)
        (negb (allForLangMuted sources mutedSources)) mutedSources
  end.

(** The sources shown in one group of the settings: sources of [allSources]
    that have the language of the group. *)
Definition groupOf (allSources sources : list (string * Language))
           (language : Language) : Prop :=
  forall s, In s sources ->
            In s allSources /\ sameLanguage (snd s) language = true.

(** The three selectors of [getOgImageFromUrl], in their order. *)
Definition ogSelectors : list selector :=
  [ TagAttrEq "meta" "property" "og:image";
    TagAttrEq "meta" "property" "og:image:url";
    TagAttrEq "meta" "name" "twitter:image" ].

(** Every character of [s] satisfies [p]. *)
Fixpoint allChars (p : ascii -> bool) (s : string) : bool :=
  match s with
  | EmptyString => true
  | String c s' => p c && allChars p s'
  end.

Definition notDigit (c : ascii) : bool := negb (JS.isDigit c).

(** An item whose feed gives a link without scheme and a thumbnail with a
    path only: [new URL("/img/a.jpg", "kotaku.com/x")] throws. *)
Definition relativeImageItem : Item.t :=
  Item.mk "Title" "kotaku.com/x" "Mon, 27 Oct 2025 10:00:00 GMT" "guid-3"
    "" "" (Some "/img/a.jpg") None None None.

(** A string that does not begin with white space. *)
Definition trimStartDone (s : string) : Prop :=
  match s with
  | EmptyString => True
  | String c _ => JS.isWhiteSpace c = false
  end.

(** The first article fetched in the example of the five feeds. *)
Definition firstFetchedArticle : Article.t :=
  Article.mk "gs-1" "First" "GameStar" "2025-10-27T10:00:00.000Z" "One"
    "https://www.gamestar.de/1"
    "https://placehold.co/600x400/374151/d1d5db?text=GameStar"
    (Some false) de.

(** The step of the loop that fills [sourceMap]. *)
Definition addSource (m : list (string * Language)) (a : Article.t)
  : list (string * Language) :=
  if mapHas (Article.source a) m then m
  else mapSet (Article.source a) (Article.language a) m.

(** The first article of a list that comes from the source [name]. *)
Definition firstFromSource (name : string) (l : list Article.t)
  : option Article.t :=
  find (fun a => Article.source a =? name) l.

(** All the tests of [filteredArticles] on one article. *)
Definition isVisible (dateTime : string -> option Z) (clock : DayClock)
           (favorites mutedSources : list string) (f : Filters)
           (article : Article.t) : bool :=
  (showFavoritesOnly f
   || negb (arrayIncludes mutedSources (Article.source article)))
  && ((searchQuery f =? "")
      || matchesSearch (JS.toLowerCase (searchQuery f)) article)
  && (negb (showFavoritesOnly f)
      || arrayIncludes favorites (Article.id article))
  && ((sourceFilter f =? "all")
      || (Article.source article =? sourceFilter f))
  && match languageFilter f with
     | allLanguages => true
     | onlyLanguage l => sameLanguage (Article.language article) l
     end
  && inTimeRange dateTime clock (timeFilter f) article.

(** A character of the ASCII range. *)
Definition isAscii (c : ascii) : bool := (JS.code c <? 128)%nat.

(** The filters of the examples. *)
Definition searchFilters (query : string) : Filters :=
  mkFilters allTime "all" allLanguages false query.

(** Three sources, and the group of the German ones as the settings show
    it. *)
Definition threeSources : list (string * Language) :=
  [("GameStar", de); ("IGN", en); ("GamePro", de)].

Definition germanGroup : list (string * Language) :=
  [("GamePro", de); ("GameStar", de)].

(* ------------------------------------------------------------------ *)
(** ** [loadNews] of [App.tsx] *)

Definition CACHE_DURATION : Z := 5 * 60 * 1000.

(** A string under [CACHE_KEY] that the application did not write, by what
    [JSON.parse] makes of it and what [loadNews] reads of that: the parser
    refuses it; or it parses to [null], [false], [0] or the empty string; or
    it parses to another value, of which [loadNews] reads [articles] (an
    array, taken to hold articles, or [None] for anything that is no array:
    [updateArticlesAndCache] throws a [TypeError] on it) and [timestamp] (as
    a number, or [None] when the subtraction from [Date.now()] gives
    [NaN]).  The entry [{}] is [parsedValue None None]. *)
Inductive ForeignEntry : Type :=
| unparsable
| parsedFalsy
| parsedValue (articlesArray : option (list Article.t))
              (numericTimestamp : option Z).

(** The state [loadNews] reads and writes: the state of
    [updateArticlesAndCache], the React states [isBlockingLoading],
    [isRefreshing] and [error], the ref [isInitialLoad], and the arguments of
    the calls of [runImageScraper] it has started, the last one first.
    [foreign] is the string under [CACHE_KEY] when the application did not
    write it; otherwise the entry is the [cache] of [appState]. *)
Record LoadState : Type := mkLoadState {
  appState : AppState;
  foreign : option ForeignEntry;
  isBlockingLoading : bool;
  isRefreshing : bool;
  error : option string;
  isInitialLoad : bool;
  scraperCalls : list (list Article.t)
}.

(** The state before the first effect runs. *)
Definition mountState (favorites : list string) (cache : option CachedNews)
           (foreign : option ForeignEntry) : LoadState :=
  mkLoadState (mkAppState [] favorites [] cache) foreign true false None true
    [].

Definition setError (e : option string) (ls : LoadState) : LoadState :=
  mkLoadState (appState ls) (foreign ls) (isBlockingLoading ls)
    (isRefreshing ls) e (isInitialLoad ls) (scraperCalls ls).

Definition setIsBlockingLoading (b : bool) (ls : LoadState) : LoadState :=
  mkLoadState (appState ls) (foreign ls) b (isRefreshing ls) (error ls)
    (isInitialLoad ls) (scraperCalls ls).

Definition setIsRefreshing (b : bool) (ls : LoadState) : LoadState :=
  mkLoadState (appState ls) (foreign ls) (isBlockingLoading ls) b (error ls)
    (isInitialLoad ls) (scraperCalls ls).

Definition setIsInitialLoad (b : bool) (ls : LoadState) : LoadState :=
  mkLoadState (appState ls) (foreign ls) (isBlockingLoading ls)
    (isRefreshing ls) (error ls) b (scraperCalls ls).

(** [localStorage.removeItem(CACHE_KEY)] *)
Definition removeCache (ls : LoadState) : LoadState :=
  mkLoadState
    (mkAppState (articles (appState ls)) (favorites (appState ls))
       (allSources (appState ls)) None)
    None (isBlockingLoading ls) (isRefreshing ls) (error ls)
    (isInitialLoad ls) (scraperCalls ls).

(** The two instants [Date.now()] gives in one call of
    [updateArticlesAndCache]. *)
Record CommitTime : Type := mkCommitTime { pruneNow : Z; stampNow : Z }.

(** [updateArticlesAndCache(l); runImageScraper(l')]: the scraper runs
    behind, only its call is recorded. *)
Definition commitAndScrape (dateTime : string -> option Z) (t : CommitTime)
           (toCommit toScrape : list Article.t) (ls : LoadState)
  : LoadState :=
  mkLoadState
    (updateArticlesAndCache dateTime (pruneNow t) (stampNow t) toCommit
       (appState ls))
    None (isBlockingLoading ls) (isRefreshing ls) (error ls)
    (isInitialLoad ls) (toScrape :: scraperCalls ls).

(** [error instanceof Error ? error.message : ...]: every exception of the
    feed service is an [Error]. *)
Definition messageOf (e : exn) : string :=
  match e with
  | Error message => message
  | RangeError message => message
  | URIError message => message
  end.

(** [Promise.all([primary, secondary])]: rejects as soon as one of the two
    rejects. *)
Definition promiseAll (primaryRejectsFirst : bool)
           (primary secondary : outcome (list Article.t))
  : outcome (list Article.t * list Article.t) :=
  match primary, secondary with
  | Returns p, Returns s => Returns (p, s)
  | Throws e, Returns _ => Throws e
  | Returns _, Throws e => Throws e
  | Throws e1, Throws e2 => Throws (if primaryRejectsFirst then e1 else e2)
  end.

(** [fetch('/news-cache.json')]: the promise rejects, or gives a response
    with its [ok] and what [response.json()] resolves to: an array of
    articles, or [None] when it rejects or resolves to something that is no
    array (the [TypeError] of [updateArticlesAndCache] is then caught like
    the rejection). *)
Inductive StaticCache : Type :=
| staticRejects
| staticResponse (ok : bool) (json : option (list Article.t)).

(** Where [loadNews] stands when it returns, throws or waits.  What it
    throws before its first [await] is the [TypeError] of
    [updateArticlesAndCache] on an argument that is no array; the promise of
    [loadNews] rejects with it. *)
Inductive AfterBegin : Type :=
| returned_early
| throws_type_error
| awaits_feeds (isCurrentlyBlocking : bool).

Inductive AfterFeeds : Type :=
| settled
| awaits_static (message : string).

(** How the promise of [loadNews] ends. *)
Inductive LoadEnd : Type := fulfilled | rejected.

(** [cachedData] after the [try] around [JSON.parse], as far as [loadNews]
    reads it; [None] is a falsy value ([null] to begin with). *)
Record CachedData : Type := mkCachedData {
  dataArticles : option (list Article.t);
  dataTimestamp : option Z
}.

Definition cachedDataOf (ls : LoadState) : option CachedData :=
  match foreign ls with
  | Some unparsable => None
  | Some parsedFalsy => None
  | Some (parsedValue articlesArray numericTimestamp) =>
      Some (mkCachedData articlesArray numericTimestamp)
  | None =>
      match cache (appState ls) with
      | Some c =>
          Some (mkCachedData (Some (cachedArticles c)) (Some (timestamp c)))
      | None => None
      end
  end.

(** [!cachedData || (Date.now() - cachedData.timestamp) > CACHE_DURATION]:
    a comparison with [NaN] is false. *)
Definition isCacheStale (nowCheck : Z) (cachedData : option CachedData)
  : bool :=
  match cachedData with
  | None => true
  | Some d =>
      match dataTimestamp d with
      | Some t => (CACHE_DURATION <? nowCheck - t)%Z
      | None => false
      end
  end.

(** The [finally] block. *)
Definition finallyOf (isCurrentlyBlocking : bool) (ls : LoadState)
  : LoadState :=
  let ls := setIsRefreshing false ls in
  if isCurrentlyBlocking then setIsBlockingLoading false ls else ls.

(** The statements between the look at the cache and the first [await]. *)
Definition startFetch (isManualRefresh stale isCurrentlyBlocking : bool)
           (ls : LoadState) : LoadState * AfterBegin :=
  if negb isManualRefresh && negb stale
  then (ls, returned_early)
  else ((if negb isCurrentlyBlocking then setIsRefreshing true ls else ls),
        awaits_feeds isCurrentlyBlocking).

Section Load.

Variable dateTime : string -> option Z.

(** [loadNews] up to its first [await]; [nowCheck] is the [Date.now()] of the
    staleness test. *)
Definition loadNewsBegin (isManualRefresh : bool) (nowCheck : Z)
           (t : CommitTime) (ls : LoadState) : LoadState * AfterBegin :=
  let ls := setError None ls in
  let cachedData := cachedDataOf ls in
  let ls :=
    match foreign ls with
    | Some unparsable => removeCache ls
    | _ => ls
    end in
  let stale := isCacheStale nowCheck cachedData in
  if isInitialLoad ls
  then
    let ls := setIsInitialLoad false ls in
    match cachedData with
    | Some d =>
        if negb stale
        then
          match dataArticles d with
          | Some cached =>
              startFetch isManualRefresh stale false
                (setIsBlockingLoading false
                   (commitAndScrape dateTime t cached cached ls))
          | None => (ls, throws_type_error)
          end
        else startFetch isManualRefresh stale true ls
    | None => startFetch isManualRefresh stale true ls
    end
  else startFetch isManualRefresh stale false ls.

(** From the moment [Promise.all] settles to the next [await] or to the end;
    [ls] is the state at that moment, with [articlesRef.current] the
    [articles] of it. *)
Definition loadNewsSettle (isCurrentlyBlocking : bool)
           (fetched : outcome (list Article.t * list Article.t))
           (t : CommitTime) (ls : LoadState) : LoadState * AfterFeeds :=
  match fetched with
  | Returns (primary, secondary) =>
      let newlyFetchedArticles := (primary ++ secondary)%list in
      let articlesToProcess :=
        if isCurrentlyBlocking then newlyFetchedArticles
        else (articles (appState ls) ++ newlyFetchedArticles)%list in
      (finallyOf isCurrentlyBlocking
         (commitAndScrape dateTime t articlesToProcess newlyFetchedArticles
            ls),
       settled)
  | Throws e =>
      let message := messageOf e in
      if isCurrentlyBlocking
      then (ls, awaits_static message)
      else
        (finallyOf isCurrentlyBlocking
           (if (List.length (articles (appState ls)) =? 0)%nat
            then setError (Some message) ls else ls),
         settled)
  end.

(** From the moment the static cache is answered to the end. *)
Definition loadNewsStatic (message : string) (static : StaticCache)
           (t : CommitTime) (ls : LoadState) : LoadState :=
  finallyOf true
    match static with
    | staticResponse true (Some fallbackArticles) =>
        commitAndScrape dateTime t fallbackArticles fallbackArticles ls
    | _ => setError (Some message) ls
    end.

(** What happens around one call of [loadNews]. *)
Record LoadInputs : Type := mkLoadInputs {
  nowCheck : Z;
  cacheCommit : CommitTime;
  primaryRejectsFirst : bool;
  primary : outcome (list Article.t);
  secondary : outcome (list Article.t);
  feedsCommit : CommitTime;
  static : StaticCache;
  staticCommit : CommitTime
}.

(** A call of [loadNews] during which nothing else writes the state: the
    state it leaves and how its promise ends. *)
Definition loadNews (isManualRefresh : bool) (i : LoadInputs)
           (ls : LoadState) : LoadState * LoadEnd :=
  let '(ls, next) :=
    loadNewsBegin isManualRefresh (nowCheck i) (cacheCommit i) ls in
  match next with
  | returned_early => (ls, fulfilled)
  | throws_type_error => (ls, rejected)
  | awaits_feeds isCurrentlyBlocking =>
      let '(ls, next) :=
        loadNewsSettle isCurrentlyBlocking
          (promiseAll (primaryRejectsFirst i) (primary i) (secondary i))
          (feedsCommit i) ls in
      match next with
      | settled => (ls, fulfilled)
      | awaits_static message =>
          (loadNewsStatic message (static i) (staticCommit i) ls, fulfilled)
      end
  end.

End Load.

(** The inputs of a call of [loadNews] on the platform: the two groups are
    fetched by [getPrimaryNewsArticles] and [getSecondaryNewsArticles]. *)
Definition liveInputs (parseHTML : string -> HTMLDocument)
           (parseXML : string -> node)
           (newURL : string -> option string -> option URL)
           (dateTime : string -> option Z) (toISOString : Z -> string)
           (fetch : string -> option Response)
           (isWellFormed : string -> bool)
           (nowCheck : Z) (cacheCommit feedsCommit staticCommit : CommitTime)
           (primaryRejectsFirst : bool) (static : StaticCache)
  : LoadInputs :=
  mkLoadInputs nowCheck cacheCommit primaryRejectsFirst
    (getPrimaryNewsArticles parseHTML parseXML newURL dateTime toISOString
       fetch isWellFormed)
    (getSecondaryNewsArticles parseHTML parseXML newURL dateTime toISOString
       fetch isWellFormed)
    feedsCommit static staticCommit.


Definition offlineInputs : LoadInputs :=
  mkLoadInputs 1000000 (mkCommitTime 1000001 1000002) true
    (Throws exhausted) (Throws (RangeError "Invalid time value"))
    (mkCommitTime 1000003 1000004) staticRejects
    (mkCommitTime 1000005 1000006).

(** A cache that is one millisecond older. *)
Definition staleCache : CachedNews :=
  mkCachedNews [firstFetchedArticle] 699999.

(** The state after the first statements of [loadNews]: the error is
    cleared and an entry that does not parse is removed. *)
Definition cleared (ls : LoadState) : LoadState :=
  match foreign ls with
  | Some unparsable => removeCache (setError None ls)
  | _ => setError None ls
  end.

(** The entry [{}]: valid JSON of another shape. *)
Definition emptyObjectEntry : ForeignEntry := parsedValue None None.

(* ================================================================== *)
(** * Properties *)

Set Warnings "-notation-for-abbreviation".

(* ------------------------------------------------------------------ *)
(** ** Source names *)

Example cleanSourceName_polygon_title :
  cleanSourceName "Polygon -  All" "https://example.org/rss" = "All".
Proof. reflexivity. Qed.

Example cleanSourceName_heuristic :
  cleanSourceName "GameSpot - All Content" "https://example.org/x"
  = "Gamespot".
Proof. reflexivity. Qed.

Example cleanSourceName_table :
  cleanSourceName "whatever" "https://www.pcgameshardware.de/feed.cfm"
  = "PC Games Hardware".
Proof. reflexivity. Qed.

Lemma eqb_empty_false (s : string) : s <> "" -> (s =? "") = false.
Proof. intro H. now apply String.eqb_neq. Qed.

(** The names of the configured feeds, whatever their titles. *)
Example configured_feed_names :
  map (fun feed => cleanSourceName "x" (fst feed))
    (PRIMARY_FEEDS ++ SECONDARY_FEEDS)%list
  = [ "GameStar"; "GamePro"; "Mein-MMO"; "PC Games"; "IGN"; "4P";
      "GameSpot"; "Game Informer"; "Polygon"; "Kotaku"; "PC Gamer";
      "Gematsu";
      "Play3"; "Buffed"; "Xbox Dynasty"; "PlayStation Info";
      "Video Games Zone"; "Computer Bild"; "GamesWirtschaft"; "GameZone";
      "PlayFront"; "GamersGlobal"; "Eurogamer"; "PC Games Hardware";
      "PixelCritics"; "GamesWelt"; "JPGames"; "GamesRadar+";
      "Rock Paper Shotgun"; "Destructoid"; "Golem"; "GIGA Games";
      "Heise Online" ].
Proof. vm_compute. reflexivity. Qed.

(** The table is read in its order: a URL that also holds an earlier key
    takes the name of that key. *)
Example cleanSourceName_earlier_key :
  cleanSourceName "GameStar" "https://play3.de/?from=gamestar.de" = "Play3".
Proof. reflexivity. Qed.

(** C2 as stated fails: the guard on an empty title comes before the
    look-up of the URL, so the empty title with a GameStar URL gives
    "Unknown Source"; and a URL that holds "gamestar.de" behind the earlier
    key "play3.de" gives "Play3". *)
Lemma cleanSourceName_empty_title_gamestar :
  JS.includes "https://www.gamestar.de/rss/gamestar.rss" "gamestar.de" = true
  /\ cleanSourceName "" "https://www.gamestar.de/rss/gamestar.rss"
     = "Unknown Source"
  /\ cleanSourceName "" "https://www.gamestar.de/rss/gamestar.rss"
     <> "GameStar"
  /\ JS.includes "https://play3.de/?from=gamestar.de" "gamestar.de" = true
  /\ cleanSourceName "GameStar" "https://play3.de/?from=gamestar.de"
     = "Play3".
Proof.
  repeat split; try reflexivity.
  vm_compute. discriminate.
Qed.

(** C2 (amended): [cleanSourceName] takes no service of the platform and no
    state, it is a function of its two arguments; an empty title yields
    "Unknown Source" whatever the URL; and for every non-empty title and
    every feed URL that contains "gamestar.de" and not the earlier key
    "play3.de" it returns exactly "GameStar", whatever the title. *)
Theorem cleanSourceName_gamestar :
  (forall name1 url1 name2 url2,
      name1 = name2 -> url1 = url2 ->
      cleanSourceName name1 url1 = cleanSourceName name2 url2)
  /\ (forall feedUrl, cleanSourceName "" feedUrl = "Unknown Source")
  /\ (forall name feedUrl,
         name <> "" ->
         JS.includes feedUrl "gamestar.de" = true ->
         JS.includes feedUrl "play3.de" = false ->
         cleanSourceName name feedUrl = "GameStar").
Proof.
  split; [|split].
  - intros ? ? ? ? -> ->. reflexivity.
  - intro feedUrl. reflexivity.
  - intros name feedUrl Hname Hstar Hplay.
    unfold cleanSourceName.
    rewrite (eqb_empty_false Hname).
    unfold URL_TO_NAME_MAP, find, fst.
    rewrite Hplay, Hstar. reflexivity.
Qed.

Lemma cleanSourceName_gamestar_witness :
  cleanSourceName "" "https://www.gamestar.de/rss/gamestar.rss"
  = "Unknown Source"
  /\ cleanSourceName "GameStar - News"
       "https://www.gamestar.de/rss/gamestar.rss"
     = "GameStar".
Proof.
  split.
  - apply (proj1 (proj2 cleanSourceName_gamestar)).
  - apply (proj2 (proj2 cleanSourceName_gamestar)).
    + discriminate.
    + reflexivity.
    + reflexivity.
Defined.

(* ------------------------------------------------------------------ *)
(** ** The image scan *)

Lemma orElse_nonempty (a b : string) : a <> "" -> JS.orElse a b = a.
Proof. intro H. unfold JS.orElse. now rewrite (eqb_empty_false H). Qed.

Lemma orElse_empty (b : string) : JS.orElse "" b = b.
Proof. reflexivity. Qed.

Lemma parseInt_zero : JS.parseInt "0" = Some 0%Z.
Proof. reflexivity. Qed.

(** The test on one dimension, as [isContentImage] computes it from the
    attribute. *)
Lemma dimension_test (o : option string) :
  (match JS.parseInt (match o with
                      | Some w => JS.orElse w "0"
                      | None => "0"
                      end) with
   | Some v => (v <=? 1)%Z
   | None => false
   end) = false
  <-> exists w, o = Some w /\ w <> "" /\ overOnePixel (JS.parseInt w).
Proof.
  destruct o as [w|].
  - destruct (String.eqb_spec w "") as [->|Hne].
    + rewrite orElse_empty, parseInt_zero. split.
      * discriminate.
      * intros (w & Hw & Hne & _). injection Hw as <-. now elim Hne.
    + rewrite (orElse_nonempty _ Hne).
      destruct (JS.parseInt w) as [v|] eqn:Hp; simpl.
      * split.
        -- intro H. exists w. rewrite Hp. simpl.
           apply Z.leb_gt in H. auto.
        -- intros (w' & Hw & _ & Hv). injection Hw as <-.
           rewrite Hp in Hv. simpl in Hv. now apply Z.leb_gt.
      * split; [|reflexivity]. intros _. exists w. rewrite Hp. simpl. auto.
  - rewrite parseInt_zero. split.
    + discriminate.
    + intros (w & Hw & _). discriminate.
Qed.

(** C1 as stated fails: an image with a source outside the tracker domain
    and no declared width or height is rejected by the scan (the missing
    dimensions count as 0), and an item whose content holds only this image
    gets no candidate. *)
Lemma undeclared_dimensions_rejected :
  let img := elem "img" [("src", "https://cdn.example.com/cover.jpg")] [] in
  let parse := fun _ : string => mkHTMLDocument [] [] [elem "p" [] [img]] in
  let item :=
    Item.mk "Title" "https://example.com/a" "Mon, 27 Oct 2025 10:00:00 GMT"
      "g1" "" "<p><img src='https://cdn.example.com/cover.jpg'></p>"
      None None None None in
  getAttribute img "width" = None
  /\ getAttribute img "height" = None
  /\ isContentImage img = false
  /\ imageCandidate parse item = None.
Proof. repeat split. Qed.

(** C1 (amended): the scan accepts an image exactly when it has a non-empty
    [src] outside the tracker domain and BOTH a declared, non-empty width
    and a declared, non-empty height, neither of which parses to a number
    [<= 1]; an image whose width or height is not declared is rejected. *)
Theorem isContentImage_declared_dimensions (img : node) :
  isContentImage img = true
  <-> exists src w h,
      getAttribute img "src" = Some src
      /\ src <> ""
      /\ JS.includes src "cpx.golem.de" = false
      /\ getAttribute img "width" = Some w /\ w <> ""
      /\ overOnePixel (JS.parseInt w)
      /\ getAttribute img "height" = Some h /\ h <> ""
      /\ overOnePixel (JS.parseInt h).
Proof.
  unfold isContentImage.
  pose proof (dimension_test (getAttribute img "width")) as Hw.
  pose proof (dimension_test (getAttribute img "height")) as Hh.
  destruct (getAttribute img "src") as [src|].
  2:{ split; [discriminate|]. intros (s & w & h & Hs & _). discriminate. }
  destruct (String.eqb_spec src "") as [->|Hsrc]; simpl.
  { split; [discriminate|].
    intros (s & w & h & Hs & Hne & _). injection Hs as <-. now elim Hne. }
  destruct (JS.includes src "cpx.golem.de") eqn:Htr.
  { split; [discriminate|].
    intros (s & w & h & Hs & _ & Hin & _). injection Hs as <-. congruence. }
  set (tw := match JS.parseInt _ with Some v => (v <=? 1)%Z | None => false end)
    in *.
  set (th := match JS.parseInt (match getAttribute img "height" with
                                | Some h => _ | None => _ end)
             with Some v => (v <=? 1)%Z | None => false end) in *.
  split.
  - intro H. destruct tw; [discriminate|]. destruct th; [discriminate|].
    destruct (proj1 Hw eq_refl) as (w & Ew & Nw & Pw).
    destruct (proj1 Hh eq_refl) as (h & Eh & Nh & Ph).
    exists src, w, h. repeat split; auto.
  - intros (s & w & h & Hs & _ & _ & Ew & Nw & Pw & Eh & Nh & Ph).
    assert (tw = false) as -> by (apply Hw; eauto).
    assert (th = false) as -> by (apply Hh; eauto).
    reflexivity.
Qed.

(** An image with declared dimensions is accepted, and its lazy-load
    attribute is preferred. *)
Example declared_dimensions_accepted :
  let img := elem "img" [("src", "small.jpg"); ("data-src", "large.jpg");
                         ("width", "600"); ("height", "400")] [] in
  isContentImage img = true /\ lazySrc img = Some "large.jpg".
Proof. split; reflexivity. Qed.

(** A width that is not a number makes no comparison true. *)
Example unparsable_dimension_accepted :
  isContentImage
    (elem "img" [("src", "a.jpg"); ("width", "auto"); ("height", "auto")] [])
  = true.
Proof. reflexivity. Qed.

(* ------------------------------------------------------------------ *)
(** ** Strings: prefixes and replacement *)

Lemma startsWith_take (p y : string) (k : nat) :
  JS.startsWith y p = true -> (String.length p <= k)%nat ->
  JS.startsWith (JS.take k y) p = true.
Proof.
  revert y k. induction p as [|b p IH]; intros y k H Hk.
  - reflexivity.
  - destruct y as [|a y]; [discriminate|].
    destruct k as [|k]; [simpl in Hk; lia|].
    simpl in *. apply andb_true_iff in H as [Hab Hp].
    rewrite Hab. simpl. apply IH; [assumption|lia].
Qed.

(** Whether [p] is a prefix is decided by the first [length p] characters. *)
Lemma startsWith_app_take (p x y : string) (k : nat) :
  JS.startsWith (x ++ y) p = true ->
  (String.length p <= String.length x + k)%nat ->
  JS.startsWith (x ++ JS.take k y) p = true.
Proof.
  revert x. induction p as [|b p IH]; intros x H Hk.
  - reflexivity.
  - destruct x as [|a x].
    + cbn [append String.length Nat.add] in *. now apply startsWith_take.
    + simpl in *. apply andb_true_iff in H as [Hab Hp].
      rewrite Hab. simpl. apply IH; [assumption|lia].
Qed.

Lemma span_notSlash (seg t : string) :
  JS.includes seg "/" = false ->
  span notSlash (seg ++ String "/" t) = String.length seg.
Proof.
  induction seg as [|c seg IH]; intro H.
  - reflexivity.
  - simpl in H. apply orb_false_iff in H as [Hc Hs].
    rewrite andb_true_r in Hc.
    simpl. unfold notSlash at 1. rewrite Hc. simpl. f_equal. now apply IH.
Qed.

Lemma drop_app (s t : string) : JS.drop (String.length s) (s ++ t) = t.
Proof. induction s as [|c s IH]; [now destruct t|exact IH]. Qed.

Lemma drop_empty (n : nat) : JS.drop n "" = "".
Proof. now destruct n. Qed.

Lemma drop_drop (a b : nat) (s : string) :
  JS.drop (a + b) s = JS.drop b (JS.drop a s).
Proof.
  revert s. induction a as [|a IH]; intro s.
  - reflexivity.
  - destruct s as [|c s]; simpl.
    + now rewrite drop_empty.
    + apply IH.
Qed.

Lemma matchUploads_here (seg post : string) :
  seg <> "" -> JS.includes seg "/" = false ->
  matchUploads ("/uploads/" ++ seg ++ String "/" post)
  = Some (9 + String.length seg + 1).
Proof.
  intros Hne Hseg. unfold matchUploads.
  change (JS.startsWith ("/uploads/" ++ seg ++ String "/" post) "/uploads/")
    with true.
  change (JS.drop 9 ("/uploads/" ++ seg ++ String "/" post))
    with (seg ++ String "/" post).
  cbv zeta. rewrite (@span_notSlash seg post Hseg), drop_app.
  destruct seg as [|c seg]; [now elim Hne|]. reflexivity.
Qed.

(** The replacement of the GameSpot rule, when the first "/uploads/" of the
    URL is followed by a non-empty segment and a slash. *)
Lemma replace_uploads_segment (pre seg post : string) :
  JS.includes (pre ++ "/uploads") "/uploads/" = false ->
  seg <> "" -> JS.includes seg "/" = false ->
  replaceFirst matchUploads "/uploads/original/"
    (pre ++ "/uploads/" ++ seg ++ String "/" post)
  = pre ++ "/uploads/original/" ++ post.
Proof.
  intros Hpre Hne Hseg. induction pre as [|c pre IH].
  - cbn [append].
    assert (E := @matchUploads_here seg post Hne Hseg). cbn [append] in E.
    cbn [replaceFirst]. rewrite E.
    rewrite !drop_drop. cbn [JS.drop]. now rewrite drop_app.
  - cbn [append] in *. simpl in Hpre.
    apply orb_false_iff in Hpre as [Hhead Htail].
    assert (Hm : matchUploads
                   (String c (pre ++ "/uploads/" ++ seg ++ String "/" post))
                 = None).
    { unfold matchUploads.
      destruct (JS.startsWith
                  (String c (pre ++ "/uploads/" ++ seg ++ String "/" post))
                  "/uploads/") eqn:Hs; [|reflexivity].
      exfalso.
      pose proof (@startsWith_app_take "/uploads/" (String c pre)
                    ("/uploads/" ++ seg ++ String "/" post) 8 Hs) as Hk.
      cbn [append JS.take] in Hk.
      assert (Hlen : (String.length "/uploads/"
                      <= String.length (String c pre) + 8)%nat)
        by (simpl; lia).
      specialize (Hk Hlen). simpl in Hk. simpl in Hhead. congruence. }
    cbn [append] in Hm.
    cbn [replaceFirst]. rewrite Hm. f_equal. now apply IH.
Qed.

(* ------------------------------------------------------------------ *)
(** ** The image resolver *)

Section ImageResolver.

Variable parseHTML : string -> HTMLDocument.
Variable newURL : string -> option string -> option URL.
Variable isWellFormed : string -> bool.

Lemma firstTruthy_truthy (l : list (option string)) (c : string) :
  firstTruthy l = Some c -> JS.truthy (Some c) = true.
Proof.
  unfold firstTruthy. destruct (find JS.truthy l) as [o|] eqn:Hf.
  - intros ->. now apply find_some in Hf.
  - discriminate.
Qed.

(** A candidate is never the empty string. *)
Lemma imageCandidate_truthy (item : Item.t) (c : string) :
  imageCandidate parseHTML item = Some c -> JS.truthy (Some c) = true.
Proof.
  unfold imageCandidate. intro H.
  match type of H with
  | (if ?b then _ else _) = _ => destruct b eqn:H1
  end.
  { apply andb_true_iff in H1 as [H1 _]. now rewrite H in H1. }
  destruct (JS.truthy (Item.thumbnail item)) eqn:Ht.
  { now rewrite H in Ht. }
  destruct (JS.truthy (Item.mediaThumbnailUrl item)) eqn:Hm.
  { now rewrite H in Hm. }
  destruct (JS.orElse _ _ =? ""); [discriminate|].
  destruct (find _ _); [|discriminate].
  now apply firstTruthy_truthy in H.
Qed.

Lemma placeholderData_cases (sourceName : string) (flag : bool) :
  placeholderData isWellFormed sourceName flag
  = if isWellFormed (JS.substring sourceName 0 30)
    then Returns
           (mkInitialData
              ("https://placehold.co/600x400/374151/d1d5db?text="
               ++ JS.encodeURIComponent (JS.substring sourceName 0 30))
              flag)
    else Throws (URIError "URI malformed").
Proof.
  unfold placeholderData, placeholderUrl, encodeURIComponentOf.
  destruct (isWellFormed (JS.substring sourceName 0 30)); reflexivity.
Qed.


(** C9: when the host name of the resolved image URL contains
    "gamespot.com", the URL returned is the resolved one with the first
    match of "/uploads/<segment>/" replaced by "/uploads/original/" (and
    then the size suffix rule of GamesWirtschaft, which depends on the
    source name only); the URL of the scenario becomes the one with
    "original". *)
Theorem gamespot_original (item : Item.t) (sourceName candidate : string)
        (resolved urlObject : URL) :
  imageCandidate parseHTML item = Some candidate ->
  newURL candidate (Some (Item.link item)) = Some resolved ->
  newURL (href resolved) None = Some urlObject ->
  JS.includes (hostname urlObject) "gamespot.com" = true ->
  extractInitialData parseHTML newURL isWellFormed item sourceName
  = Returns
      (mkInitialData
         (stripSizeSuffix sourceName
            (replaceFirst matchUploads "/uploads/original/" (href resolved)))
         false)
  /\ (forall pre seg post,
         href resolved = pre ++ "/uploads/" ++ seg ++ String "/" post ->
         JS.includes (pre ++ "/uploads") "/uploads/" = false ->
         seg <> "" -> JS.includes seg "/" = false ->
         replaceFirst matchUploads "/uploads/original/" (href resolved)
         = pre ++ "/uploads/original/" ++ post)
  /\ (href resolved
      = "https://www.gamespot.com/a/uploads/square_small/123/image.jpg" ->
      extractInitialData parseHTML newURL isWellFormed item sourceName
      = Returns
          (mkInitialData
             "https://www.gamespot.com/a/uploads/original/123/image.jpg"
             false)).
Proof.
  intros Hc Hr Hu Hhost.
  assert (E : extractInitialData parseHTML newURL isWellFormed item
                sourceName
              = Returns
                  (mkInitialData
                     (stripSizeSuffix sourceName
                        (replaceFirst matchUploads "/uploads/original/"
                           (href resolved)))
                     false)).
  { unfold extractInitialData. rewrite Hc.
    rewrite (imageCandidate_truthy _ Hc), Hr, Hu.
    unfold rewriteForHost. now rewrite Hhost. }
  split; [exact E|]. split.
  - intros pre seg post -> Hpre Hne Hseg.
    now apply replace_uploads_segment.
  - intros Hhref. rewrite E, Hhref.
    unfold stripSizeSuffix.
    destruct (JS.includes sourceName "GamesWirtschaft"); reflexivity.
Qed.

End ImageResolver.

(** The title with the game pad is the source name of its feed on a host
    that is not in the table, and its first 30 code units end in the high
    surrogate alone. *)
Example gamePad_source_name :
  cleanSourceName gamePadTitle "https://retro.example/feed" = gamePadTitle
  /\ String.length gamePadTitle = 36%nat
  /\ JS.substring gamePadTitle 0 30
     = "Retro Gaming Magazine Berlin " ++ String (ascii_of_nat 216) ""
  /\ pairedSurrogates gamePadTitle = true
  /\ pairedSurrogates (JS.substring gamePadTitle 0 30) = false.
Proof. vm_compute. repeat split. Qed.


(** The scenario on the source "Play3", evaluated. *)
Example tracking_pixel_play3 :
  extractInitialData trackingPixelDocument absoluteHttpsURL pairedSurrogates
    trackingPixelItem "Play3"
  = Returns
      (mkInitialData "https://placehold.co/600x400/374151/d1d5db?text=Play3"
         true).
Proof. reflexivity. Qed.

(** The same item from a source that is not on the list keeps the
    placeholder for good; the source name is encoded and cut at 30
    characters. *)
Example tracking_pixel_other_source :
  extractInitialData trackingPixelDocument absoluteHttpsURL pairedSurrogates
    trackingPixelItem "Rock Paper Shotgun & Friends of the Show"
  = Returns
      (mkInitialData
         "https://placehold.co/600x400/374151/d1d5db?text=Rock%20Paper%20Shotgun%20%26%20Friends%20o"
         false).
Proof. reflexivity. Qed.

(** The scenario of C9, with the image in the enclosure. *)
Lemma gamespot_original_witness :
  extractInitialData plainTextDocument absoluteHttpsURL pairedSurrogates
    gamespotItem "GameSpot"
  = Returns
      (mkInitialData
         "https://www.gamespot.com/a/uploads/original/123/image.jpg" false).
Proof.
  refine (proj2 (proj2
    (@gamespot_original plainTextDocument absoluteHttpsURL pairedSurrogates
       gamespotItem "GameSpot"
       "https://www.gamespot.com/a/uploads/square_small/123/image.jpg"
       (mkURL "https://www.gamespot.com/a/uploads/square_small/123/image.jpg"
              "www.gamespot.com")
       (mkURL "https://www.gamespot.com/a/uploads/square_small/123/image.jpg"
              "www.gamespot.com")
       _ _ _ _)) _); reflexivity.
Defined.

(** The other rewrites, on the same parser of URLs. *)
Example gamestar_resize :
  extractInitialData plainTextDocument absoluteHttpsURL pairedSurrogates
    (Item.mk "T" "https://www.gamestar.de/a" "d" "g" "" ""
       (Some "https://images.cgames.de/images/gsgp/4/cover_123.jpg")
       None None None)
    "GameStar"
  = Returns
      (mkInitialData "https://images.cgames.de/images/gsgp/4/cover_123.jpg"
         false)
  /\ extractInitialData plainTextDocument absoluteHttpsURL pairedSurrogates
       (Item.mk "T" "https://www.gamestar.de/a" "d" "g" "" ""
          (Some "https://images.cgames.de/images/gsgp/290/cover.jpg")
          None None None)
       "GameStar"
     = Returns
         (mkInitialData "https://images.cgames.de/images/gsgp/800/cover.jpg"
            false).
Proof. split; reflexivity. Qed.

Example gameswirtschaft_suffix :
  extractInitialData plainTextDocument absoluteHttpsURL pairedSurrogates
    (Item.mk "T" "https://www.gameswirtschaft.de/a" "d" "g" "" ""
       (Some "https://www.gameswirtschaft.de/wp/Logo-300x200.JPG")
       None None None)
    "GamesWirtschaft"
  = Returns
      (mkInitialData "https://www.gameswirtschaft.de/wp/Logo.JPG" false).
Proof. reflexivity. Qed.

(** A thumbnail in the media namespace is found through [thumbnail[url]]
    and comes before the images of the content. *)
Example media_thumbnail_first :
  let entry :=
    Element None "item" []
      [ leaf "title" "T"; leaf "link" "https://kotaku.com/t";
        leaf "pubDate" "Mon, 27 Oct 2025 10:00:00 GMT";
        Element (Some "media") "thumbnail"
          [("url", "https://cdn.kotaku.com/t.jpg")] [];
        leaf "description" "text" ] in
  option_map
    (fun i => (Item.mediaThumbnailUrl i,
               extractInitialData plainTextDocument absoluteHttpsURL
                 pairedSurrogates i "Kotaku"))
    (itemOfNode false entry)
  = Some (Some "https://cdn.kotaku.com/t.jpg",
          Returns (mkInitialData "https://cdn.kotaku.com/t.jpg" false)).
Proof. vm_compute. reflexivity. Qed.

(* ------------------------------------------------------------------ *)
(** ** The summarizer *)

Lemma length_app (a b : string) :
  String.length (a ++ b) = (String.length a + String.length b)%nat.
Proof. induction a as [|c a IH]; simpl; [reflexivity|now rewrite IH]. Qed.

Lemma length_take (n : nat) (s : string) :
  (String.length (JS.take n s) <= n)%nat.
Proof.
  revert s. induction n as [|n IH]; intros [|c s]; simpl; try lia.
  specialize (IH s). lia.
Qed.

Lemma substring_from_start (s : string) (n : nat) :
  JS.substring s 0 n = JS.take n s.
Proof. unfold JS.substring. simpl. now rewrite Nat.sub_0_r. Qed.

Lemma take_take (k n : nat) (s : string) :
  (k <= n)%nat -> JS.take k (JS.take n s) = JS.take k s.
Proof.
  revert n s. induction k as [|k IH]; intros n s Hk.
  - now destruct n, s.
  - destruct n as [|n]; [lia|]. destruct s as [|c s]; [reflexivity|].
    simpl. f_equal. apply IH. lia.
Qed.

Lemma get_take (j n : nat) (s : string) :
  (j < n)%nat -> String.get j (JS.take n s) = String.get j s.
Proof.
  revert n s. induction j as [|j IH]; intros n s Hj.
  - destruct n as [|n]; [lia|]. now destruct s.
  - destruct n as [|n]; [lia|]. destruct s as [|c s]; [reflexivity|].
    simpl. apply IH. lia.
Qed.

Lemma get_beyond (j : nat) (s : string) :
  (String.length s <= j)%nat -> String.get j s = None.
Proof.
  revert j. induction s as [|c s IH]; intros j Hj.
  - now destruct j.
  - destruct j as [|j]; simpl in *; [lia|]. apply IH. lia.
Qed.

(** [lastIndexOf] gives the last position of the character, or [-1]. *)
Lemma lastIndexOf_spec (s : string) (c : ascii) :
  (-1 <= JS.lastIndexOf s c < Z.of_nat (String.length s))%Z
  /\ (forall j, (JS.lastIndexOf s c < Z.of_nat j)%Z ->
                String.get j s <> Some c)
  /\ ((0 <= JS.lastIndexOf s c)%Z ->
      String.get (Z.to_nat (JS.lastIndexOf s c)) s = Some c).
Proof.
  induction s as [|a s (Hrange & Hafter & Hat)].
  - simpl. repeat split; try lia.
    + intros j _. now destruct j.
  - cbn [JS.lastIndexOf]. cbv zeta.
    destruct (0 <=? JS.lastIndexOf s c)%Z eqn:Hr.
    + apply Z.leb_le in Hr. repeat split.
      * lia.
      * cbn [String.length]. lia.
      * intros [|j] Hj; [lia|]. simpl. apply Hafter. lia.
      * intros _.
        replace (Z.to_nat (JS.lastIndexOf s c + 1))
          with (S (Z.to_nat (JS.lastIndexOf s c))) by lia.
        simpl. now apply Hat.
    + apply Z.leb_gt in Hr.
      destruct (Ascii.eqb_spec a c) as [->|Hne].
      * repeat split; try (cbn [String.length]; lia).
        intros [|j] Hj; [lia|]. simpl. apply Hafter. lia.
      * repeat split; try (cbn [String.length]; lia).
        intros [|j] Hj; simpl.
        -- congruence.
        -- apply Hafter. lia.
Qed.

Section Summarizer.

Variable parseHTML : string -> HTMLDocument.

(** The clean-up keeps the [body] element: [doc.body] is never [null]. *)
Lemma body_present (html : string) :
  exists b, bodyOf (cleanedDocument parseHTML html) = Some b.
Proof.
  unfold cleanedDocument, documentElement, bodyElement, elem.
  cbn. eexists. reflexivity.
Qed.

(** C4 (amended): [stripHtmlAndTruncate html 150] never exceeds 153
    characters; it is empty, or the trimmed text of the cleaned body, or a
    prefix of at most 150 characters of that text followed by "...".  When
    the text is longer than 150 characters the cut is at the last SPACE
    character (U+0020) among the first 150 characters, provided there is one
    behind position 0, and otherwise after exactly 150 characters. *)
Theorem summary_bound_and_cut (html : string) :
  let r := stripHtmlAndTruncate parseHTML html 150 in
  let text := JS.trim (bodyText parseHTML html) in
  (String.length r <= 153)%nat
  /\ (r = "" \/ r = text
      \/ exists n, (n <= 150)%nat /\ r = JS.take n text ++ "...")
  /\ (html <> "" -> text <> "..." -> (150 < String.length text)%nat ->
      forall k, JS.lastIndexOf (JS.take 150 text) " " = k ->
      ((0 < k)%Z ->
       r = JS.take (Z.to_nat k) text ++ "..."
       /\ (k < 150)%Z
       /\ String.get (Z.to_nat k) text = Some " "%char
       /\ forall j, (Z.to_nat k < j < 150)%nat ->
                    String.get j text <> Some " "%char)
      /\ ((k <= 0)%Z -> r = JS.take 150 text ++ "...")).
Proof.
  cbv zeta. unfold stripHtmlAndTruncate.
  set (text := JS.trim (bodyText parseHTML html)).
  rewrite !substring_from_start.
  pose proof (lastIndexOf_spec (JS.take 150 text) " ") as (Hrange & Hafter & Hat).
  pose proof (length_take 150 text) as Hlen.
  set (k := JS.lastIndexOf (JS.take 150 text) " ") in *.
  assert (Hcut : (0 < k)%Z ->
                 JS.take (Z.to_nat k) (JS.take 150 text)
                 = JS.take (Z.to_nat k) text).
  { intro Hk. apply take_take. lia. }
  split; [|split].
  - destruct (html =? ""); [simpl; lia|].
    destruct (text =? "..."); [simpl; lia|].
    destruct (150 <? String.length text)%nat eqn:Hlong.
    + rewrite length_app. cbn [String.length].
      destruct (0 <? k)%Z.
      * pose proof (length_take (Z.to_nat k) (JS.take 150 text)). lia.
      * lia.
    + apply Nat.ltb_ge in Hlong. lia.
  - destruct (html =? ""); [now left|].
    destruct (text =? "..."); [now left|].
    destruct (150 <? String.length text)%nat; [|now right; left].
    right; right. destruct (0 <? k)%Z eqn:Hk.
    + apply Z.ltb_lt in Hk. exists (Z.to_nat k). rewrite (Hcut Hk).
      split; [lia|reflexivity].
    + exists 150%nat. split; [lia|reflexivity].
  - intros Hhtml Htext Hlong k' <-.
    rewrite (eqb_empty_false Hhtml).
    apply String.eqb_neq in Htext. rewrite Htext.
    apply Nat.ltb_lt in Hlong. rewrite Hlong. split.
    + intro Hk. rewrite (proj2 (Z.ltb_lt 0 k) Hk), (Hcut Hk).
      repeat split.
      * lia.
      * rewrite <- (@get_take (Z.to_nat k) 150 text) by lia.
        apply Hat. lia.
      * intros j Hj. rewrite <- (@get_take j 150 text) by lia.
        apply Hafter. lia.
    + intro Hk. now rewrite (proj2 (Z.ltb_ge 0 k) Hk).
Qed.

End Summarizer.

(** C4 as stated fails twice.  The text of "5 > 3" is returned with its
    ">".  And a text of ten-letter words separated by line feeds has white
    space before position 150 and no space character, so it is cut after
    150 characters, between the "g" and the "h" of a word. *)
Lemma summary_keeps_angle_and_cuts_word :
  stripHtmlAndTruncate plainTextDocument "5 > 3" 150 = "5 > 3"
  /\ JS.includes (stripHtmlAndTruncate plainTextDocument "5 > 3" 150) ">"
     = true
  /\ String.get 10 wordsOnLines = Some lineFeed
  /\ JS.isWhiteSpace lineFeed = true
  /\ stripHtmlAndTruncate plainTextDocument wordsOnLines 150
     = JS.take 150 wordsOnLines ++ "..."
  /\ String.get 149 wordsOnLines = Some "g"%char
  /\ String.get 150 wordsOnLines = Some "h"%char.
Proof. repeat split; vm_compute; reflexivity. Qed.

(** A text with spaces is cut at the last space among the first 150
    characters. *)
Example summary_cut_at_space :
  stripHtmlAndTruncate plainTextDocument
    (repeatString 15 "abcdefghij ") 150
  = JS.take 142 (repeatString 15 "abcdefghij ") ++ "...".
Proof. vm_compute. reflexivity. Qed.

(** Scripts, styles and read-more paragraphs do not reach the summary. *)
Example summary_boilerplate :
  stripHtmlAndTruncate
    (fun _ =>
       mkHTMLDocument [] []
         [ elem "p" [] [Text "Hello "; elem "b" [] [Text "world"]];
           elem "script" [] [Text "alert(1)"];
           elem "p" [] [Text "More: ";
                        elem "a" [("href", "/x")] [Text "Read more"]] ])
    "<p>Hello <b>world</b></p>..." 150
  = "Hello world".
Proof. vm_compute. reflexivity. Qed.

(* ------------------------------------------------------------------ *)
(** ** Insertion-ordered maps *)

Section MapFacts.

Variable V : Type.
Implicit Types (m : list (string * V)) (k : string) (v : V).

Lemma mapGet_None m k : mapGet k m = None <-> ~ In k (mapKeys m).
Proof.
  induction m as [|[k' v'] m IH]; simpl.
  - tauto.
  - destruct (String.eqb_spec k' k) as [->|Hne].
    + split; [discriminate|]. intros H. elim H. now left.
    + rewrite IH. tauto.
Qed.

Lemma mapGet_mapSet m k v k' :
  mapGet k' (mapSet k v m) = if k =? k' then Some v else mapGet k' m.
Proof.
  induction m as [|[k1 v1] m IH]; simpl.
  - reflexivity.
  - destruct (String.eqb_spec k1 k) as [->|Hne]; simpl.
    + now destruct (k =? k').
    + rewrite IH. destruct (String.eqb_spec k k') as [->|Hne'].
      * now rewrite (proj2 (String.eqb_neq k1 k') Hne).
      * reflexivity.
Qed.

Lemma mapKeys_mapSet_old m k v :
  In k (mapKeys m) -> mapKeys (mapSet k v m) = mapKeys m.
Proof.
  induction m as [|[k1 v1] m IH]; simpl.
  - tauto.
  - intros H. destruct (String.eqb_spec k1 k) as [->|Hne]; simpl.
    + reflexivity.
    + f_equal. apply IH. destruct H; [contradiction|assumption].
Qed.

Lemma mapKeys_mapSet_new m k v :
  ~ In k (mapKeys m) -> mapKeys (mapSet k v m) = (mapKeys m ++ [k])%list.
Proof.
  induction m as [|[k1 v1] m IH]; simpl.
  - reflexivity.
  - intros H. destruct (String.eqb_spec k1 k) as [->|Hne]; simpl.
    + elim H. now left.
    + f_equal. apply IH. tauto.
Qed.

Lemma mapKeys_mapSet_In m k v k' :
  In k' (mapKeys (mapSet k v m)) <-> k' = k \/ In k' (mapKeys m).
Proof.
  destruct (in_dec string_dec k (mapKeys m)) as [Hin|Hout].
  - rewrite (@mapKeys_mapSet_old m k v Hin). intuition (subst; auto).
  - rewrite (@mapKeys_mapSet_new m k v Hout), in_app_iff. simpl.
    intuition (subst; auto).
Qed.

Lemma mapSet_NoDup m k v :
  NoDup (mapKeys m) -> NoDup (mapKeys (mapSet k v m)).
Proof.
  intro Hnd. destruct (in_dec string_dec k (mapKeys m)) as [Hin|Hout].
  - now rewrite (@mapKeys_mapSet_old m k v Hin).
  - rewrite (@mapKeys_mapSet_new m k v Hout).
    apply NoDup_app; [assumption|repeat constructor; simpl; tauto|].
    intros x Hx [<-|[]]. contradiction.
Qed.

(** A map is its keys in order and its look-up function. *)
Lemma map_ext m1 m2 :
  NoDup (mapKeys m1) -> mapKeys m1 = mapKeys m2 ->
  (forall k, mapGet k m1 = mapGet k m2) -> m1 = m2.
Proof.
  revert m2. induction m1 as [|[k v] m1 IH]; intros [|[k2 v2] m2] Hnd Hk Hg;
    try discriminate; [reflexivity|].
  simpl in Hk. injection Hk as <- Hk.
  inversion Hnd as [|? ? Hout Hnd']; subst.
  pose proof (Hg k) as Hv. simpl in Hv. rewrite String.eqb_refl in Hv.
  injection Hv as <-. f_equal. apply IH; auto.
  intros k'. specialize (Hg k'). simpl in Hg.
  destruct (String.eqb_spec k k') as [E|Hne]; [subst k'|assumption].
  transitivity (@None V).
  - now apply mapGet_None.
  - symmetry. apply mapGet_None. now rewrite <- Hk.
Qed.

Lemma mapGet_In m k v :
  NoDup (mapKeys m) -> In (k, v) m -> mapGet k m = Some v.
Proof.
  induction m as [|[k1 v1] m IH]; simpl; [tauto|].
  intros Hnd [E|Hin].
  - injection E as -> ->. now rewrite String.eqb_refl.
  - inversion Hnd as [|? ? Hout Hnd']; subst.
    destruct (String.eqb_spec k1 k) as [->|Hne].
    + elim Hout. change k with (fst (k, v)). now apply in_map.
    + now apply IH.
Qed.

End MapFacts.

(* ------------------------------------------------------------------ *)
(** ** The stable sort *)

Section SortFacts.

Variable A : Type.
Variable cmp : A -> A -> Z.

Lemma insert_perm (x : A) (l : list A) :
  Permutation (JS.insert cmp x l) (x :: l).
Proof.
  induction l as [|y l IH]; simpl.
  - reflexivity.
  - destruct (cmp x y <=? 0)%Z.
    + reflexivity.
    + rewrite IH. apply perm_swap.
Qed.

Lemma sort_perm (l : list A) : Permutation (JS.sort cmp l) l.
Proof.
  induction l as [|x l IH]; simpl.
  - reflexivity.
  - rewrite insert_perm. now constructor.
Qed.

(** On elements where the comparator is the difference of a key, read in
    descending order, the result is sorted by descending key. *)
Variable P : A -> Prop.
Variable key : A -> Z.
Hypothesis cmp_key :
  forall a b, P a -> P b -> ((cmp a b <= 0)%Z <-> (key b <= key a)%Z).

Lemma insert_sorted (x : A) (l : list A) :
  P x -> Forall P l -> StronglySorted (descending key) l ->
  StronglySorted (descending key) (JS.insert cmp x l).
Proof.
  intros Hx Hl Hs. induction Hs as [|y l Hs IH Hy]; simpl.
  - repeat constructor.
  - inversion Hl as [|? ? Py Pl]; subst.
    destruct (cmp x y <=? 0)%Z eqn:Hc.
    + apply Z.leb_le, (cmp_key Hx Py) in Hc.
      constructor; [now constructor|].
      constructor; [exact Hc|].
      eapply Forall_impl; [|exact Hy].
      intros z Hz. unfold descending in *. lia.
    + apply Z.leb_gt in Hc.
      assert (key x < key y)%Z as Hlt.
      { destruct (Z.le_gt_cases (key y) (key x)) as [Hle|Hgt]; [|lia].
        apply (cmp_key Hx Py) in Hle. lia. }
      constructor; [now apply IH|].
      eapply Permutation_Forall; [symmetry; apply insert_perm|].
      constructor; [unfold descending; lia|assumption].
Qed.

Lemma sort_sorted (l : list A) :
  Forall P l -> StronglySorted (descending key) (JS.sort cmp l).
Proof.
  induction 1 as [|x l Hx Hl IH]; simpl.
  - constructor.
  - apply insert_sorted; auto.
    eapply Permutation_Forall; [symmetry; apply sort_perm|assumption].
Qed.

(** A list that is already in order is left as it is. *)
Lemma sort_of_sorted (l : list A) :
  Forall P l -> StronglySorted (descending key) l -> JS.sort cmp l = l.
Proof.
  intros Hl Hs. induction Hs as [|x l Hs IH Hx]; simpl.
  - reflexivity.
  - inversion Hl as [|? ? Px Pl]; subst. rewrite (IH Pl).
    destruct l as [|y l]; [reflexivity|]. simpl.
    inversion Hx as [|? ? Hxy _]; subst. inversion Pl; subst.
    now rewrite (proj2 (Z.leb_le _ _) (proj2 (cmp_key Px H1) Hxy)).
Qed.

End SortFacts.

(* ------------------------------------------------------------------ *)
(** ** Deduplication *)

Lemma find_app' (A : Type) (p : A -> bool) (l1 l2 : list A) :
  find p (l1 ++ l2)%list
  = match find p l1 with
    | Some x => Some x
    | None => find p l2
    end.
Proof.
  induction l1 as [|x l1 IH]; simpl; [reflexivity|].
  now destruct (p x).
Qed.

Lemma find_split (A : Type) (p : A -> bool) (l : list A) (a : A) :
  find p l = Some a ->
  exists l1 l2, l = (l1 ++ a :: l2)%list /\ p a = true
                /\ forall b, In b l1 -> p b = false.
Proof.
  induction l as [|x l IH]; simpl; [discriminate|].
  destruct (p x) eqn:Hx.
  - intros E. injection E as ->. exists [], l. simpl. tauto.
  - intros E. destruct (IH E) as (l1 & l2 & -> & Ha & Hl1).
    exists (x :: l1), l2. simpl. repeat split; auto.
    intros b [<-|Hb]; auto.
Qed.

Lemma NoDup_map_filter (A B : Type) (key : A -> B) (keep : A -> bool)
      (xs : list A) (Hxs : NoDup (map key xs)) :
  NoDup (map key (filter keep xs)).
Proof.
  induction xs as [|x xs IH]; simpl in *; [constructor|].
  inversion Hxs as [|? ? Hout Hnd]; subst.
  destruct (keep x); simpl; auto.
  constructor; auto.
  intro Hin. apply Hout. apply in_map_iff in Hin as (y & Hy & Hin).
  apply filter_In in Hin as [Hin _]. apply in_map_iff. eauto.
Qed.

Lemma StronglySorted_weaken (A : Type) (R R' : A -> A -> Prop)
      (P : A -> Prop) (l : list A) :
  (forall a b, P a -> P b -> R a b -> R' a b) ->
  Forall P l -> StronglySorted R l -> StronglySorted R' l.
Proof.
  intros HR Hl Hs. induction Hs as [|x l Hs IH Hx]; constructor;
    inversion Hl as [|? ? Px Pl]; subst; auto.
  rewrite Forall_forall in *. intros y Hy. apply HR; auto.
Qed.

Lemma setArticle_keyedById m a : keyedById m -> keyedById (setArticle m a).
Proof.
  unfold keyedById, setArticle.
  induction m as [|[k v] m IH]; simpl; intro H.
  - repeat constructor.
  - inversion H; subst. destruct (k =? Article.id a).
    + constructor; auto.
    + constructor; auto.
Qed.

Lemma fold_keyedById l m :
  keyedById m -> keyedById (fold_left setArticle l m).
Proof.
  revert m. induction l as [|a l IH]; simpl; intros m H; auto.
  apply IH. now apply setArticle_keyedById.
Qed.

Lemma keyedById_ids m : keyedById m -> map Article.id (mapValues m) = mapKeys m.
Proof.
  unfold mapValues, mapKeys. induction 1 as [|[k v] m Hkv Hm IH]; simpl.
  - reflexivity.
  - simpl in Hkv. now rewrite Hkv, IH.
Qed.

Lemma keyedById_In m a :
  keyedById m -> In a (mapValues m) -> In (Article.id a, a) m.
Proof.
  unfold mapValues. intros Hk Hin.
  apply in_map_iff in Hin as ([k v] & <- & Hin). simpl.
  unfold keyedById in Hk. rewrite Forall_forall in Hk.
  specialize (Hk _ Hin). simpl in Hk. now rewrite Hk.
Qed.

Lemma fold_NoDup l m :
  NoDup (mapKeys m) -> NoDup (mapKeys (fold_left setArticle l m)).
Proof.
  revert m. induction l as [|a l IH]; simpl; intros m H; auto.
  apply IH. now apply mapSet_NoDup.
Qed.

Lemma fold_keys_same l m :
  (forall a, In a l -> In (Article.id a) (mapKeys m)) ->
  mapKeys (fold_left setArticle l m) = mapKeys m.
Proof.
  revert m. induction l as [|a l IH]; simpl; intros m H; auto.
  assert (Ha : In (Article.id a) (mapKeys m)) by auto.
  rewrite IH.
  - now apply mapKeys_mapSet_old.
  - intros b Hb. unfold setArticle.
    rewrite (@mapKeys_mapSet_old _ m (Article.id a) a Ha). auto.
Qed.

Lemma fold_keys_In l m k :
  In k (mapKeys (fold_left setArticle l m))
  <-> In k (mapKeys m) \/ In k (map Article.id l).
Proof.
  revert m. induction l as [|a l IH]; simpl; intros m.
  - tauto.
  - rewrite IH. unfold setArticle. rewrite mapKeys_mapSet_In.
    intuition (subst; auto).
Qed.

Lemma lastWithId_cons k a l :
  lastWithId k (a :: l)
  = match lastWithId k l with
    | Some b => Some b
    | None => if Article.id a =? k then Some a else None
    end.
Proof.
  unfold lastWithId. simpl. rewrite find_app'. simpl.
  now destruct (Article.id a =? k).
Qed.

Lemma fold_get l m k :
  mapGet k (fold_left setArticle l m)
  = match lastWithId k l with
    | Some a => Some a
    | None => mapGet k m
    end.
Proof.
  revert m. induction l as [|a l IH]; simpl; intros m.
  - reflexivity.
  - rewrite IH, lastWithId_cons. unfold setArticle.
    rewrite mapGet_mapSet.
    destruct (lastWithId k l); [reflexivity|].
    now destruct (Article.id a =? k).
Qed.

(** Setting the same articles a second time changes nothing. *)
Lemma fold_twice l m :
  NoDup (mapKeys m) ->
  fold_left setArticle l (fold_left setArticle l m)
  = fold_left setArticle l m.
Proof.
  intro Hnd. apply map_ext.
  - now apply fold_NoDup, fold_NoDup.
  - apply fold_keys_same. intros a Ha. apply fold_keys_In. right.
    now apply in_map.
  - intros k. rewrite !fold_get. now destruct (lastWithId k l).
Qed.

Lemma deduplicate_fold l :
  deduplicate l = mapValues (fold_left setArticle l []).
Proof. reflexivity. Qed.

Lemma deduplicate_app_self l : deduplicate (l ++ l) = deduplicate l.
Proof.
  rewrite !deduplicate_fold, fold_left_app, fold_twice; [reflexivity|].
  constructor.
Qed.

Lemma deduplicate_NoDup l : NoDup (map Article.id (deduplicate l)).
Proof.
  rewrite deduplicate_fold, keyedById_ids.
  - apply fold_NoDup. constructor.
  - apply fold_keyedById. constructor.
Qed.

(** Last occurrence wins. *)
Lemma deduplicate_last l a :
  In a (deduplicate l) ->
  exists before after,
    l = (before ++ a :: after)%list
    /\ forall b, In b after -> Article.id b <> Article.id a.
Proof.
  rewrite deduplicate_fold. intro Hin.
  assert (Hk : keyedById (fold_left setArticle l []))
    by (apply fold_keyedById; constructor).
  apply keyedById_In in Hin; [|assumption].
  apply mapGet_In in Hin; [|apply fold_NoDup; constructor].
  rewrite fold_get in Hin. simpl in Hin.
  destruct (lastWithId (Article.id a) l) as [b|] eqn:Hl; [|discriminate].
  injection Hin as ->. unfold lastWithId in Hl.
  apply find_split in Hl as (l1 & l2 & Hrev & _ & Hl1).
  exists (rev l2), (rev l1). split.
  - rewrite <- (rev_involutive l), Hrev, rev_app_distr. simpl.
    now rewrite <- app_assoc.
  - intros b Hb. apply in_rev in Hb. specialize (Hl1 _ Hb).
    now apply String.eqb_neq.
Qed.

Lemma mapGet_Some_In (V : Type) (k : string) (v : V) m :
  mapGet k m = Some v -> In (k, v) m.
Proof.
  induction m as [|[k1 v1] m IH]; simpl; [discriminate|].
  destruct (String.eqb_spec k1 k) as [->|Hne].
  - intro E. injection E as ->. now left.
  - intro E. right. now apply IH.
Qed.

Lemma find_none_all (A : Type) (p : A -> bool) (l : list A) :
  (forall x, In x l -> p x = false) -> find p l = None.
Proof.
  induction l as [|x l IH]; simpl; intro H; [reflexivity|].
  rewrite (H x (or_introl eq_refl)). apply IH. auto.
Qed.

(** The last article with its id is kept. *)
Lemma deduplicate_keeps_last before a after :
  (forall b, In b after -> Article.id b <> Article.id a) ->
  In a (deduplicate (before ++ a :: after)).
Proof.
  intro Hafter. rewrite deduplicate_fold. unfold mapValues.
  apply in_map_iff. exists (Article.id a, a). split; [reflexivity|].
  apply mapGet_Some_In. rewrite fold_get.
  unfold lastWithId. rewrite rev_app_distr. simpl.
  rewrite <- app_assoc, find_app', find_none_all.
  - simpl. now rewrite String.eqb_refl.
  - intros b Hb. apply in_rev in Hb. apply String.eqb_neq. auto.
Qed.

Lemma mapSet_length (V : Type) (k : string) (v : V) m :
  (List.length (mapSet k v m) <= S (List.length m))%nat.
Proof.
  induction m as [|[k1 v1] m IH]; simpl; [lia|].
  destruct (k1 =? k); simpl; lia.
Qed.

Lemma fold_length l m :
  (List.length (fold_left setArticle l m)
   <= List.length m + List.length l)%nat.
Proof.
  revert m. induction l as [|a l IH]; simpl; intros m; [lia|].
  specialize (IH (setArticle m a)).
  pose proof (mapSet_length (Article.id a) a m). unfold setArticle in *. lia.
Qed.

Lemma deduplicate_length l :
  (List.length (deduplicate l) <= List.length l)%nat.
Proof.
  rewrite deduplicate_fold. unfold mapValues. rewrite length_map.
  pose proof (fold_length l []). simpl in *. lia.
Qed.


Lemma mapSet_new (V : Type) (k : string) (v : V) m :
  ~ In k (mapKeys m) -> mapSet k v m = (m ++ [(k, v)])%list.
Proof.
  induction m as [|[k1 v1] m IH]; simpl; intro H; [reflexivity|].
  destruct (String.eqb_spec k1 k) as [->|Hne].
  - elim H. now left.
  - f_equal. apply IH. tauto.
Qed.

Lemma fold_distinct l m :
  NoDup (map Article.id l) ->
  (forall a, In a l -> ~ In (Article.id a) (mapKeys m)) ->
  fold_left setArticle l m
  = (m ++ map (fun a => (Article.id a, a)) l)%list.
Proof.
  revert m. induction l as [|a l IH]; simpl; intros m Hnd Hout.
  - now rewrite app_nil_r.
  - inversion Hnd as [|? ? Ha Hnd']; subst.
    unfold setArticle at 2. rewrite mapSet_new by auto.
    rewrite IH; auto.
    + now rewrite <- app_assoc.
    + intros b Hb. unfold mapKeys. rewrite map_app, in_app_iff. simpl.
      intros [Hin|[E|[]]].
      * apply (Hout b); auto.
      * apply Ha. rewrite E. now apply in_map.
Qed.

(** A list without repeated ids is its own deduplication. *)
Lemma deduplicate_distinct l :
  NoDup (map Article.id l) -> deduplicate l = l.
Proof.
  intro Hnd. rewrite deduplicate_fold, fold_distinct; auto.
  unfold mapValues. simpl. rewrite map_map. simpl. apply map_id.
Qed.

Lemma filter_all (A : Type) (p : A -> bool) (l : list A) :
  Forall (fun a => p a = true) l -> filter p l = l.
Proof.
  induction 1 as [|x l Hx Hl IH]; simpl; [reflexivity|].
  now rewrite Hx, IH.
Qed.

(* ------------------------------------------------------------------ *)
(** ** The committed set *)

Section Commit.

Variable dateTime : string -> option Z.

Lemma byDateDescending_key (a b : Article.t) :
  hasTime dateTime a -> hasTime dateTime b ->
  ((byDateDescending dateTime a b <= 0)%Z
   <-> (timeOr0 dateTime b <= timeOr0 dateTime a)%Z).
Proof.
  unfold hasTime, byDateDescending, timeOr0. intros Ha Hb.
  destruct (getTime dateTime a); [|now elim Ha].
  destruct (getTime dateTime b); [|now elim Hb]. lia.
Qed.

Lemma isRecent_time (limit : Z) (a : Article.t) :
  isRecent dateTime limit a = true ->
  exists t, getTime dateTime a = Some t /\ (limit <= t)%Z.
Proof.
  unfold isRecent. destruct (getTime dateTime a) as [t|]; [|discriminate].
  intro H. exists t. split; [reflexivity|]. now apply Z.leb_le.
Qed.

Lemma recent_hasTime (limit : Z) (l : list Article.t) :
  Forall (hasTime dateTime) (filter (isRecent dateTime limit) l).
Proof.
  apply Forall_forall. intros a Ha. apply filter_In in Ha as [_ Ha].
  apply isRecent_time in Ha as (t & Ht & _). unfold hasTime. congruence.
Qed.

Lemma finalArticles_perm (now : Z) (l : list Article.t) :
  Permutation (finalArticles dateTime now l)
    (filter (isRecent dateTime (now - retention)) (deduplicate l)).
Proof. apply sort_perm. Qed.

Lemma finalArticles_In (now : Z) (l : list Article.t) (a : Article.t) :
  In a (finalArticles dateTime now l)
  <-> In a (deduplicate l)
      /\ isRecent dateTime (now - retention) a = true.
Proof.
  rewrite <- filter_In. split; apply Permutation_in.
  - apply finalArticles_perm.
  - symmetry. apply finalArticles_perm.
Qed.

Lemma finalArticles_app_self (now : Z) (l : list Article.t) :
  finalArticles dateTime now (l ++ l) = finalArticles dateTime now l.
Proof. unfold finalArticles. now rewrite deduplicate_app_self. Qed.

Lemma finalArticles_recent (now : Z) (l : list Article.t) :
  Forall (fun a => isRecent dateTime (now - retention) a = true)
    (finalArticles dateTime now l).
Proof.
  apply Forall_forall. intros a Ha. now apply finalArticles_In in Ha.
Qed.

Lemma finalArticles_hasTime (now : Z) (l : list Article.t) :
  Forall (hasTime dateTime) (finalArticles dateTime now l).
Proof.
  eapply Permutation_Forall; [symmetry; apply finalArticles_perm|].
  apply recent_hasTime.
Qed.

Lemma finalArticles_sorted (now : Z) (l : list Article.t) :
  StronglySorted (descending (timeOr0 dateTime)) (finalArticles dateTime now l).
Proof.
  unfold finalArticles.
  apply (@sort_sorted _ (byDateDescending dateTime) (hasTime dateTime)
           (timeOr0 dateTime)
           byDateDescending_key).
  apply recent_hasTime.
Qed.

Lemma finalArticles_NoDup (now : Z) (l : list Article.t) :
  NoDup (map Article.id (finalArticles dateTime now l)).
Proof.
  eapply Permutation_NoDup.
  - apply Permutation_map. symmetry. apply finalArticles_perm.
  - apply NoDup_map_filter, deduplicate_NoDup.
Qed.

(** The merge leaves its own output as it is. *)
Lemma finalArticles_idempotent (now : Z) (l : list Article.t) :
  finalArticles dateTime now (finalArticles dateTime now l)
  = finalArticles dateTime now l.
Proof.
  unfold finalArticles at 1. cbv zeta.
  rewrite (@deduplicate_distinct _ (finalArticles_NoDup now l)).
  rewrite (@filter_all _ _ _ (finalArticles_recent now l)).
  apply (@sort_of_sorted _ (byDateDescending dateTime) (hasTime dateTime)
           (timeOr0 dateTime)
           byDateDescending_key).
  - apply finalArticles_hasTime.
  - apply finalArticles_sorted.
Qed.

(** C5: merging a list with itself commits exactly what merging the list
    alone commits (at the same instants): the same articles in the same
    order, hence the same members, and no more of them than the list has;
    and merging the committed set with itself commits it again unchanged. *)
Theorem merge_with_itself (now stamp : Z) (A : list Article.t)
        (st : AppState) :
  mergeAndPersist dateTime now stamp A A st
  = updateArticlesAndCache dateTime now stamp A st
  /\ (forall a,
         In a (articles (mergeAndPersist dateTime now stamp A A st))
         <-> In a (deduplicate A)
             /\ isRecent dateTime (now - 604800000) a = true)
  /\ (List.length (articles (mergeAndPersist dateTime now stamp A A st))
      <= List.length A)%nat
  /\ (let committed :=
        articles (updateArticlesAndCache dateTime now stamp A st) in
      articles (mergeAndPersist dateTime now stamp committed committed st)
      = committed).
Proof.
  assert (E : mergeAndPersist dateTime now stamp A A st
              = updateArticlesAndCache dateTime now stamp A st).
  { unfold mergeAndPersist, updateArticlesAndCache.
    now rewrite finalArticles_app_self. }
  split; [exact E|]. rewrite E. cbn [articles updateArticlesAndCache].
  split; [|split].
  - intro a. apply finalArticles_In.
  - rewrite (Permutation_length (finalArticles_perm now A)).
    pose proof (filter_length_le (isRecent dateTime (now - retention))
                  (deduplicate A)).
    pose proof (deduplicate_length A). lia.
  - cbv zeta. unfold mergeAndPersist. cbn [articles updateArticlesAndCache].
    fold (finalArticles dateTime now A).
    rewrite finalArticles_app_self. apply finalArticles_idempotent.
Qed.

(** C6: whatever the input, the committed set holds no article older than
    7 days before the instant of the merge, its ids are pairwise distinct,
    each committed article being the last one of the input with its id
    (and every such article that is recent enough being committed), and it
    is sorted by descending publication date. *)
Theorem committed_set_invariants (now stamp : Z)
        (newArticles : list Article.t) (st : AppState) :
  let committed :=
    articles (updateArticlesAndCache dateTime now stamp newArticles st) in
  (forall a, In a committed ->
             exists t, getTime dateTime a = Some t
                       /\ (now - 7 * 24 * 60 * 60 * 1000 <= t)%Z)
  /\ NoDup (map Article.id committed)
  /\ (forall a, In a committed ->
                exists before after,
                  newArticles = (before ++ a :: after)%list
                  /\ forall b, In b after -> Article.id b <> Article.id a)
  /\ (forall before a after t,
         newArticles = (before ++ a :: after)%list ->
         (forall b, In b after -> Article.id b <> Article.id a) ->
         getTime dateTime a = Some t ->
         (now - 7 * 24 * 60 * 60 * 1000 <= t)%Z ->
         In a committed)
  /\ StronglySorted
       (fun a b => exists ta tb,
            getTime dateTime a = Some ta /\ getTime dateTime b = Some tb
            /\ (tb <= ta)%Z)
       committed.
Proof.
  cbv zeta. cbn [articles updateArticlesAndCache].
  split; [|split; [|split; [|split]]].
  - intros a Ha. apply finalArticles_In in Ha as [_ Ha].
    now apply isRecent_time in Ha.
  - apply finalArticles_NoDup.
  - intros a Ha. apply finalArticles_In in Ha as [Ha _].
    now apply deduplicate_last.
  - intros before a after t -> Hafter Ht Hrecent.
    apply finalArticles_In. split.
    + now apply deduplicate_keeps_last.
    + unfold isRecent. rewrite Ht. now apply Z.leb_le.
  - eapply StronglySorted_weaken;
      [|apply finalArticles_hasTime|apply finalArticles_sorted].
    intros a b Ha Hb Hab. unfold hasTime, descending, timeOr0 in *.
    destruct (getTime dateTime a) as [ta|]; [|now elim Ha].
    destruct (getTime dateTime b) as [tb|]; [|now elim Hb].
    exists ta, tb. auto.
Qed.

End Commit.

(** A run of the merge at 2025-10-27T21:20:00Z: the first "a" is
    overwritten by the later one and keeps its place, "old" and the article
    without a date are pruned, and the rest is sorted, equal dates staying
    in their order. *)
Example merge_run :
  let art := fun i d : string =>
               Article.mk i "t" "s" d "" "l" "u" (Some false) de in
  map (fun a => (Article.id a, Article.publicationDate a))
    (finalArticles exampleDateTime 1761600000000
       [ art "a" "2025-10-26T10:00:00.000Z";
         art "b" "2025-10-27T10:00:00.000Z";
         art "old" "2025-10-01T00:00:00.000Z";
         art "c" "not a date";
         art "a" "2025-10-27T10:00:00.000Z";
         art "d" "2025-10-26T10:00:00.000Z" ])
  = [ ("a", "2025-10-27T10:00:00.000Z");
      ("b", "2025-10-27T10:00:00.000Z");
      ("d", "2025-10-26T10:00:00.000Z") ].
Proof. vm_compute. reflexivity. Qed.

(* ------------------------------------------------------------------ *)
(** ** The feed parser *)

Section Parser.

Variable parseXML : string -> node.

Lemma pushItem_In (isAtom : bool) (n : node) (i : Item.t) :
  In i (pushItem isAtom n) <-> itemOfNode isAtom n = Some i.
Proof.
  unfold pushItem. destruct (itemOfNode isAtom n) as [j|]; simpl.
  - split; [intros [->|[]]; reflexivity|]. intros E. injection E as ->.
    now left.
  - split; [tauto|discriminate].
Qed.

(** What an item that is kept holds in its three required fields. *)
Lemma itemOfNode_fields (isAtom : bool) (n : node) (i : Item.t) :
  itemOfNode isAtom n = Some i ->
  Item.title i = getQueryText n (Tag "title")
  /\ itemLink isAtom n = Some (Item.link i)
  /\ Item.pubDate i = itemPubDate isAtom n
  /\ Item.title i <> "" /\ Item.link i <> "" /\ Item.pubDate i <> "".
Proof.
  unfold itemOfNode.
  destruct (itemLink isAtom n) as [l|]; [|discriminate].
  destruct (String.eqb_spec (getQueryText n (Tag "title")) "") as [|Ht];
    [discriminate|].
  destruct (String.eqb_spec l "") as [|Hl]; [discriminate|].
  destruct (String.eqb_spec (itemPubDate isAtom n) "") as [|Hd];
    [discriminate|].
  cbn [orb]. intro E. injection E as <-. cbn. auto 10.
Qed.

Lemma itemOfNode_kept (isAtom : bool) (n : node) :
  (exists i, itemOfNode isAtom n = Some i)
  <-> getQueryText n (Tag "title") <> ""
      /\ (exists l, itemLink isAtom n = Some l /\ l <> "")
      /\ itemPubDate isAtom n <> "".
Proof.
  split.
  - intros [i Hi]. apply itemOfNode_fields in Hi
      as (Et & El & Ed & Ht & Hl & Hd).
    rewrite <- Et, <- Ed. repeat split; auto. eauto.
  - intros (Ht & (l & El & Hl) & Hd). unfold itemOfNode. rewrite El.
    rewrite (eqb_empty_false Ht), (eqb_empty_false Hl),
      (eqb_empty_false Hd).
    cbn [orb]. eauto.
Qed.

(** C3 (amended): [parseRssXml] keeps an item or entry if and only if it
    has a non-empty title, a non-empty link and a non-empty publication
    date, where the date is [pubDate] for RSS and [published] for Atom,
    and in BOTH formats falls back to [updated]; the items kept carry
    these three non-empty values, and nothing else is in the result. *)
Theorem parseRssXml_items (xmlString url : string) (data : ParsedFeed) :
  parseRssXml parseXML xmlString url = Returns data ->
  let doc := parseXML xmlString in
  let isAtom := isAtomDocument doc in
  let date := fun n =>
    JS.orElse
      (getQueryText n (Tag (if isAtom then "published" else "pubDate")))
      (getQueryText n (Tag "updated")) in
  (forall i, In i (items data)
             <-> exists n, In n (itemNodes doc)
                           /\ itemOfNode isAtom n = Some i)
  /\ (forall n, (exists i, itemOfNode isAtom n = Some i)
                <-> getQueryText n (Tag "title") <> ""
                    /\ (exists l, itemLink isAtom n = Some l /\ l <> "")
                    /\ date n <> "")
  /\ (forall n i, itemOfNode isAtom n = Some i ->
                  Item.title i = getQueryText n (Tag "title")
                  /\ itemLink isAtom n = Some (Item.link i)
                  /\ Item.pubDate i = date n)
  /\ (forall i, In i (items data) ->
                Item.title i <> "" /\ Item.link i <> ""
                /\ Item.pubDate i <> "").
Proof.
  unfold parseRssXml.
  destruct (docQuerySelector (parseXML xmlString) (Tag "parsererror"));
    [discriminate|].
  intro E. injection E as <-. cbv zeta. cbn [items].
  assert (Hin : forall i,
             In i (flat_map (pushItem (isAtomDocument (parseXML xmlString)))
                     (itemNodes (parseXML xmlString)))
             <-> exists n, In n (itemNodes (parseXML xmlString))
                           /\ itemOfNode
                                (isAtomDocument (parseXML xmlString)) n
                              = Some i).
  { intro i. rewrite in_flat_map. split; intros (n & Hn & Hi); exists n;
      (split; [assumption|]); now apply pushItem_In. }
  split; [exact Hin|]. split; [|split].
  - intro n. apply itemOfNode_kept.
  - intros n i Hi. apply itemOfNode_fields in Hi. tauto.
  - intros i Hi. apply Hin in Hi as (n & _ & Hi).
    apply itemOfNode_fields in Hi. tauto.
Qed.

End Parser.

(** C3 as stated fails: the third item of [rssDocument] is an RSS item
    without [pubDate]; the parser keeps it, with the text of its [updated]
    element as publication date.  The item without title is dropped. *)
Lemma rss_item_dated_by_updated :
  let third :=
    Element None "item" []
      [ leaf "title" "Third";
        leaf "link" "https://www.gamestar.de/3";
        leaf "updated" "2025-10-27T10:00:00Z" ] in
  isAtomDocument rssDocument = false
  /\ In third (itemNodes rssDocument)
  /\ getQueryText third (Tag "pubDate") = ""
  /\ parseRssXml (fun _ => rssDocument) "<rss/>"
       "https://www.gamestar.de/rss/gamestar.rss"
     = Returns
         (mkParsedFeed "GameStar News"
            "https://www.gamestar.de/rss/gamestar.rss"
            [ Item.mk "First" "https://www.gamestar.de/1"
                "Mon, 27 Oct 2025 10:00:00 GMT" "gs-1" "<p>One</p>"
                "<p>One</p>" None None None None;
              Item.mk "Third" "https://www.gamestar.de/3"
                "2025-10-27T10:00:00Z" "https://www.gamestar.de/3" "" ""
                None None None None ]).
Proof.
  cbv zeta. repeat split.
  simpl. auto.
Qed.

Lemma parseRssXml_items_witness :
  Item.title atomEntryItem <> "" /\ Item.link atomEntryItem <> ""
  /\ Item.pubDate atomEntryItem <> "".
Proof.
  refine (proj2 (proj2 (proj2
    (@parseRssXml_items (fun _ => atomDocument) "<feed/>" "https://g.de/feed"
       (mkParsedFeed "Golem" "https://g.de/feed" [atomEntryItem])
       eq_refl))) atomEntryItem _).
  simpl. auto.
Defined.

(** A document with a [parsererror] element makes the parser throw. *)
Example parsererror_throws :
  parseRssXml (fun _ => Element None "parsererror" [] [Text "bad"])
    "<rss" "https://x.example/feed"
  = Throws (Error "Failed to parse XML for feed: https://x.example/feed").
Proof. reflexivity. Qed.

(* ------------------------------------------------------------------ *)
(** ** Aggregation over a feed group *)

Lemma forEachCollect_returns (A B : Type) (f : A -> outcome (list B))
      (l : list A) :
  (forall a, In a l -> exists bs, f a = Returns bs) ->
  forEachCollect f l = Returns (flat_map (fun a => returned (f a)) l).
Proof.
  induction l as [|a l IH]; simpl; intro H; [reflexivity|].
  destruct (H a (or_introl eq_refl)) as [bs Ha]. rewrite Ha. simpl.
  rewrite IH by auto. reflexivity.
Qed.

Lemma forEachCollect_throws (A B : Type) (f : A -> outcome (list B))
      (l : list A) (a : A) (e : exn) :
  In a l -> f a = Throws e -> exists e', forEachCollect f l = Throws e'.
Proof.
  induction l as [|x l IH]; simpl; [tauto|].
  intros [->|Hin] Ha.
  - rewrite Ha. simpl. eauto.
  - destruct (f x); simpl; [|eauto].
    destruct (IH Hin Ha) as [e' ->]. simpl. eauto.
Qed.

Lemma filter_length_all (A : Type) (p : A -> bool) (l : list A) :
  List.length (filter p l) = List.length l <-> forall a, In a l -> p a = true.
Proof.
  induction l as [|x l IH]; simpl.
  - tauto.
  - pose proof (filter_length_le p l) as Hle.
    destruct (p x) eqn:Hx; simpl.
    + split.
      * intros E a [<-|Ha]; [assumption|]. apply IH; [lia|assumption].
      * intros H. f_equal. apply IH. auto.
    + split; [lia|]. intros H. specialize (H x (or_introl eq_refl)).
      congruence.
Qed.

Lemma forEachCollect_thrown (A B : Type) (f : A -> outcome (list B))
      (l : list A) (e : exn) :
  forEachCollect f l = Throws e -> exists a, In a l /\ f a = Throws e.
Proof.
  induction l as [|x l IH]; simpl; [discriminate|].
  destruct (f x) as [bs|e'] eqn:Hx; simpl.
  - destruct (forEachCollect f l) as [cs|e'']; simpl; [discriminate|].
    intro E. injection E as ->.
    destruct (IH eq_refl) as (a & Ha & Hf). eauto.
  - intro E. injection E as ->. eauto.
Qed.

Section Aggregation.

Variable parseHTML : string -> HTMLDocument.
Variable parseXML : string -> node.
Variable newURL : string -> option string -> option URL.
Variable dateTime : string -> option Z.
Variable toISOString : Z -> string.
Variable fetch : string -> option Response.
Variable isWellFormed : string -> bool.

Notation fetchFeed' := (fetchFeed parseXML fetch).
Notation extractInitialData' :=
  (extractInitialData parseHTML newURL isWellFormed).
Notation articleOfItem' :=
  (articleOfItem parseHTML newURL dateTime toISOString isWellFormed).
Notation articlesOfResult' :=
  (articlesOfResult parseHTML newURL dateTime toISOString isWellFormed).
Notation datesParse' := (datesParse parseXML dateTime fetch).
Notation namesEncode' := (namesEncode parseXML fetch isWellFormed).
Notation fetchArticlesFromFeeds' :=
  (fetchArticlesFromFeeds parseHTML parseXML newURL dateTime toISOString
     fetch isWellFormed).

(** [extractInitialData] returns when the cut source name encodes, and a
    [URIError] is all it throws. *)
Lemma extractInitialData_outcome (item : Item.t) (sourceName : string) :
  (isWellFormed (JS.substring sourceName 0 30) = true ->
   exists d, extractInitialData' item sourceName = Returns d)
  /\ (forall e, extractInitialData' item sourceName = Throws e ->
                e = uriMalformed).
Proof.
  unfold extractInitialData. rewrite !placeholderData_cases.
  destruct (isWellFormed (JS.substring sourceName 0 30)).
  - split.
    + intros _.
      destruct (imageCandidate parseHTML item) as [c|]; [|eauto].
      destruct (JS.truthy (Some c)); [|eauto].
      destruct (newURL c _) as [r|]; [|eauto].
      destruct (newURL (href r) None); eauto.
    + intros e.
      destruct (imageCandidate parseHTML item) as [c|]; [|discriminate].
      destruct (JS.truthy (Some c)); [|discriminate].
      destruct (newURL c _) as [r|]; [|discriminate].
      destruct (newURL (href r) None); discriminate.
  - split; [discriminate|]. intros e.
    destruct (imageCandidate parseHTML item) as [c|];
      [|intro E; now injection E].
    destruct (JS.truthy (Some c)); [|intro E; now injection E].
    destruct (newURL c _) as [r|]; [|intro E; now injection E].
    destruct (newURL (href r) None); [discriminate|intro E; now injection E].
Qed.

Lemma articleOfItem_returns (sourceName : string) (lang : Language)
      (item : Item.t) :
  dateTime (Item.pubDate item) <> None ->
  isWellFormed (JS.substring sourceName 0 30) = true ->
  exists bs, articleOfItem' sourceName lang item = Returns bs.
Proof.
  intros Hd Hw. unfold articleOfItem.
  destruct (_ || _ || _); [eauto|].
  destruct (proj1 (extractInitialData_outcome item sourceName) Hw)
    as [d ->]. cbn [bind].
  destruct (dateTime (Item.pubDate item)); [eauto|now elim Hd].
Qed.

(** What the body of the loop throws is a [RangeError] or a [URIError],
    never the error of the exhausted group. *)
Lemma articleOfItem_thrown (sourceName : string) (lang : Language)
      (item : Item.t) (e : exn) :
  articleOfItem' sourceName lang item = Throws e ->
  e = invalidTime \/ e = uriMalformed.
Proof.
  unfold articleOfItem. destruct (_ || _ || _); [discriminate|].
  destruct (extractInitialData' item sourceName) as [d|e'] eqn:Hx;
    cbn [bind].
  - destruct (dateTime (Item.pubDate item)); [discriminate|].
    intro E. injection E as <-. now left.
  - intro E. injection E as <-. right.
    exact (proj2 (extractInitialData_outcome item sourceName) e' Hx).
Qed.

Lemma articleOfItem_In (sourceName : string) (lang : Language)
      (item : Item.t) (a : Article.t) :
  In a (returned (articleOfItem' sourceName lang item))
  <-> articleOfItem' sourceName lang item = Returns [a].
Proof.
  unfold articleOfItem.
  destruct (_ || _ || _); simpl.
  - split; [tauto|discriminate].
  - destruct (extractInitialData' item sourceName) as [d|e]; cbn [bind].
    + destruct (dateTime (Item.pubDate item)); simpl.
      * split.
        -- intros [<-|[]]. reflexivity.
        -- intro E. injection E as <-. now left.
      * split; [tauto|discriminate].
    + simpl. split; [tauto|discriminate].
Qed.

Lemma articlesOfResult_returns (feeds : list (string * Language))
      (feed : string * Language) :
  datesParse' feeds -> namesEncode' feeds -> In feed feeds ->
  exists bs, articlesOfResult' (fetchFeed' feed) = Returns bs.
Proof.
  intros Hd Hw Hin. unfold articlesOfResult.
  destruct (fetchFeed' feed) as [[data lang]|] eqn:Hf; [|eauto].
  rewrite forEachCollect_returns; [eauto|].
  intros item Hitem. apply articleOfItem_returns.
  - eapply Hd; eauto.
  - eapply Hw; eauto.
Qed.

Lemma collected_returns (feeds : list (string * Language)) :
  datesParse' feeds -> namesEncode' feeds ->
  forEachCollect articlesOfResult' (map fetchFeed' feeds)
  = Returns (flat_map (fun r => returned (articlesOfResult' r))
               (map fetchFeed' feeds)).
Proof.
  intros Hd Hw. apply forEachCollect_returns.
  intros r Hr. apply in_map_iff in Hr as (feed & <- & Hin).
  eapply articlesOfResult_returns; eauto.
Qed.

Lemma collected_In (feeds : list (string * Language)) (a : Article.t) :
  datesParse' feeds -> namesEncode' feeds ->
  In a (flat_map (fun r => returned (articlesOfResult' r))
          (map fetchFeed' feeds))
  <-> exists feed data lang item,
      In feed feeds /\ fetchFeed' feed = Some (data, lang)
      /\ In item (items data)
      /\ articleOfItem' (cleanSourceName (feedTitle data) (feedUrl data))
           lang item = Returns [a].
Proof.
  intros Hd Hw. rewrite in_flat_map. split.
  - intros (r & Hr & Ha). apply in_map_iff in Hr as (feed & <- & Hin).
    unfold articlesOfResult in Ha.
    destruct (fetchFeed' feed) as [[data lang]|] eqn:Hf; [|destruct Ha].
    rewrite forEachCollect_returns in Ha.
    2:{ intros item Hitem. apply articleOfItem_returns;
        [eapply Hd; eauto|eapply Hw; eauto]. }
    simpl in Ha. apply in_flat_map in Ha as (item & Hitem & Ha).
    apply articleOfItem_In in Ha. exists feed, data, lang, item. auto.
  - intros (feed & data & lang & item & Hin & Hf & Hitem & Ha).
    exists (fetchFeed' feed). split; [now apply in_map|].
    rewrite Hf. unfold articlesOfResult.
    rewrite forEachCollect_returns.
    2:{ intros i Hi. apply articleOfItem_returns;
        [eapply Hd; eauto|eapply Hw; eauto]. }
    simpl. apply in_flat_map. exists item. split; [assumption|].
    now apply articleOfItem_In.
Qed.

Lemma all_failed_nothing (feeds : list (string * Language)) :
  (forall feed, In feed feeds -> fetchFeed' feed = None) ->
  flat_map (fun r => returned (articlesOfResult' r)) (map fetchFeed' feeds)
  = [].
Proof.
  induction feeds as [|feed feeds IH]; simpl; intro H; [reflexivity|].
  rewrite (H feed (or_introl eq_refl)). simpl. apply IH. auto.
Qed.

Lemma all_failed_collected (feeds : list (string * Language)) :
  (forall feed, In feed feeds -> fetchFeed' feed = None) ->
  forEachCollect articlesOfResult' (map fetchFeed' feeds) = Returns [].
Proof.
  intro H. rewrite forEachCollect_returns.
  - now rewrite all_failed_nothing.
  - intros r Hr. apply in_map_iff in Hr as (feed & <- & Hin).
    rewrite (H feed Hin). cbn. eauto.
Qed.

(** The loop over the results never throws the error of the exhausted
    group. *)
Lemma collected_not_exhausted (feeds : list (string * Language)) :
  forEachCollect articlesOfResult' (map fetchFeed' feeds)
  <> Throws exhausted.
Proof.
  intro E. apply forEachCollect_thrown in E as (r & _ & Hr).
  unfold articlesOfResult in Hr.
  destruct r as [[data lang]|]; [|discriminate].
  apply forEachCollect_thrown in Hr as (item & _ & Hitem).
  apply articleOfItem_thrown in Hitem as [H|H]; discriminate H.
Qed.

Lemma all_failed_length (feeds : list (string * Language)) :
  (forall feed, In feed feeds -> fetchFeed' feed = None)
  <-> List.length (filter isFailed (map fetchFeed' feeds))
      = List.length (map fetchFeed' feeds).
Proof.
  rewrite filter_length_all. split.
  - intros H r Hr. apply in_map_iff in Hr as (feed & <- & Hin).
    now rewrite (H feed Hin).
  - intros H feed Hin.
    specialize (H (fetchFeed' feed) (in_map _ _ _ Hin)).
    now destruct (fetchFeed' feed).
Qed.

Lemma exhausted_iff (feeds : list (string * Language)) :
  fetchArticlesFromFeeds' feeds = Throws exhausted
  <-> feeds <> []
      /\ forall feed, In feed feeds -> fetchFeed' feed = None.
Proof.
  unfold fetchArticlesFromFeeds. split.
  - pose proof (collected_not_exhausted feeds) as Hloop.
    destruct (forEachCollect articlesOfResult' (map fetchFeed' feeds))
      as [allArticles|e]; cbn [bind].
    + destruct ((List.length allArticles =? 0)%nat
                && (0 <? List.length (map fetchFeed' feeds))%nat) eqn:Hc;
        [|discriminate].
      destruct (Nat.eqb_spec
                  (List.length (filter isFailed (map fetchFeed' feeds)))
                  (List.length (map fetchFeed' feeds))) as [E|_];
        [|discriminate].
      intros _. apply andb_true_iff in Hc as [_ Hlen].
      apply Nat.ltb_lt in Hlen. rewrite length_map in Hlen.
      split.
      * intros ->. cbn in Hlen. lia.
      * now apply all_failed_length.
    + intro E. elim Hloop. exact E.
  - intros [Hne H]. rewrite (@all_failed_collected feeds H). cbn [bind].
    assert (Hlen : (0 <? List.length (map fetchFeed' feeds))%nat = true).
    { apply Nat.ltb_lt. rewrite length_map.
      destruct feeds; [now elim Hne|simpl; lia]. }
    rewrite Hlen. cbn [List.length Nat.eqb andb].
    now rewrite (proj2 (Nat.eqb_eq _ _) (proj1 (all_failed_length feeds) H)).
Qed.

(** C7 (amended).  The empty group returns the empty list.  For every
    group, [fetchArticlesFromFeeds] throws the could-not-fetch error if and
    only if the group is not empty and every feed of it failed (no proxy
    delivered a document that parses).  When the date of every item of the
    fetched feeds parses and the source names of the fetched feeds, cut to
    30 code units, hold no lone surrogate, that is the only error: with at
    least one feed fetched the call returns, and what it returns are exactly
    the articles built from the items of the feeds that succeeded, feed
    after feed in the order of the group. *)
Theorem partial_success_returns (feeds : list (string * Language)) :
  fetchArticlesFromFeeds' [] = Returns []
  /\ (fetchArticlesFromFeeds' feeds = Throws exhausted
      <-> feeds <> []
          /\ forall feed, In feed feeds -> fetchFeed' feed = None)
  /\ (datesParse' feeds -> namesEncode' feeds ->
      ((exists e, fetchArticlesFromFeeds' feeds = Throws e)
       <-> feeds <> []
           /\ forall feed, In feed feeds -> fetchFeed' feed = None)
      /\ ((exists feed, In feed feeds /\ fetchFeed' feed <> None) ->
          exists allArticles,
            fetchArticlesFromFeeds' feeds = Returns allArticles
            /\ allArticles
               = flat_map
                   (fun feed =>
                      returned (articlesOfResult' (fetchFeed' feed)))
                   feeds
            /\ forall a,
                In a allArticles
                <-> exists feed data lang item,
                    In feed feeds /\ fetchFeed' feed = Some (data, lang)
                    /\ In item (items data)
                    /\ articleOfItem'
                         (cleanSourceName (feedTitle data) (feedUrl data))
                         lang item = Returns [a])).
Proof.
  split; [reflexivity|]. split; [apply exhausted_iff|].
  intros Hd Hw.
  assert (Hsome : (exists feed, In feed feeds /\ fetchFeed' feed <> None) ->
                  fetchArticlesFromFeeds' feeds
                  = Returns (flat_map
                               (fun r => returned (articlesOfResult' r))
                               (map fetchFeed' feeds))).
  { intros (feed & Hin & Hok). unfold fetchArticlesFromFeeds.
    rewrite (@collected_returns feeds Hd Hw). cbn [bind].
    destruct (_ && _); [|reflexivity].
    destruct (Nat.eqb_spec
                (List.length (filter isFailed (map fetchFeed' feeds)))
                (List.length (map fetchFeed' feeds))) as [E|_];
      [|reflexivity].
    elim Hok. apply (proj2 (all_failed_length feeds) E). assumption. }
  split.
  - split.
    + intros [e He].
      assert (Hall : forall feed, In feed feeds -> fetchFeed' feed = None).
      { intros feed Hin.
        destruct (fetchFeed' feed) eqn:Hf; [|reflexivity].
        rewrite Hsome in He; [discriminate|].
        exists feed. split; [assumption|congruence]. }
      split; [|exact Hall]. intros ->. discriminate He.
    + intro H. exists exhausted. now apply exhausted_iff.
  - intro H. eexists. split; [now apply Hsome|].
    split; [now rewrite flat_map_concat_map, map_map, <- flat_map_concat_map|].
    intro a. now apply collected_In.
Qed.

End Aggregation.

(** C7 as stated fails on two inputs.  For the empty group every feed has
    failed (there is none) and the function returns the empty list: the
    throw is guarded by [results.length > 0].  And a feed that was fetched
    and parsed, with an item whose [pubDate] is no date, makes the whole
    call throw a [RangeError] although a feed succeeded. *)
Lemma empty_group_returns_and_bad_date_throws :
  fetchArticlesFromFeeds exampleHTML (fun _ => rssDocument) absoluteHttpsURL
    exampleDateTime exampleISOString exampleFetch pairedSurrogates []
  = Returns []
  /\ fetchFeed (fun _ => badDateDocument) exampleFetch
       ("https://kotaku.com/rss", en)
     = Some (mkParsedFeed "Kotaku" "https://kotaku.com/rss"
               [ Item.mk "Soon" "https://kotaku.com/soon" "coming soon"
                   "https://kotaku.com/soon" "" "" None None None None ],
             en)
  /\ fetchArticlesFromFeeds exampleHTML (fun _ => badDateDocument)
       absoluteHttpsURL exampleDateTime exampleISOString exampleFetch
       pairedSurrogates [("https://kotaku.com/rss", en)]
     = Throws (RangeError "Invalid time value").
Proof. repeat split. Qed.

Lemma fiveFeeds_datesParse :
  datesParse (fun _ => rssDocument) exampleDateTime exampleFetch fiveFeeds.
Proof.
  intros feed data lang item Hfeed Hdata Hitem.
  simpl in Hfeed.
  repeat (destruct Hfeed as [<-|Hfeed]; [|]); try contradiction;
    vm_compute in Hdata; try discriminate;
    injection Hdata as <- <-;
    (destruct Hitem as [<-|[<-|[]]]; vm_compute; discriminate).
Defined.

Lemma fiveFeeds_namesEncode :
  namesEncode (fun _ => rssDocument) exampleFetch pairedSurrogates fiveFeeds.
Proof.
  intros feed data lang Hfeed Hdata.
  simpl in Hfeed.
  repeat (destruct Hfeed as [<-|Hfeed]; [|]); try contradiction;
    vm_compute in Hdata; try discriminate;
    injection Hdata as <- <-; vm_compute; reflexivity.
Defined.

(** The scenario of C7: two of five feeds answer with an error status
    through every proxy, three succeed. *)
Lemma partial_success_returns_witness :
  exists allArticles,
    fetchArticlesFromFeeds exampleHTML (fun _ => rssDocument)
      absoluteHttpsURL exampleDateTime exampleISOString exampleFetch
      pairedSurrogates fiveFeeds
    = Returns allArticles
    /\ allArticles
       = flat_map
           (fun feed =>
              returned
                (articlesOfResult exampleHTML absoluteHttpsURL
                   exampleDateTime exampleISOString pairedSurrogates
                   (fetchFeed (fun _ => rssDocument) exampleFetch feed)))
           fiveFeeds
    /\ forall a,
        In a allArticles
        <-> exists feed data lang item,
            In feed fiveFeeds
            /\ fetchFeed (fun _ => rssDocument) exampleFetch feed
               = Some (data, lang)
            /\ In item (items data)
            /\ articleOfItem exampleHTML absoluteHttpsURL exampleDateTime
                 exampleISOString pairedSurrogates
                 (cleanSourceName (feedTitle data) (feedUrl data))
                 lang item = Returns [a].
Proof.
  apply (proj2 (proj2 (proj2
           (@partial_success_returns exampleHTML (fun _ => rssDocument)
              absoluteHttpsURL exampleDateTime exampleISOString exampleFetch
              pairedSurrogates fiveFeeds))
           fiveFeeds_datesParse fiveFeeds_namesEncode)).
  exists ("https://www.gamestar.de/rss/gamestar.rss", de).
  split; [simpl; auto|]. vm_compute. discriminate.
Defined.

Example five_feeds_run :
  option_map (map (fun a => (Article.source a, Article.title a)))
    (match fetchArticlesFromFeeds exampleHTML (fun _ => rssDocument)
             absoluteHttpsURL exampleDateTime exampleISOString exampleFetch
             pairedSurrogates fiveFeeds with
     | Returns l => Some l
     | Throws _ => None
     end)
  = Some [ ("GameStar", "First"); ("GameStar", "Third");
           ("GameSpot", "First"); ("GameSpot", "Third");
           ("4P", "First"); ("4P", "Third") ].
Proof. vm_compute. reflexivity. Qed.

Example all_feeds_down :
  fetchArticlesFromFeeds exampleHTML (fun _ => rssDocument) absoluteHttpsURL
    exampleDateTime exampleISOString exampleFetch pairedSurrogates
    [("https://down1.example/feed", de); ("https://down2.example/feed", en)]
  = Throws exhausted.
Proof. vm_compute. reflexivity. Qed.

(** A feed that was fetched and parsed, on a host that is not in the table
    and with the game pad in its title at the code units 29 and 30: its
    item has no image, so the placeholder is built from the title, and the
    whole call throws a [URIError] although a feed succeeded. *)
Example surrogate_cut_name_throws :
  fetchArticlesFromFeeds exampleHTML (fun _ => gamePadDocument)
    absoluteHttpsURL exampleDateTime exampleISOString exampleFetch
    pairedSurrogates [("https://retro.example/feed", en)]
  = Throws (URIError "URI malformed").
Proof. vm_compute. reflexivity. Qed.

(* ------------------------------------------------------------------ *)
(** ** The image scraper pass *)

Lemma Forall2_map_same (A : Type) (R : A -> A -> Prop) (f : A -> A)
      (l : list A) :
  (forall x, In x l -> R x (f x)) -> Forall2 R l (map f l).
Proof.
  induction l as [|x l IH]; simpl; intro H; constructor; auto.
Qed.

Lemma sameOtherFields_refl (a : Article.t) : sameOtherFields a a.
Proof. unfold sameOtherFields. tauto. Qed.

Lemma sameOtherFields_scraped (s : option string) (a : Article.t) :
  sameOtherFields a (scraped s a).
Proof. unfold sameOtherFields. cbn. tauto. Qed.

Lemma sameOtherFields_trans (a b c : Article.t) :
  sameOtherFields a b -> sameOtherFields b c -> sameOtherFields a c.
Proof. unfold sameOtherFields. intuition congruence. Qed.

Section Scraper.

Variable parseHTML : string -> HTMLDocument.
Variable newURL : string -> option string -> option URL.
Variable fetch : string -> option Response.

Notation getOg := (getOgImageFromUrl parseHTML newURL fetch).
Notation scrapeOne' := (scrapeOne parseHTML newURL fetch).
Notation scraperPass' := (scraperPass parseHTML newURL fetch).
Notation passOn' := (passOn parseHTML newURL fetch).

Lemma scraperPass_map (completion prevArticles : list Article.t) :
  scraperPass' completion prevArticles
  = map (passOn' completion) prevArticles.
Proof.
  unfold scraperPass. revert prevArticles.
  induction completion as [|art completion IH]; intro prevArticles.
  - simpl. now rewrite map_id.
  - cbn [fold_left]. rewrite IH. unfold scrapeOne at 1, applyScrape.
    now rewrite map_map.
Qed.

Lemma passOn_fields (completion : list Article.t) (prev : Article.t) :
  sameOtherFields prev (passOn' completion prev).
Proof.
  unfold passOn. revert prev.
  induction completion as [|art completion IH]; intro prev.
  - apply sameOtherFields_refl.
  - cbn [fold_left]. eapply sameOtherFields_trans; [|apply IH].
    destruct (Article.id prev =? Article.id art).
    + apply sameOtherFields_scraped.
    + apply sameOtherFields_refl.
Qed.

Lemma passOn_untouched (completion : list Article.t) (prev : Article.t) :
  (forall art, In art completion -> Article.id art <> Article.id prev) ->
  passOn' completion prev = prev.
Proof.
  unfold passOn. revert prev.
  induction completion as [|art completion IH]; intros prev H.
  - reflexivity.
  - cbn [fold_left].
    assert (Hne : Article.id prev <> Article.id art).
    { intro E. apply (H art); [now left|now symmetry]. }
    apply String.eqb_neq in Hne. rewrite Hne. apply IH.
    intros a Ha. apply H. now right.
Qed.

Lemma passOn_cleared (completion : list Article.t) (prev : Article.t) :
  (Article.needsScraping prev = Some false
   \/ exists art, In art completion /\ Article.id art = Article.id prev) ->
  Article.needsScraping (passOn' completion prev) = Some false.
Proof.
  unfold passOn. revert prev.
  induction completion as [|art completion IH]; intros prev H.
  - destruct H as [H|(art & [] & _)]. exact H.
  - cbn [fold_left].
    destruct (String.eqb_spec (Article.id prev) (Article.id art)) as [E|Hne].
    + apply IH. left. reflexivity.
    + apply IH. destruct H as [H|(a & [<-|Ha] & Hid)].
      * now left.
      * now elim Hne.
      * right. exists a. auto.
Qed.


Lemma passOn_unique (completion : list Article.t) (art prev : Article.t) :
  NoDup (map Article.id completion) ->
  In art completion ->
  Article.id art = Article.id prev ->
  passOn' completion prev = scraped (getOg (Article.link art)) prev.
Proof.
  revert prev. induction completion as [|a c IH]; intros prev Hnd Hin Hid.
  - destruct Hin.
  - inversion Hnd as [|? ? Hfresh Hrest]; subst.
    change (passOn' (a :: c) prev)
      with (passOn' c
              (if Article.id prev =? Article.id a
               then scraped (getOg (Article.link a)) prev else prev)).
    destruct Hin as [->|Hin].
    + rewrite <- Hid, String.eqb_refl. apply passOn_untouched.
      intros b Hb E. apply Hfresh. cbn [scraped Article.id] in E.
      rewrite Hid, <- E. now apply in_map.
    + assert (Hne : Article.id prev <> Article.id a).
      { intro E. apply Hfresh. rewrite <- E, <- Hid. now apply in_map. }
      apply String.eqb_neq in Hne. rewrite Hne. now apply IH.
Qed.

(** C10: one processed article.  Every article of the state keeps its id,
    title, source, date, summary, link and language; an article with the id
    of the processed one has [needsScraping = false] afterwards, and its
    [imageUrl] is the scraped URL when the scrape gave one and its previous
    [imageUrl] when the scrape gave [null]; an article with another id is
    unchanged.  Over a whole pass, in whatever order the scrapes complete,
    every article whose id was processed ends with [needsScraping = false]
    and every other article is unchanged.  The pass of [runImageScraper]
    processes exactly the flagged articles of its argument (the ones with
    [needsScraping] set or a placeholder image): every article of the state
    with the id of one of them ends with [needsScraping = false] and, when
    the flagged articles have distinct ids, with the image of the scrape of
    that article or its previous image; every other article, the
    favorites, the sources and the cache are unchanged. *)
Theorem scrape_clears_flag_and_frames (article : Article.t)
        (prevArticles : list Article.t) :
  let scrapedUrl := getOg (Article.link article) in
  let afterPass (articlesToCheck : list Article.t) (prev next : Article.t) :=
    sameOtherFields prev next
    /\ (forall art,
           In art articlesToCheck -> isFlagged art = true ->
           Article.id art = Article.id prev ->
           Article.needsScraping next = Some false
           /\ (NoDup (map Article.id (articlesToScrape articlesToCheck)) ->
               Article.imageUrl next
               = match getOg (Article.link art) with
                 | Some u => if u =? "" then Article.imageUrl prev else u
                 | None => Article.imageUrl prev
                 end))
    /\ ((forall art,
            In art articlesToCheck -> isFlagged art = true ->
            Article.id art <> Article.id prev) ->
        next = prev) in
  Forall2
    (fun prev next =>
       sameOtherFields prev next
       /\ (Article.id prev = Article.id article ->
           Article.needsScraping next = Some false
           /\ Article.imageUrl next
              = match scrapedUrl with
                | Some u => if u =? "" then Article.imageUrl prev else u
                | None => Article.imageUrl prev
                end)
       /\ (Article.id prev <> Article.id article -> next = prev))
    prevArticles (scrapeOne' prevArticles article)
  /\ (forall completion,
      Forall2
        (fun prev next =>
           sameOtherFields prev next
           /\ ((exists art, In art completion
                            /\ Article.id art = Article.id prev) ->
               Article.needsScraping next = Some false)
           /\ ((forall art, In art completion ->
                            Article.id art <> Article.id prev) ->
               next = prev))
        prevArticles (scraperPass' completion prevArticles))
  /\ (forall articlesToCheck completion,
      Permutation completion (articlesToScrape articlesToCheck) ->
      Forall2 (afterPass articlesToCheck)
        prevArticles (scraperPass' completion prevArticles))
  /\ (forall articlesToCheck st,
      let st' :=
        runImageScraper parseHTML newURL fetch articlesToCheck st in
      Forall2 (afterPass articlesToCheck) (articles st) (articles st')
      /\ favorites st' = favorites st
      /\ allSources st' = allSources st
      /\ cache st' = cache st).
Proof.
  cbv zeta.
  assert (Hpass : forall articlesToCheck completion prevs,
    Permutation completion (articlesToScrape articlesToCheck) ->
    Forall2
      (fun prev next =>
         sameOtherFields prev next
         /\ (forall art,
                In art articlesToCheck -> isFlagged art = true ->
                Article.id art = Article.id prev ->
                Article.needsScraping next = Some false
                /\ (NoDup (map Article.id
                             (articlesToScrape articlesToCheck)) ->
                    Article.imageUrl next
                    = match getOg (Article.link art) with
                      | Some u =>
                          if u =? "" then Article.imageUrl prev else u
                      | None => Article.imageUrl prev
                      end))
         /\ ((forall art,
                 In art articlesToCheck -> isFlagged art = true ->
                 Article.id art <> Article.id prev) ->
             next = prev))
      prevs (scraperPass' completion prevs)).
  { intros articlesToCheck completion prevs Hperm.
    assert (Hmem : forall art,
               In art completion
               <-> In art articlesToCheck /\ isFlagged art = true).
    { intro art. unfold articlesToScrape in Hperm. rewrite <- filter_In.
      split; apply Permutation_in; [exact Hperm|now symmetry]. }
    rewrite scraperPass_map. apply Forall2_map_same.
    intros prev _. split; [apply passOn_fields|]. split.
    - intros art Hin Hflag Hid. split.
      + apply passOn_cleared. right. exists art. split; [|exact Hid].
        apply Hmem. now split.
      + intro Hnd.
        rewrite (@passOn_unique completion art prev).
        * cbn [scraped Article.imageUrl].
          destruct (getOg (Article.link art)) as [u|]; cbn; [|reflexivity].
          now destruct (u =? "").
        * eapply Permutation_NoDup; [|exact Hnd].
          apply Permutation_map. now symmetry.
        * apply Hmem. now split.
        * exact Hid.
    - intro H. apply passOn_untouched. intros art Hart.
      apply Hmem in Hart as [Hin Hflag]. now apply H. }
  split; [|split; [|split]].
  - unfold scrapeOne, applyScrape. apply Forall2_map_same.
    intros prev _.
    destruct (String.eqb_spec (Article.id prev) (Article.id article))
      as [E|Hne].
    + split; [apply sameOtherFields_scraped|]. split; [|tauto].
      intros _. cbn. split; [reflexivity|].
      destruct (getOg (Article.link article)) as [u|]; cbn; [|reflexivity].
      now destruct (u =? "").
    + split; [apply sameOtherFields_refl|]. split; [tauto|reflexivity].
  - intro completion. rewrite scraperPass_map. apply Forall2_map_same.
    intros prev _. split; [apply passOn_fields|]. split.
    + intro H. apply passOn_cleared. now right.
    + apply passOn_untouched.
  - intros articlesToCheck completion. apply Hpass.
  - intros articlesToCheck st. repeat split.
    apply Hpass. reflexivity.
Qed.

End Scraper.

(** A pass over a state of three articles: the first is flagged and its
    page has an Open Graph image, the second is flagged and its page cannot
    be fetched, the third is not flagged. *)
Example scraper_run :
  let a1 := exampleArticle "1" "https://www.play3.de/a"
              "https://placehold.co/600x400/374151/d1d5db?text=Play3"
              (Some true) in
  let a2 := exampleArticle "2" "https://www.play3.de/b"
              "https://placehold.co/600x400/374151/d1d5db?text=Play3"
              (Some true) in
  let a3 := exampleArticle "3" "https://www.play3.de/c"
              "https://cdn.play3.de/c.jpg" (Some false) in
  articles (runImageScraper ogDocument absoluteHttpsURL ogFetch [a1; a2; a3]
              (mkAppState [a1; a2; a3] [] [] None))
  = [ exampleArticle "1" "https://www.play3.de/a"
        "https://cdn.play3.de/og.jpg" (Some false);
      exampleArticle "2" "https://www.play3.de/b"
        "https://placehold.co/600x400/374151/d1d5db?text=Play3"
        (Some false);
      a3 ].
Proof. vm_compute. reflexivity. Qed.

(* ================================================================== *)
(** * Further properties of the code *)

(* ------------------------------------------------------------------ *)
(** ** Trees *)

(** Induction over a tree and the children of its elements. *)
Lemma node_tree_ind (P : node -> Prop) :
  (forall s, P (Text s)) ->
  (forall pre l a cs, Forall P cs -> P (Element pre l a cs)) ->
  forall n, P n.
Proof.
  intros HT HE. fix IH 1. intros [pre l a cs|s].
  - apply HE. induction cs as [|c cs IHcs]; constructor.
    + apply IH.
    + exact IHcs.
  - apply HT.
Qed.

Lemma matches_scriptOrStyle (parent : option string) (n : node) :
  matches parent n scriptOrStyle = isScriptOrStyle n.
Proof. reflexivity. Qed.

(** After [removeWhere isScriptOrStyle] no element below a root that is
    itself neither [script] nor [style] matches the selector. *)
Lemma removeWhere_no_script (n : node) :
  forall parent,
    isScriptOrStyle n = false ->
    selectFrom parent scriptOrStyle (removeWhere isScriptOrStyle n) = [].
Proof.
  induction n as [s|pre l a cs IH] using node_tree_ind; intros parent Hn.
  - reflexivity.
  - cbn [removeWhere selectFrom]. rewrite matches_scriptOrStyle.
    replace (isScriptOrStyle (Element pre l a _)) with false
      by (symmetry; exact Hn).
    clear Hn. cbn [app]. induction IH as [|c cs Hc _ IHcs]; [reflexivity|].
    destruct (isScriptOrStyle c) eqn:Ec.
    + exact IHcs.
    + rewrite (Hc (Some l) eq_refl). exact IHcs.
Qed.

(** [removeReadMore] only takes elements away. *)
Lemma removeReadMore_no_script (n : node) :
  forall parent,
    selectFrom parent scriptOrStyle n = [] ->
    selectFrom parent scriptOrStyle (removeReadMore n) = [].
Proof.
  induction n as [s|pre l a cs IH] using node_tree_ind; intros parent Hn.
  - reflexivity.
  - cbn [removeReadMore selectFrom] in *.
    rewrite matches_scriptOrStyle in *.
    apply app_eq_nil in Hn as [Hself Hcs].
    assert (Hm : isScriptOrStyle (Element pre l a cs) = false).
    { destruct (isScriptOrStyle (Element pre l a cs));
        [discriminate Hself|reflexivity]. }
    clear Hself.
    match goal with
    | |- context [isScriptOrStyle (Element pre l a ?x)] =>
        change (isScriptOrStyle (Element pre l a x))
          with (isScriptOrStyle (Element pre l a cs))
    end.
    rewrite Hm. clear Hm. cbn [app].
    induction IH as [|c cs Hc _ IHcs]; [reflexivity|].
    apply app_eq_nil in Hcs as [Hhead Htail].
    destruct (hasTag "p" c && hasReadMore c).
    + now apply IHcs.
    + rewrite (Hc (Some l) Hhead). now apply IHcs.
Qed.

Section SummarizerMore.

Variable parseHTML : string -> HTMLDocument.

Lemma stripHtmlAndTruncate_length (html : string) (n : nat) :
  (String.length (stripHtmlAndTruncate parseHTML html n) <= n + 3)%nat.
Proof.
  unfold stripHtmlAndTruncate.
  set (text := JS.trim (bodyText parseHTML html)).
  rewrite !substring_from_start.
  destruct (html =? ""); [simpl; lia|].
  destruct (text =? "..."); [simpl; lia|].
  destruct (n <? String.length text)%nat eqn:Hlong.
  - rewrite length_app. cbn [String.length].
    pose proof (length_take n text).
    destruct (0 <? JS.lastIndexOf (JS.take n text) " ")%Z.
    + pose proof (length_take
                    (Z.to_nat (JS.lastIndexOf (JS.take n text) " "))
                    (JS.take n text)).
      pose proof (lastIndexOf_spec (JS.take n text) " ") as (Hr & _).
      lia.
    + lia.
  - apply Nat.ltb_ge in Hlong. lia.
Qed.

(** X1: for every maximal length [n] the summary has at most [n + 3]
    characters; it is empty for an empty input and for a text that is just
    "..."; and any other text that fits is returned whole, without the
    ellipsis. *)
Theorem summary_bound_any_length (html : string) (n : nat) :
  let text := JS.trim (bodyText parseHTML html) in
  (String.length (stripHtmlAndTruncate parseHTML html n) <= n + 3)%nat
  /\ (html = "" \/ text = "..." ->
      stripHtmlAndTruncate parseHTML html n = "")
  /\ (html <> "" -> text <> "..." -> (String.length text <= n)%nat ->
      stripHtmlAndTruncate parseHTML html n = text).
Proof.
  cbv zeta. split; [apply stripHtmlAndTruncate_length|]. split.
  - intros [Hhtml|Htext]; unfold stripHtmlAndTruncate.
    + rewrite Hhtml. reflexivity.
    + rewrite Htext. destruct (html =? ""); reflexivity.
  - intros Hhtml Htext Hfit. unfold stripHtmlAndTruncate.
    rewrite (eqb_empty_false Hhtml).
    apply String.eqb_neq in Htext. rewrite Htext.
    now rewrite (proj2 (Nat.ltb_ge n _) Hfit).
Qed.

(** X2: whatever the parser returns, the document the summary is read from
    holds no [script] and no [style] element. *)
Theorem summary_document_without_scripts (html : string) :
  docQuerySelectorAll (cleanedDocument parseHTML html) scriptOrStyle = [].
Proof.
  unfold docQuerySelectorAll, cleanedDocument.
  apply removeReadMore_no_script, removeWhere_no_script. reflexivity.
Qed.

End SummarizerMore.

(* ------------------------------------------------------------------ *)
(** ** The Open Graph scraper and the image resolver, continued *)

Lemma firstSome_In (A : Type) (l : list (option A)) (x : A) :
  firstSome l = Some x -> In (Some x) l.
Proof.
  unfold firstSome. destruct (find _ l) as [o|] eqn:Hf; [|discriminate].
  intros ->. now apply find_some in Hf.
Qed.

Lemma firstSome_all_none (A : Type) (l : list (option A)) :
  (forall o, In o l -> o = None) -> firstSome l = None.
Proof.
  intro H. unfold firstSome. destruct (find _ l) as [o|] eqn:Hf.
  - apply find_some in Hf as [Hin _]. now apply H.
  - reflexivity.
Qed.

Section ResolverMore.

Variable parseHTML : string -> HTMLDocument.
Variable newURL : string -> option string -> option URL.
Variable fetch : string -> option Response.
Variable isWellFormed : string -> bool.

Lemma ogImageVia_found (url proxyUrl u : string) :
  ogImageVia parseHTML newURL fetch url proxyUrl = Some u ->
  exists response html sel meta content resolved,
    fetch proxyUrl = Some response /\ ok response = true
    /\ text response = Some html
    /\ In sel ogSelectors
    /\ docQuerySelector (documentElement (parseHTML html)) sel = Some meta
    /\ getAttribute meta "content" = Some content /\ content <> ""
    /\ newURL content (Some url) = Some resolved
    /\ u = href resolved.
Proof.
  unfold ogImageVia.
  destruct (fetch proxyUrl) as [response|] eqn:Hf; [|discriminate].
  destruct (ok response) eqn:Hok; [|discriminate]. cbn [negb].
  destruct (text response) as [html|] eqn:Ht; [|discriminate].
  destruct (firstSome _) as [meta|] eqn:Hmeta; [|discriminate].
  destruct (getAttribute meta "content") as [content|] eqn:Hc;
    [|discriminate].
  destruct (String.eqb_spec content "") as [|Hne]; [discriminate|].
  destruct (newURL content (Some url)) as [resolved|] eqn:Hr;
    [|discriminate].
  cbn [option_map]. intro E. injection E as <-.
  apply firstSome_In in Hmeta. cbn [In] in Hmeta.
  destruct Hmeta as [H|[H|[H|[]]]];
    [exists response, html, (TagAttrEq "meta" "property" "og:image")
    |exists response, html, (TagAttrEq "meta" "property" "og:image:url")
    |exists response, html, (TagAttrEq "meta" "name" "twitter:image")];
    exists meta, content, resolved; cbn [ogSelectors In];
    repeat split; auto.
Qed.

(** X3: [getOgImageFromUrl] gives [null] when no proxy answers with an ok
    status and a body; and what it gives otherwise is the [href] of the
    non-empty [content] of an Open Graph or Twitter image tag of a page
    delivered by one of its three proxies, resolved against the page URL. *)
Theorem og_image_null_or_resolved (url : string) :
  ((forall proxyUrl response,
       In proxyUrl (ogProxies url) -> fetch proxyUrl = Some response ->
       ok response = false \/ text response = None) ->
   getOgImageFromUrl parseHTML newURL fetch url = None)
  /\ (forall u,
         getOgImageFromUrl parseHTML newURL fetch url = Some u ->
         exists proxyUrl response html sel meta content resolved,
           In proxyUrl (ogProxies url)
           /\ fetch proxyUrl = Some response /\ ok response = true
           /\ text response = Some html
           /\ In sel ogSelectors
           /\ docQuerySelector (documentElement (parseHTML html)) sel
              = Some meta
           /\ getAttribute meta "content" = Some content /\ content <> ""
           /\ newURL content (Some url) = Some resolved
           /\ u = href resolved).
Proof.
  split.
  - intro Hdown. unfold getOgImageFromUrl. apply firstSome_all_none.
    intros o Ho. apply in_map_iff in Ho as (proxyUrl & <- & Hin).
    unfold ogImageVia.
    destruct (fetch proxyUrl) as [response|] eqn:Hf; [|reflexivity].
    destruct (Hdown proxyUrl response Hin Hf) as [H|H]; rewrite H.
    + reflexivity.
    + now destruct (negb (ok response)).
  - intros u Hu. unfold getOgImageFromUrl in Hu.
    apply firstSome_In in Hu. apply in_map_iff in Hu as (proxyUrl & Hvia & Hin).
    apply ogImageVia_found in Hvia
      as (response & html & sel & meta & content & resolved & H).
    exists proxyUrl, response, html, sel, meta, content, resolved. tauto.
Qed.

Lemma flag_implies_placeholder (item : Item.t) (sourceName : string)
      (d : InitialData) :
  extractInitialData parseHTML newURL isWellFormed item sourceName
  = Returns d ->
  needsScraping d = true ->
  imageCandidate parseHTML item = None
  /\ placeholderUrl isWellFormed sourceName = Returns (imageUrl d)
  /\ imageUrl d
     = "https://placehold.co/600x400/374151/d1d5db?text="
       ++ JS.encodeURIComponent (JS.substring sourceName 0 30)
  /\ exists s, In s SOURCES_NEEDING_SCRAPING
               /\ JS.includes (JS.toLowerCase sourceName) s = true.
Proof.
  assert (Hlisted :
    existsb (fun s => JS.includes (JS.toLowerCase sourceName) s)
      SOURCES_NEEDING_SCRAPING = true ->
    exists s, In s SOURCES_NEEDING_SCRAPING
              /\ JS.includes (JS.toLowerCase sourceName) s = true).
  { intro H. now apply existsb_exists in H. }
  unfold extractInitialData, placeholderData, placeholderUrl,
    encodeURIComponentOf.
  set (listed := existsb _ SOURCES_NEEDING_SCRAPING) in *.
  destruct (imageCandidate parseHTML item) as [c|] eqn:Hc.
  - rewrite (imageCandidate_truthy _ _ Hc). cbn [negb andb].
    destruct (isWellFormed (JS.substring sourceName 0 30)); cbn [bind];
      (destruct (newURL c (Some (Item.link item))) as [r|];
       [destruct (newURL (href r) None)|]);
      intro E; try discriminate E; injection E as <-; cbn; discriminate.
  - cbn [JS.truthy negb andb].
    destruct (isWellFormed (JS.substring sourceName 0 30)); cbn [bind];
      intro E; [|discriminate E].
    injection E as <-. cbn [needsScraping imageUrl]. auto.
Qed.

(** X4: an item is flagged for scraping only when no image candidate was
    found, and its image is then the placeholder of its source, which is
    one of the sources on the scraping list. *)
Theorem flagged_only_with_placeholder (item : Item.t) (sourceName : string)
        (d : InitialData) :
  extractInitialData parseHTML newURL isWellFormed item sourceName
  = Returns d ->
  needsScraping d = true ->
  imageCandidate parseHTML item = None
  /\ placeholderUrl isWellFormed sourceName = Returns (imageUrl d)
  /\ imageUrl d
     = "https://placehold.co/600x400/374151/d1d5db?text="
       ++ JS.encodeURIComponent (JS.substring sourceName 0 30)
  /\ exists s, In s SOURCES_NEEDING_SCRAPING
               /\ JS.includes (JS.toLowerCase sourceName) s = true.
Proof. exact (@flag_implies_placeholder item sourceName d). Qed.

(** X5: when the URL parser refuses the candidate (or the URL it has just
    serialised), the item is not flagged for scraping, whatever its source:
    it gets the placeholder with [needsScraping = false] when the first 30
    code units of the source name hold no lone surrogate, and the call
    throws a [URIError] when they do. *)
Theorem unresolvable_candidate_unflagged (item : Item.t)
        (sourceName candidate : string) :
  imageCandidate parseHTML item = Some candidate ->
  (newURL candidate (Some (Item.link item)) = None
   \/ exists resolved,
       newURL candidate (Some (Item.link item)) = Some resolved
       /\ newURL (href resolved) None = None) ->
  (isWellFormed (JS.substring sourceName 0 30) = true ->
   extractInitialData parseHTML newURL isWellFormed item sourceName
   = Returns
       (mkInitialData
          ("https://placehold.co/600x400/374151/d1d5db?text="
           ++ JS.encodeURIComponent (JS.substring sourceName 0 30))
          false))
  /\ (isWellFormed (JS.substring sourceName 0 30) = false ->
      extractInitialData parseHTML newURL isWellFormed item sourceName
      = Throws (URIError "URI malformed")).
Proof.
  intros Hc Hfail.
  assert (E : extractInitialData parseHTML newURL isWellFormed item
                sourceName
              = placeholderData isWellFormed sourceName false).
  { unfold extractInitialData. rewrite Hc.
    rewrite (imageCandidate_truthy _ _ Hc). cbn [negb andb].
    destruct Hfail as [H|(resolved & H1 & H2)].
    - now rewrite H.
    - now rewrite H1, H2. }
  rewrite E, placeholderData_cases.
  split; intros ->; reflexivity.
Qed.

End ResolverMore.

(** X6: an image on a host whose name contains "pcgames.de" or
    "pcgameshardware.de" (and not "gamespot.com") is never rewritten by the
    host rules, also for the sources GameStar and GamePro. *)
Theorem pcgames_hosts_untouched (host sourceName processedUrl : string) :
  JS.includes host "gamespot.com" = false ->
  JS.includes host "pcgames.de" = true
  \/ JS.includes host "pcgameshardware.de" = true ->
  rewriteForHost host sourceName processedUrl = processedUrl.
Proof.
  intros Hspot Hpc. unfold rewriteForHost. rewrite Hspot.
  destruct (JS.includes host "pcgameshardware.de") eqn:Hhw.
  - now rewrite andb_false_r.
  - destruct Hpc as [H|H]; [|discriminate]. now rewrite H.
Qed.

Lemma pcgames_hosts_untouched_witness :
  rewriteForHost "www.pcgames.de" "GameStar"
    "https://www.pcgames.de/screenshots/1280/2025/10/cover.jpg"
  = "https://www.pcgames.de/screenshots/1280/2025/10/cover.jpg".
Proof.
  apply pcgames_hosts_untouched.
  - reflexivity.
  - left. reflexivity.
Defined.

Lemma span_digits (ds t : string) :
  allChars JS.isDigit ds = true ->
  span JS.isDigit (ds ++ String "/" t) = String.length ds.
Proof.
  induction ds as [|c ds IH]; intro H.
  - reflexivity.
  - cbn in H. apply andb_true_iff in H as [Hc Hds].
    cbn [append span]. rewrite Hc. cbn [String.length]. f_equal.
    now apply IH.
Qed.

Lemma matchResize_here (ds post : string) :
  allChars JS.isDigit ds = true ->
  (2 <= String.length ds <= 4)%nat ->
  matchResize (String "/" (ds ++ String "/" post))
  = Some (1 + String.length ds + 1).
Proof.
  intros Hds Hlen. unfold matchResize.
  replace (JS.startsWith (String "/" (ds ++ String "/" post)) "/")
    with true by reflexivity.
  cbn [JS.drop].
  rewrite (@span_digits ds post Hds), drop_app.
  rewrite (proj2 (Nat.leb_le 2 _) (proj1 Hlen)).
  rewrite (proj2 (Nat.leb_le _ 4) (proj2 Hlen)).
  reflexivity.
Qed.

Lemma matchResize_no_digit (c : ascii) (pre t : string) :
  allChars notDigit (String c pre) = true ->
  matchResize (String c (pre ++ String "/" t)) = None.
Proof.
  intro H. unfold matchResize.
  destruct (JS.startsWith (String c (pre ++ String "/" t)) "/");
    [|reflexivity].
  cbn [JS.drop].
  assert (Hspan : span JS.isDigit (pre ++ String "/" t) = 0).
  { destruct pre as [|c' pre].
    - reflexivity.
    - cbn in H. apply andb_true_iff in H as [_ H].
      apply andb_true_iff in H as [H _].
      cbn [append span]. unfold notDigit in H.
      now destruct (JS.isDigit c'). }
  now rewrite Hspan.
Qed.

Lemma replace_resize_segment (pre ds post : string) :
  allChars notDigit pre = true ->
  allChars JS.isDigit ds = true ->
  (2 <= String.length ds <= 4)%nat ->
  replaceFirst matchResize "/800/" (pre ++ String "/" (ds ++ String "/" post))
  = pre ++ "/800/" ++ post.
Proof.
  intros Hpre Hds Hlen. induction pre as [|c pre IH].
  - cbn [append]. cbn [replaceFirst].
    rewrite (@matchResize_here ds post Hds Hlen).
    rewrite !drop_drop. cbn [JS.drop]. now rewrite drop_app.
  - cbn [append]. cbn [replaceFirst].
    rewrite (@matchResize_no_digit c pre (ds ++ String "/" post) Hpre).
    f_equal. apply IH. cbn in Hpre.
    now apply andb_true_iff in Hpre as [_ Hpre].
Qed.

(** X7: for the sources GameStar and GamePro and for hosts on "cgames.de"
    (other than the "pcgames.de", "pcgameshardware.de" and GameSpot hosts)
    the first path segment of two to four digits becomes "800": a URL that
    has no digit before that segment is rewritten at exactly that place. *)
Theorem resize_segment_to_800 (host sourceName pre ds post : string) :
  JS.includes host "gamespot.com" = false ->
  JS.includes host "pcgames.de" = false ->
  JS.includes host "pcgameshardware.de" = false ->
  JS.includes host "cgames.de" = true
  \/ JS.includes sourceName "GameStar" = true
  \/ JS.includes sourceName "GamePro" = true ->
  allChars notDigit pre = true ->
  allChars JS.isDigit ds = true ->
  (2 <= String.length ds <= 4)%nat ->
  rewriteForHost host sourceName
    (pre ++ String "/" (ds ++ String "/" post))
  = pre ++ "/800/" ++ post.
Proof.
  intros Hspot Hpc Hhw Hwho Hpre Hds Hlen.
  unfold rewriteForHost. rewrite Hspot, Hpc, Hhw. cbn [andb].
  assert (Hcond : JS.includes host "cgames.de"
                  || JS.includes sourceName "GameStar"
                  || JS.includes sourceName "GamePro" = true).
  { destruct Hwho as [H|[H|H]]; rewrite H; rewrite ?orb_true_r;
      reflexivity. }
  rewrite Hcond. now apply replace_resize_segment.
Qed.

Lemma resize_segment_to_800_witness :
  rewriteForHost "images.cgames.de" "GameStar"
    "https://images.cgames.de/images/gsgp/290/cover.jpg"
  = "https://images.cgames.de/images/gsgp/800/cover.jpg".
Proof.
  apply (@resize_segment_to_800 "images.cgames.de" "GameStar"
           "https://images.cgames.de/images/gsgp" "290" "cover.jpg");
    try reflexivity.
  - left. reflexivity.
  - cbn. lia.
Defined.

Lemma flagged_only_with_placeholder_witness :
  imageCandidate trackingPixelDocument trackingPixelItem = None
  /\ placeholderUrl pairedSurrogates "Play3"
     = Returns "https://placehold.co/600x400/374151/d1d5db?text=Play3"
  /\ "https://placehold.co/600x400/374151/d1d5db?text=Play3"
     = "https://placehold.co/600x400/374151/d1d5db?text="
       ++ JS.encodeURIComponent (JS.substring "Play3" 0 30)
  /\ exists s, In s SOURCES_NEEDING_SCRAPING
               /\ JS.includes (JS.toLowerCase "Play3") s = true.
Proof.
  apply (@flagged_only_with_placeholder trackingPixelDocument
           absoluteHttpsURL pairedSurrogates trackingPixelItem "Play3"
           (mkInitialData
              "https://placehold.co/600x400/374151/d1d5db?text=Play3"
              true)).
  - reflexivity.
  - reflexivity.
Defined.

Lemma unresolvable_candidate_unflagged_witness :
  extractInitialData plainTextDocument absoluteHttpsURL pairedSurrogates
    relativeImageItem "Play3"
  = Returns
      (mkInitialData
         ("https://placehold.co/600x400/374151/d1d5db?text="
          ++ JS.encodeURIComponent (JS.substring "Play3" 0 30))
         false)
  /\ extractInitialData plainTextDocument absoluteHttpsURL pairedSurrogates
       relativeImageItem gamePadTitle
     = Throws (URIError "URI malformed").
Proof.
  split.
  - apply (@unresolvable_candidate_unflagged plainTextDocument
             absoluteHttpsURL pairedSurrogates relativeImageItem "Play3"
             "/img/a.jpg").
    + reflexivity.
    + left. reflexivity.
    + reflexivity.
  - apply (@unresolvable_candidate_unflagged plainTextDocument
             absoluteHttpsURL pairedSurrogates relativeImageItem
             gamePadTitle "/img/a.jpg").
    + reflexivity.
    + left. reflexivity.
    + reflexivity.
Defined.

(* ------------------------------------------------------------------ *)
(** ** Trimming *)

Lemma trimStart_head (s : string) :
  trimStartDone (JS.trimStart s).
Proof.
  induction s as [|c s IH]; cbn [JS.trimStart].
  - exact I.
  - destruct (JS.isWhiteSpace c) eqn:Hc; [exact IH|].
    cbn. now rewrite Hc.
Qed.

Lemma trimEnd_cons (c : ascii) (s : string) :
  JS.trimEnd (String c s)
  = match JS.trimEnd s with
    | EmptyString =>
        if JS.isWhiteSpace c then EmptyString else String c EmptyString
    | String d t => String c (String d t)
    end.
Proof. reflexivity. Qed.

Lemma trimEnd_trimEnd (s : string) : JS.trimEnd (JS.trimEnd s) = JS.trimEnd s.
Proof.
  induction s as [|c s IH]; [reflexivity|].
  rewrite trimEnd_cons. destruct (JS.trimEnd s) as [|d t] eqn:E.
  - destruct (JS.isWhiteSpace c) eqn:Hc; [reflexivity|].
    rewrite trimEnd_cons. cbn [JS.trimEnd]. now rewrite Hc.
  - rewrite trimEnd_cons. now rewrite IH.
Qed.

Lemma trimEnd_keeps_head (s : string) :
  trimStartDone s -> JS.trimStart (JS.trimEnd s) = JS.trimEnd s.
Proof.
  destruct s as [|c s]; [reflexivity|]. cbn [trimStartDone].
  intro Hc. rewrite trimEnd_cons.
  destruct (JS.trimEnd s); rewrite ?Hc; cbn [JS.trimStart]; now rewrite Hc.
Qed.

(** Trimming a trimmed string changes nothing. *)
Lemma trim_trim (s : string) : JS.trim (JS.trim s) = JS.trim s.
Proof.
  unfold JS.trim.
  rewrite (@trimEnd_keeps_head _ (trimStart_head s)). apply trimEnd_trimEnd.
Qed.

Lemma getQueryText_trimmed (n : node) (s : selector) :
  JS.trim (getQueryText n s) = getQueryText n s.
Proof.
  unfold getQueryText. destruct (querySelector n s); [apply trim_trim|].
  reflexivity.
Qed.

Lemma orElse_cases (a b : string) :
  (a <> "" /\ JS.orElse a b = a) \/ (a = "" /\ JS.orElse a b = b).
Proof.
  unfold JS.orElse. destruct (String.eqb_spec a ""); auto.
Qed.

Lemma orElse_trimmed (a b : string) :
  JS.trim a = a -> JS.trim b = b -> JS.trim (JS.orElse a b) = JS.orElse a b.
Proof. intros Ha Hb. unfold JS.orElse. now destruct (a =? ""). Qed.

(* ------------------------------------------------------------------ *)
(** ** The feed parser and the fetch of one feed, continued *)

Lemma flat_map_length_le (A B : Type) (f : A -> list B) (l : list A) :
  (forall a, List.length (f a) <= 1)%nat ->
  (List.length (flat_map f l) <= List.length l)%nat.
Proof.
  intro H. induction l as [|a l IH]; simpl; [lia|].
  rewrite List.length_app. specialize (H a). lia.
Qed.

Lemma pushItem_length (isAtom : bool) (n : node) :
  (List.length (pushItem isAtom n) <= 1)%nat.
Proof. unfold pushItem. destruct (itemOfNode isAtom n); simpl; lia. Qed.

(** The optional fields of an item that is kept. *)
Lemma itemOfNode_guid (isAtom : bool) (n : node) (i : Item.t) :
  itemOfNode isAtom n = Some i ->
  Item.guid i
  = JS.orElse (getQueryText n (Tag "guid"))
      (JS.orElse (getQueryText n (Tag "id")) (Item.link i))
  /\ Item.thumbnail i = None
  /\ Item.content i
     = JS.orElse
         (JS.orElse (getQueryText n (Tag "content:encoded"))
            (getQueryText n (Tag "content")))
         (Item.description i).
Proof.
  unfold itemOfNode.
  destruct (itemLink isAtom n) as [l|]; [|discriminate].
  destruct (_ || _ || _); [discriminate|].
  intro E. injection E as <-. cbn. auto.
Qed.

Section FeedsMore.

Variable parseHTML : string -> HTMLDocument.
Variable parseXML : string -> node.
Variable newURL : string -> option string -> option URL.
Variable dateTime : string -> option Z.
Variable toISOString : Z -> string.
Variable fetch : string -> option Response.
Variable isWellFormed : string -> bool.

Lemma parsed_item_wellformed (xmlString url : string) (data : ParsedFeed)
      (i : Item.t) :
  parseRssXml parseXML xmlString url = Returns data ->
  In i (items data) ->
  Item.title i <> "" /\ JS.trim (Item.title i) = Item.title i
  /\ JS.trim (Item.pubDate i) = Item.pubDate i
  /\ Item.link i <> "" /\ Item.pubDate i <> ""
  /\ Item.guid i <> "" /\ Item.thumbnail i = None.
Proof.
  unfold parseRssXml.
  destruct (docQuerySelector (parseXML xmlString) (Tag "parsererror"));
    [discriminate|].
  intro E. injection E as <-. cbn [items]. intro Hin.
  apply in_flat_map in Hin as (n & _ & Hin). apply pushItem_In in Hin.
  destruct (itemOfNode_fields _ _ Hin) as (Et & _ & Ed & Ht & Hl & Hd).
  destruct (itemOfNode_guid _ _ Hin) as (Eg & Eth & _).
  repeat split; auto.
  - rewrite Et. apply getQueryText_trimmed.
  - rewrite Ed. unfold itemPubDate.
    apply orElse_trimmed; apply getQueryText_trimmed.
  - rewrite Eg.
    destruct (orElse_cases (getQueryText n (Tag "guid"))
                (JS.orElse (getQueryText n (Tag "id")) (Item.link i)))
      as [[Hne ->]|[_ ->]]; [exact Hne|].
    destruct (orElse_cases (getQueryText n (Tag "id")) (Item.link i))
      as [[Hne ->]|[_ ->]]; assumption.
Qed.

(** X8: a document with a [parsererror] element makes [parseRssXml] throw
    and no other document does; the feed it returns carries the URL it was
    called with and at most one item per [item] or [entry] node, and every
    item has a trimmed, non-empty title, a trimmed date and a non-empty
    guid - the text of [guid], else the text of [id], else the link. *)
Theorem parsed_feed_shape (xmlString url : string) :
  match parseRssXml parseXML xmlString url with
  | Throws e =>
      docQuerySelector (parseXML xmlString) (Tag "parsererror") <> None
      /\ e = Error ("Failed to parse XML for feed: " ++ url)
  | Returns data =>
      docQuerySelector (parseXML xmlString) (Tag "parsererror") = None
      /\ feedUrl data = url
      /\ (List.length (items data)
          <= List.length (itemNodes (parseXML xmlString)))%nat
      /\ forall i, In i (items data) ->
           JS.trim (Item.title i) = Item.title i /\ Item.title i <> ""
           /\ JS.trim (Item.pubDate i) = Item.pubDate i
           /\ Item.guid i <> ""
           /\ exists n,
               In n (itemNodes (parseXML xmlString))
               /\ Item.guid i
                  = JS.orElse (getQueryText n (Tag "guid"))
                      (JS.orElse (getQueryText n (Tag "id")) (Item.link i))
  end.
Proof.
  destruct (parseRssXml parseXML xmlString url) as [data|e] eqn:Hp.
  - pose proof Hp as Hp'. unfold parseRssXml in Hp.
    destruct (docQuerySelector (parseXML xmlString) (Tag "parsererror"));
      [discriminate|].
    injection Hp as <-. cbn [feedUrl items].
    split; [reflexivity|]. split; [reflexivity|]. split.
    + apply flat_map_length_le. intro n. apply pushItem_length.
    + intros i Hi.
      destruct (@parsed_item_wellformed xmlString url _ i Hp' Hi)
        as (Ht & Htt & Hdt & _ & _ & Hg & _).
      repeat split; auto.
      apply in_flat_map in Hi as (n & Hn & Hi). apply pushItem_In in Hi.
      exists n. split; [assumption|]. now apply itemOfNode_guid in Hi.
  - unfold parseRssXml in Hp.
    destruct (docQuerySelector (parseXML xmlString) (Tag "parsererror"));
      [|discriminate].
    injection Hp as <-. split; [discriminate|reflexivity].
Qed.

Lemma feedVia_found (url proxyUrl : string) (data : ParsedFeed) :
  feedVia parseXML fetch url proxyUrl = Some data ->
  exists response xmlString,
    fetch proxyUrl = Some response /\ ok response = true
    /\ text response = Some xmlString /\ xmlString <> ""
    /\ JS.startsWith (JS.trim xmlString) "<" = true
    /\ parseRssXml parseXML xmlString url = Returns data.
Proof.
  unfold feedVia.
  destruct (fetch proxyUrl) as [response|] eqn:Hf; [|discriminate].
  destruct (ok response) eqn:Hok; [|discriminate]. cbn [negb].
  destruct (text response) as [xmlString|] eqn:Ht; [|discriminate].
  destruct (String.eqb_spec xmlString "") as [|Hne]; [discriminate|].
  destruct (JS.startsWith (JS.trim xmlString) "<") eqn:Hs; [|discriminate].
  cbn [negb orb].
  destruct (parseRssXml parseXML xmlString url) as [d|] eqn:Hp;
    [|discriminate].
  intro E. injection E as ->. exists response, xmlString. auto 10.
Qed.

Lemma fetchFeed_found (feed : string * Language) (data : ParsedFeed)
      (lang : Language) :
  fetchFeed parseXML fetch feed = Some (data, lang) ->
  lang = snd feed
  /\ exists proxyUrl response xmlString,
      In proxyUrl (feedProxies (fst feed))
      /\ fetch proxyUrl = Some response /\ ok response = true
      /\ text response = Some xmlString /\ xmlString <> ""
      /\ JS.startsWith (JS.trim xmlString) "<" = true
      /\ parseRssXml parseXML xmlString (fst feed) = Returns data.
Proof.
  unfold fetchFeed.
  destruct (firstSome _) as [d|] eqn:Hd; [|discriminate].
  intro E. injection E as -> <-. split; [reflexivity|].
  apply firstSome_In in Hd. apply in_map_iff in Hd as (proxyUrl & Hvia & Hin).
  apply feedVia_found in Hvia as (response & xmlString & H).
  exists proxyUrl, response, xmlString. tauto.
Qed.

(** X9: a feed counts as fetched only through one of its two proxies, from
    a response with an ok status whose body is not empty, starts with "<"
    (after trimming) and parses; the result carries the language and the
    URL of the feed.  When no proxy answers with an ok status and a body,
    the feed has failed. *)
Theorem fetched_feed_provenance (feed : string * Language) :
  (forall data lang,
      fetchFeed parseXML fetch feed = Some (data, lang) ->
      lang = snd feed /\ feedUrl data = fst feed
      /\ exists proxyUrl response xmlString,
          In proxyUrl (feedProxies (fst feed))
          /\ fetch proxyUrl = Some response /\ ok response = true
          /\ text response = Some xmlString /\ xmlString <> ""
          /\ JS.startsWith (JS.trim xmlString) "<" = true
          /\ parseRssXml parseXML xmlString (fst feed) = Returns data)
  /\ ((forall proxyUrl response,
          In proxyUrl (feedProxies (fst feed)) ->
          fetch proxyUrl = Some response ->
          ok response = false \/ text response = None) ->
      fetchFeed parseXML fetch feed = None).
Proof.
  split.
  - intros data lang Hf. apply fetchFeed_found in Hf as (Hl & H).
    split; [exact Hl|]. split; [|exact H].
    destruct H as (proxyUrl & response & xmlString & _ & _ & _ & _ & _ & _ & Hp).
    unfold parseRssXml in Hp.
    destruct (docQuerySelector _ _); [discriminate|].
    injection Hp as <-. reflexivity.
  - intro Hdown. unfold fetchFeed.
    rewrite firstSome_all_none; [reflexivity|].
    intros o Ho. apply in_map_iff in Ho as (proxyUrl & <- & Hin).
    unfold feedVia.
    destruct (fetch proxyUrl) as [response|] eqn:Hf; [|reflexivity].
    destruct (Hdown proxyUrl response Hin Hf) as [H|H]; rewrite H.
    + reflexivity.
    + now destruct (negb (ok response)).
Qed.

Lemma forEachCollect_inv (A B : Type) (f : A -> outcome (list B))
      (l : list A) (r : list B) :
  forEachCollect f l = Returns r ->
  forall b, In b r ->
            exists a bs, In a l /\ f a = Returns bs /\ In b bs.
Proof.
  revert r. induction l as [|a l IH]; cbn [forEachCollect]; intros r Hr b Hb.
  - injection Hr as <-. destruct Hb.
  - destruct (f a) as [bs|] eqn:Ha; [|discriminate]. cbn [bind] in Hr.
    destruct (forEachCollect f l) as [rest|] eqn:Hl; [|discriminate].
    cbn [bind] in Hr. injection Hr as <-.
    apply in_app_iff in Hb as [Hb|Hb].
    + exists a, bs. cbn [In]. auto.
    + destruct (IH rest eq_refl b Hb) as (a' & bs' & Hin & Hf & Hb').
      exists a', bs'. cbn [In]. auto.
Qed.

(** X10: every article [fetchArticlesFromFeeds] returns was built from an
    item of a feed of the group that was fetched: it has the id (guid),
    title and link of the item, all non-empty, the title trimmed; the name
    [cleanSourceName] gives its feed and the language of its feed; the ISO
    string of the parsed date; a summary of at most 153 characters; and a
    [needsScraping] flag that is set only together with the placeholder
    image of its source. *)
Theorem fetched_articles_wellformed (feeds : list (string * Language))
        (allArticles : list Article.t) :
  fetchArticlesFromFeeds parseHTML parseXML newURL dateTime toISOString fetch
    isWellFormed feeds = Returns allArticles ->
  forall a, In a allArticles ->
    exists feed data item t,
      In feed feeds
      /\ fetchFeed parseXML fetch feed = Some (data, snd feed)
      /\ In item (items data)
      /\ dateTime (Item.pubDate item) = Some t
      /\ Article.id a = Item.guid item /\ Article.id a <> ""
      /\ Article.title a = Item.title item /\ Article.title a <> ""
      /\ Article.link a = Item.link item /\ Article.link a <> ""
      /\ Article.source a = cleanSourceName (feedTitle data) (fst feed)
      /\ Article.language a = snd feed
      /\ Article.publicationDate a = toISOString t
      /\ (String.length (Article.summary a) <= 153)%nat
      /\ (exists flag, Article.needsScraping a = Some flag
                       /\ (flag = true ->
                           placeholderUrl isWellFormed (Article.source a)
                           = Returns (Article.imageUrl a))).
Proof.
  unfold fetchArticlesFromFeeds. intros Hret a Ha.
  destruct (forEachCollect _ (map _ feeds)) as [collected|] eqn:Hc;
    [|discriminate].
  cbn [bind] in Hret.
  assert (Hall : allArticles = collected).
  { destruct (_ && _); [destruct (_ =? _)%nat; [discriminate|]|];
      now injection Hret. }
  subst collected.
  destruct (@forEachCollect_inv _ _ _ _ _ Hc a Ha) as (r & bs & Hr & Hbs & Hab).
  apply in_map_iff in Hr as (feed & <- & Hfeed).
  unfold articlesOfResult in Hbs.
  destruct (fetchFeed parseXML fetch feed) as [[data lang]|] eqn:Hf.
  2:{ injection Hbs as <-. destruct Hab. }
  destruct (@forEachCollect_inv _ _ _ _ _ Hbs a Hab) as (item & one & Hitem & Hone & Ha1).
  pose proof (@fetchFeed_found feed data lang Hf) as (-> & proxyUrl & response & xmlString
                                        & _ & _ & _ & _ & _ & _ & Hparse).
  destruct (@parsed_item_wellformed xmlString (fst feed) data item Hparse
              Hitem)
    as (Ht & Htrim & _ & Hl & _ & Hg & _).
  assert (Hurl : feedUrl data = fst feed).
  { unfold parseRssXml in Hparse. destruct (docQuerySelector _ _);
      [discriminate|]. now injection Hparse as <-. }
  unfold articleOfItem in Hone.
  destruct (_ || _ || _); [injection Hone as <-; destruct Ha1|].
  destruct (extractInitialData parseHTML newURL isWellFormed item
              (cleanSourceName (feedTitle data) (feedUrl data)))
    as [d|] eqn:Hdata; [|discriminate].
  cbn [bind] in Hone.
  destruct (dateTime (Item.pubDate item)) as [t|] eqn:Hdate; [|discriminate].
  injection Hone as <-. destruct Ha1 as [<-|[]].
  exists feed, data, item, t. cbn [Article.id Article.title Article.link
    Article.source Article.language Article.publicationDate Article.summary
    Article.needsScraping Article.imageUrl].
  rewrite (orElse_nonempty _ Hg), Htrim, Hurl.
  repeat split; auto.
  - pose proof (stripHtmlAndTruncate_length parseHTML
                  (JS.orElse (Item.description item) (Item.content item))
                  150). lia.
  - eexists. split; [reflexivity|]. intro Hflag. rewrite <- Hurl.
    exact (proj1 (proj2 (@flag_implies_placeholder parseHTML newURL
                           isWellFormed item _ d Hdata Hflag))).
Qed.

End FeedsMore.

Lemma fetched_articles_wellformed_witness :
  exists feed data item t,
    In feed fiveFeeds
    /\ fetchFeed (fun _ => rssDocument) exampleFetch feed
       = Some (data, snd feed)
    /\ In item (items data)
    /\ exampleDateTime (Item.pubDate item) = Some t
    /\ Article.id firstFetchedArticle = Item.guid item
    /\ Article.id firstFetchedArticle <> ""
    /\ Article.title firstFetchedArticle = Item.title item
    /\ Article.title firstFetchedArticle <> ""
    /\ Article.link firstFetchedArticle = Item.link item
    /\ Article.link firstFetchedArticle <> ""
    /\ Article.source firstFetchedArticle
       = cleanSourceName (feedTitle data) (fst feed)
    /\ Article.language firstFetchedArticle = snd feed
    /\ Article.publicationDate firstFetchedArticle = exampleISOString t
    /\ (String.length (Article.summary firstFetchedArticle) <= 153)%nat
    /\ (exists flag,
           Article.needsScraping firstFetchedArticle = Some flag
           /\ (flag = true ->
               placeholderUrl pairedSurrogates
                 (Article.source firstFetchedArticle)
               = Returns (Article.imageUrl firstFetchedArticle))).
Proof.
  apply (@fetched_articles_wellformed exampleHTML (fun _ => rssDocument)
           absoluteHttpsURL exampleDateTime exampleISOString exampleFetch
           pairedSurrogates fiveFeeds
           (returned
              (fetchArticlesFromFeeds exampleHTML (fun _ => rssDocument)
                 absoluteHttpsURL exampleDateTime exampleISOString
                 exampleFetch pairedSurrogates fiveFeeds))).
  - vm_compute. reflexivity.
  - vm_compute. left. reflexivity.
Defined.

(* ------------------------------------------------------------------ *)
(** ** The commit, continued: favorites, sources and the cache *)

Lemma arrayIncludes_In (l : list string) (x : string) :
  arrayIncludes l x = true <-> In x l.
Proof.
  unfold arrayIncludes. rewrite existsb_exists. split.
  - intros (y & Hy & E). apply String.eqb_eq in E. now subst.
  - intro H. exists x. split; [assumption|apply String.eqb_refl].
Qed.

Lemma arrayIncludes_false (l : list string) (x : string) :
  arrayIncludes l x = false <-> ~ In x l.
Proof.
  rewrite <- arrayIncludes_In. destruct (arrayIncludes l x); split;
    congruence.
Qed.

Lemma StronglySorted_filter (A : Type) (R : A -> A -> Prop)
      (keep : A -> bool) (xs : list A) :
  StronglySorted R xs -> StronglySorted R (filter keep xs).
Proof.
  induction 1 as [|x xs Hs IH Hx]; cbn [filter]; [constructor|].
  destruct (keep x); [|exact IH]. constructor; [exact IH|].
  rewrite Forall_forall in *. intros y Hy. apply filter_In in Hy as [Hy _].
  auto.
Qed.

Lemma Forall_filter (A : Type) (P : A -> Prop) (keep : A -> bool)
      (xs : list A) :
  Forall P xs -> Forall P (filter keep xs).
Proof.
  rewrite !Forall_forall. intros H y Hy. apply filter_In in Hy as [Hy _].
  auto.
Qed.

Lemma mapHas_In (V : Type) (k : string) (m : list (string * V)) :
  mapHas k m = true <-> In k (mapKeys m).
Proof.
  unfold mapHas, mapKeys. rewrite existsb_exists, in_map_iff. split.
  - intros (kv & Hin & E). apply String.eqb_eq in E. eauto.
  - intros (kv & E & Hin). exists kv. split; [assumption|].
    rewrite E. apply String.eqb_refl.
Qed.

Lemma addSource_keys (m : list (string * Language)) (a : Article.t)
      (k : string) :
  In k (mapKeys (addSource m a)) <-> In k (mapKeys m) \/ k = Article.source a.
Proof.
  unfold addSource. destruct (mapHas (Article.source a) m) eqn:Hh.
  - apply mapHas_In in Hh. intuition (subst; auto).
  - rewrite mapKeys_mapSet_In. tauto.
Qed.

Lemma addSource_NoDup (m : list (string * Language)) (a : Article.t) :
  NoDup (mapKeys m) -> NoDup (mapKeys (addSource m a)).
Proof.
  unfold addSource. destruct (mapHas (Article.source a) m); [auto|].
  apply mapSet_NoDup.
Qed.

Lemma addSource_get (m : list (string * Language)) (a : Article.t)
      (k : string) :
  mapGet k (addSource m a)
  = match mapGet k m with
    | Some v => Some v
    | None => if Article.source a =? k then Some (Article.language a)
              else None
    end.
Proof.
  unfold addSource. destruct (mapHas (Article.source a) m) eqn:Hh.
  - destruct (mapGet k m) eqn:Hg; [reflexivity|].
    destruct (String.eqb_spec (Article.source a) k) as [E|_]; [|reflexivity].
    apply mapHas_In in Hh. apply mapGet_None in Hg. subst. contradiction.
  - rewrite mapGet_mapSet.
    destruct (String.eqb_spec (Article.source a) k) as [E|_].
    + assert (Hn : mapGet k m = None).
      { apply mapGet_None. intro Hin. apply mapHas_In in Hin.
        subst. congruence. }
      now rewrite Hn.
    + now destruct (mapGet k m).
Qed.

Lemma sources_fold_keys (l : list Article.t) (m : list (string * Language))
      (k : string) :
  In k (mapKeys (fold_left addSource l m))
  <-> In k (mapKeys m) \/ exists a, In a l /\ Article.source a = k.
Proof.
  revert m. induction l as [|a l IH]; cbn [fold_left]; intro m.
  - split; [auto|]. intros [H|(a & [] & _)]. exact H.
  - rewrite IH, addSource_keys. split.
    + intros [[H|H]|(b & Hb & E)]; eauto.
      * right. exists a. cbn [In]. auto.
      * right. exists b. cbn [In]. auto.
    + intros [H|(b & [<-|Hb] & E)]; eauto.
Qed.

Lemma sources_fold_NoDup (l : list Article.t) (m : list (string * Language)) :
  NoDup (mapKeys m) -> NoDup (mapKeys (fold_left addSource l m)).
Proof.
  revert m. induction l as [|a l IH]; cbn [fold_left]; intros m H; auto.
  apply IH. now apply addSource_NoDup.
Qed.

Lemma sources_fold_get (l : list Article.t) (m : list (string * Language))
      (k : string) :
  mapGet k (fold_left addSource l m)
  = match mapGet k m with
    | Some v => Some v
    | None => option_map Article.language (firstFromSource k l)
    end.
Proof.
  revert m. induction l as [|a l IH]; cbn [fold_left]; intro m.
  - unfold firstFromSource. cbn. now destruct (mapGet k m).
  - rewrite IH, addSource_get. unfold firstFromSource. cbn [find].
    destruct (mapGet k m); [reflexivity|].
    now destruct (Article.source a =? k).
Qed.

Lemma sources_fold_order (l : list Article.t) (earlier later : list string)
      (name : string) :
  mapKeys (fold_left addSource l []) = (earlier ++ name :: later)%list ->
  exists before a after,
    l = (before ++ a :: after)%list
    /\ Article.source a = name
    /\ forall b, In b before -> In (Article.source b) earlier.
Proof.
  revert earlier later. induction l as [|x l IH] using rev_ind;
    intros earlier later E.
  - destruct earlier; discriminate.
  - rewrite fold_left_app in E. cbn [fold_left] in E.
    pose proof (fun b => proj2 (sources_fold_keys l [] (Article.source b)))
      as Hkeys.
    set (m := fold_left addSource l []) in *.
    unfold addSource in E.
    destruct (mapHas (Article.source x) m) eqn:Hh.
    + destruct (IH _ _ E) as (before & a & after & -> & Ha & Hb).
      exists before, a, (after ++ [x])%list.
      rewrite <- app_assoc. auto.
    + assert (Hnew : ~ In (Article.source x) (mapKeys m)).
      { intro Hin. apply mapHas_In in Hin. congruence. }
      rewrite mapKeys_mapSet_new in E by exact Hnew.
      destruct (exists_last (l := name :: later)) as (front & y & Ey);
        [discriminate|].
      rewrite Ey, app_assoc in E. apply app_inj_tail in E as [E Hy].
      destruct front as [|n front]; cbn [app] in Ey.
      * injection Ey as -> _. rewrite app_nil_r in E.
        exists l, x, []. repeat split; auto.
        intros b Hb. rewrite <- E. apply Hkeys. right. now exists b.
      * injection Ey as <- _.
        destruct (IH _ _ E) as (before & a & after & -> & Ha & Hb).
        exists before, a, (after ++ [x])%list.
        rewrite <- app_assoc. auto.
Qed.

Section CommitMore.

Variable dateTime : string -> option Z.

(** X11: a commit prunes the favorites: the favorites afterwards are, in
    their order, exactly the previous favorites whose article is in the
    committed set. *)
Theorem commit_prunes_favorites (now stamp : Z)
        (newArticles : list Article.t) (st : AppState) :
  let st' := updateArticlesAndCache dateTime now stamp newArticles st in
  favorites st'
  = filter (arrayIncludes (map Article.id (articles st'))) (favorites st)
  /\ (forall favId,
         In favId (favorites st')
         <-> In favId (favorites st)
             /\ exists a, In a (articles st') /\ Article.id a = favId)
  /\ (NoDup (favorites st) -> NoDup (favorites st')).
Proof.
  cbv zeta. cbn [favorites articles updateArticlesAndCache].
  set (final := finalArticles dateTime now newArticles).
  assert (E : filter (fun favId => existsb (String.eqb favId)
                                     (map Article.id final)) (favorites st)
              = filter (arrayIncludes (map Article.id final)) (favorites st))
    by reflexivity.
  rewrite E. split; [reflexivity|]. split.
  - intro favId. rewrite filter_In, arrayIncludes_In, in_map_iff.
    split; intros [H (a & Ha1 & Ha2)]; split; eauto.
  - apply NoDup_filter.
Qed.

(** X12: after a commit every favorite that is left counts as available:
    the count shown for the favorites is the number of favorites. *)
Theorem favorites_available_after_commit (now stamp : Z)
        (newArticles : list Article.t) (st : AppState) :
  let st' := updateArticlesAndCache dateTime now stamp newArticles st in
  availableFavoritesCount (articles st') (favorites st')
  = List.length (favorites st').
Proof.
  cbv zeta. cbn [favorites articles updateArticlesAndCache].
  set (final := finalArticles dateTime now newArticles).
  change (filter (fun favId => existsb (String.eqb favId)
                                 (map Article.id final)) (favorites st))
    with (filter (arrayIncludes (map Article.id final)) (favorites st)).
  set (kept := filter (arrayIncludes (map Article.id final)) (favorites st)).
  assert (Hk : filter (arrayIncludes (map Article.id final)) kept = kept).
  { apply filter_all. apply Forall_forall. intros x Hx.
    unfold kept in Hx. now apply filter_In in Hx. }
  unfold availableFavoritesCount.
  destruct final as [|a final'] eqn:Ef.
  - unfold kept. cbn [map]. clear Hk.
    induction (favorites st) as [|x l IH]; [reflexivity|exact IH].
  - destruct kept as [|x kept'] eqn:Ek; [reflexivity|]. now rewrite Hk.
Qed.

(** X13: the source list of a commit names every source of the committed
    articles exactly once, each with the language of its first article, in
    the order in which the sources first appear: the articles that come
    before the first article of a source are of sources listed before it. *)
Theorem commit_lists_sources (now stamp : Z) (newArticles : list Article.t)
        (st : AppState) :
  let st' := updateArticlesAndCache dateTime now stamp newArticles st in
  NoDup (map fst (allSources st'))
  /\ (forall name,
         In name (map fst (allSources st'))
         <-> exists a, In a (articles st') /\ Article.source a = name)
  /\ (forall name lang,
         In (name, lang) (allSources st')
         <-> exists before a after,
             articles st' = (before ++ a :: after)%list
             /\ Article.source a = name /\ Article.language a = lang
             /\ forall b, In b before -> Article.source b <> name)
  /\ (forall earlier name later,
         map fst (allSources st') = (earlier ++ name :: later)%list ->
         exists before a after,
           articles st' = (before ++ a :: after)%list
           /\ Article.source a = name
           /\ forall b, In b before -> In (Article.source b) earlier).
Proof.
  cbv zeta. cbn [allSources articles updateArticlesAndCache].
  set (final := finalArticles dateTime now newArticles).
  change (uniqueSources final) with (fold_left addSource final []).
  assert (Hnd : NoDup (mapKeys (fold_left addSource final [])))
    by (apply sources_fold_NoDup; constructor).
  split; [exact Hnd|]. split; [|split].
  - intro name. change (map fst ?m) with (mapKeys m).
    rewrite sources_fold_keys. cbn. tauto.
  - intros name lang. split.
    + intro Hin. apply mapGet_In in Hin; [|exact Hnd].
      rewrite sources_fold_get in Hin. cbn [mapGet] in Hin.
      destruct (firstFromSource name final) as [a|] eqn:Hf; [|discriminate].
      injection Hin as <-. unfold firstFromSource in Hf.
      apply find_split in Hf as (before & after & E & Ha & Hb).
      exists before, a, after. apply String.eqb_eq in Ha.
      repeat split; auto. intros b Hin. apply String.eqb_neq. auto.
    + intros (before & a & after & E & Hs & Hl & Hb).
      apply mapGet_Some_In. rewrite sources_fold_get. cbn [mapGet].
      unfold firstFromSource. rewrite E, find_app', find_none_all.
      * cbn [find]. rewrite Hs, String.eqb_refl. cbn. now rewrite Hl.
      * intros b Hin. apply String.eqb_neq. auto.
  - intros earlier name later E. exact (@sources_fold_order final _ _ _ E).
Qed.

(** X14: committing a committed set again, at any other instant, only
    prunes it: what is committed is the former set without the articles
    that are by then older than 7 days, in the same order; and the cache
    envelope written is that set with the stamp of the write. *)
Theorem recommit_only_prunes (now stamp now' stamp' : Z)
        (newArticles : list Article.t) (st st2 : AppState) :
  let committed :=
    articles (updateArticlesAndCache dateTime now stamp newArticles st) in
  let st' := updateArticlesAndCache dateTime now' stamp' committed st2 in
  articles st'
  = filter (isRecent dateTime (now' - 7 * 24 * 60 * 60 * 1000)) committed
  /\ cache st' = Some (mkCachedNews (articles st') stamp').
Proof.
  cbv zeta. cbn [articles cache updateArticlesAndCache].
  split; [|reflexivity].
  unfold finalArticles at 1. cbv zeta.
  rewrite (@deduplicate_distinct _ (finalArticles_NoDup dateTime now
                                      newArticles)).
  apply (@sort_of_sorted _ (byDateDescending dateTime) (hasTime dateTime)
           (timeOr0 dateTime) (@byDateDescending_key dateTime)).
  - apply Forall_filter, finalArticles_hasTime.
  - apply StronglySorted_filter, finalArticles_sorted.
Qed.

End CommitMore.

(* ------------------------------------------------------------------ *)
(** ** The filtered view *)

Lemma filter_filter (A : Type) (p q : A -> bool) (l : list A) :
  filter p (filter q l) = filter (fun x => q x && p x) l.
Proof.
  induction l as [|x l IH]; cbn [filter]; [reflexivity|].
  destruct (q x); cbn [filter andb]; [|exact IH].
  destruct (p x); now rewrite IH.
Qed.

Lemma filter_when (A : Type) (b : bool) (p : A -> bool) (l : list A) :
  (if b then filter p l else l) = filter (fun x => negb b || p x) l.
Proof.
  destruct b; cbn [negb orb]; [reflexivity|].
  symmetry. apply filter_all. now apply Forall_forall.
Qed.

Lemma filter_ext' (A : Type) (p q : A -> bool) (l : list A) :
  (forall x, p x = q x) -> filter p l = filter q l.
Proof.
  intro H. induction l as [|x l IH]; cbn [filter]; [reflexivity|].
  now rewrite H, IH.
Qed.

Section ViewMore.

Variable dateTime : string -> option Z.

Lemma filteredArticles_fused (clock : DayClock) (articles : list Article.t)
      (favorites mutedSources : list string) (f : Filters) :
  filteredArticles dateTime clock articles favorites mutedSources f
  = filter (isVisible dateTime clock favorites mutedSources f) articles.
Proof.
  unfold filteredArticles. cbv zeta.
  rewrite (filter_when (negb (showFavoritesOnly f))).
  rewrite (filter_when (negb (searchQuery f =? ""))).
  rewrite (filter_when (showFavoritesOnly f)).
  rewrite (filter_when (negb (sourceFilter f =? "all"))).
  rewrite !negb_involutive, !filter_filter.
  set (base := filter _ articles).
  assert (Hlang : match languageFilter f with
                  | allLanguages => base
                  | onlyLanguage l =>
                      filter (fun article =>
                                sameLanguage (Article.language article) l)
                             base
                  end
                  = filter (fun article =>
                              match languageFilter f with
                              | allLanguages => true
                              | onlyLanguage l =>
                                  sameLanguage (Article.language article) l
                              end) base).
  { destruct (languageFilter f); [|reflexivity].
    symmetry. apply filter_all. now apply Forall_forall. }
  rewrite Hlang.
  set (langd := filter _ base).
  transitivity (filter (inTimeRange dateTime clock (timeFilter f)) langd).
  { destruct (timeFilter f); try reflexivity.
    symmetry. apply filter_all. now apply Forall_forall. }
  unfold langd, base. rewrite !filter_filter.
  apply filter_ext'. intro a. unfold isVisible.
  now rewrite !andb_assoc.
Qed.

(** X15: the filtered view is the article list with the articles that fail
    one of the active tests taken out: the articles shown keep the order of
    the list (so a list sorted by date stays sorted), none is shown twice
    unless it is twice in the list, and nothing is shown that is not in the
    list. *)
Theorem filtered_view_keeps_order (clock : DayClock)
        (articles : list Article.t) (favorites mutedSources : list string)
        (f : Filters) :
  let shown :=
    filteredArticles dateTime clock articles favorites mutedSources f in
  shown = filter (isVisible dateTime clock favorites mutedSources f) articles
  /\ (forall a, In a shown -> In a articles)
  /\ (NoDup (map Article.id articles) -> NoDup (map Article.id shown))
  /\ (forall R : Article.t -> Article.t -> Prop,
         StronglySorted R articles -> StronglySorted R shown).
Proof.
  cbv zeta. rewrite filteredArticles_fused.
  split; [reflexivity|]. split; [|split].
  - intros a Ha. now apply filter_In in Ha.
  - apply NoDup_map_filter.
  - intros R. apply StronglySorted_filter.
Qed.

(** X16: outside the favorites view no article of a muted source is shown;
    in the favorites view only favorites are shown and muting a source
    hides nothing. *)
Theorem muting_and_favorites_view (clock : DayClock)
        (articles : list Article.t) (favorites mutedSources : list string)
        (f : Filters) :
  (showFavoritesOnly f = false ->
   forall a,
     In a (filteredArticles dateTime clock articles favorites mutedSources f)
     -> ~ In (Article.source a) mutedSources)
  /\ (showFavoritesOnly f = true ->
      filteredArticles dateTime clock articles favorites mutedSources f
      = filteredArticles dateTime clock articles favorites [] f
      /\ forall a,
          In a (filteredArticles dateTime clock articles favorites
                  mutedSources f)
          -> In (Article.id a) favorites).
Proof.
  rewrite !filteredArticles_fused. split.
  - intros Hfav a Ha. apply filter_In in Ha as [_ Ha].
    unfold isVisible in Ha. rewrite Hfav in Ha. cbn [orb] in Ha.
    repeat (apply andb_true_iff in Ha as [Ha _]).
    apply negb_true_iff in Ha. now apply arrayIncludes_false.
  - intros Hfav. split.
    + apply filter_ext'. intro a. unfold isVisible. now rewrite Hfav.
    + intros a Ha. apply filter_In in Ha as [_ Ha].
      unfold isVisible in Ha. rewrite Hfav in Ha. cbn [orb negb] in Ha.
      repeat (apply andb_true_iff in Ha as [Ha ?]).
      now apply arrayIncludes_In.
Qed.

(** X17: the time filters never show an article whose date does not parse,
    and no article passes both the "today" and the "yesterday" filter. *)
Theorem time_filters_exclusive (clock : DayClock) (a : Article.t) :
  (dateTime (Article.publicationDate a) = None ->
   forall t, inTimeRange dateTime clock t a = true -> t = allTime)
  /\ (inTimeRange dateTime clock today a = true ->
      inTimeRange dateTime clock yesterday a = false).
Proof.
  unfold inTimeRange. split.
  - intros Hnone t. rewrite Hnone. destruct t; cbn; congruence.
  - destruct (dateTime (Article.publicationDate a)) as [v|]; cbn;
      [|discriminate].
    intro H. apply Z.leb_le in H. apply andb_false_iff. right.
    apply Z.ltb_ge. exact H.
Qed.

End ViewMore.

(* ------------------------------------------------------------------ *)
(** ** Pages *)

(** X18: page [p] shows the first [32 * p] filtered articles, all of them
    when there are no more; a next page starts with the articles of the
    page before; and the "Load More" button is there exactly when articles
    are left to show. *)
Theorem pages_are_prefixes (filtered : list Article.t) (page : nat) :
  List.length (articlesToShow filtered page)
  = Nat.min (page * 32) (List.length filtered)
  /\ filtered
     = (articlesToShow filtered page ++ skipn (page * 32) filtered)%list
  /\ articlesToShow (articlesToShow filtered (S page)) page
     = articlesToShow filtered page
  /\ (showsLoadMore filtered page = true
      <-> (page * 32 < List.length filtered)%nat)
  /\ (showsLoadMore filtered page = false
      -> articlesToShow filtered page = filtered).
Proof.
  unfold showsLoadMore, articlesToShow, ARTICLES_PER_PAGE.
  repeat split.
  - apply length_firstn.
  - symmetry. apply firstn_skipn.
  - rewrite firstn_firstn. f_equal. lia.
  - rewrite length_firstn. intro H. apply Nat.ltb_lt in H. lia.
  - rewrite length_firstn. intro H. apply Nat.ltb_lt. lia.
  - rewrite length_firstn. intro H. apply Nat.ltb_ge in H.
    apply firstn_all2. lia.
Qed.

(* ------------------------------------------------------------------ *)
(** ** Search *)

Lemma startsWith_mapChars (f : ascii -> ascii) (p s : string) :
  JS.startsWith s p = true ->
  JS.startsWith (JS.mapChars f s) (JS.mapChars f p) = true.
Proof.
  revert s. induction p as [|b p IH]; intros s H; [reflexivity|].
  destruct s as [|a s]; [discriminate|].
  cbn [JS.startsWith JS.mapChars] in *.
  apply andb_true_iff in H as [Hab Hs].
  apply Ascii.eqb_eq in Hab. subst b.
  rewrite Ascii.eqb_refl. cbn [andb]. now apply IH.
Qed.

Lemma includes_mapChars (f : ascii -> ascii) (s p : string) :
  JS.includes s p = true ->
  JS.includes (JS.mapChars f s) (JS.mapChars f p) = true.
Proof.
  induction s as [|a s IH]; intro H.
  - cbn [JS.includes JS.mapChars] in *. rewrite orb_false_r in H.
    rewrite orb_false_r.
    change EmptyString with (JS.mapChars f EmptyString).
    now apply startsWith_mapChars.
  - cbn [JS.includes] in H. apply orb_true_iff in H as [H|H].
    + change (JS.includes (JS.mapChars f (String a s)) (JS.mapChars f p))
        with (JS.startsWith (JS.mapChars f (String a s)) (JS.mapChars f p)
              || JS.includes (JS.mapChars f s) (JS.mapChars f p)).
      now rewrite (@startsWith_mapChars f _ _ H).
    + change (JS.includes (JS.mapChars f (String a s)) (JS.mapChars f p))
        with (JS.startsWith (JS.mapChars f (String a s)) (JS.mapChars f p)
              || JS.includes (JS.mapChars f s) (JS.mapChars f p)).
      rewrite (IH H). apply orb_true_r.
Qed.

(** X19: the search ignores letter case.  An article of the list that is not
    muted and whose title or summary contains the words typed, in whatever
    case they are written there, is shown when no other filter is set. *)
Theorem search_ignores_case (dateTime : string -> option Z)
        (clock : DayClock) (articles : list Article.t)
        (favorites mutedSources : list string)
        (typed written : string) (a : Article.t) :
  allChars isAscii typed = true ->
  JS.toLowerCase written = JS.toLowerCase typed ->
  In a articles ->
  ~ In (Article.source a) mutedSources ->
  JS.includes (Article.title a) written = true
  \/ JS.includes (Article.summary a) written = true ->
  In a (filteredArticles dateTime clock articles favorites mutedSources
          (searchFilters typed)).
Proof.
  intros _ Hcase Hin Hmuted Hfound.
  rewrite filteredArticles_fused. apply filter_In. split; [exact Hin|].
  unfold isVisible, searchFilters.
  cbn [showFavoritesOnly searchQuery sourceFilter languageFilter timeFilter
       orb negb].
  apply arrayIncludes_false in Hmuted. rewrite Hmuted.
  assert (Hsearch : matchesSearch (JS.toLowerCase typed) a = true).
  { unfold matchesSearch. rewrite <- Hcase. unfold JS.toLowerCase.
    destruct Hfound as [H|H];
      rewrite (@includes_mapChars JS.toLowerChar _ _ H);
      rewrite ?orb_true_r; reflexivity. }
  rewrite Hsearch, orb_true_r. reflexivity.
Qed.

Lemma search_ignores_case_witness :
  In firstFetchedArticle
     (filteredArticles exampleDateTime (mkDayClock 0 0 0)
        [firstFetchedArticle] [] ["IGN"] (searchFilters "fIrS")).
Proof.
  apply (@search_ignores_case exampleDateTime (mkDayClock 0 0 0)
           [firstFetchedArticle] [] ["IGN"] "fIrS" "Firs"
           firstFetchedArticle).
  - reflexivity.
  - reflexivity.
  - left. reflexivity.
  - intros [H|[]]. discriminate H.
  - left. reflexivity.
Defined.

(* ------------------------------------------------------------------ *)
(** ** Favorites and muted sources *)


Lemma filter_other_removes (x : string) (l : list string) :
  ~ In x (filter (fun s => negb (s =? x)) l).
Proof.
  intro H. apply filter_In in H as [_ H].
  now rewrite String.eqb_refl in H.
Qed.




(** X21: a click on a favorite takes every occurrence of the article out of
    the favorites and leaves the other favorites in their order. *)
Theorem favorite_removed (id : string) (favorites prev : list string) :
  In id favorites ->
  let removed := handleToggleFavorite id favorites prev in
  ~ In id removed
  /\ (forall x, x <> id -> In x removed <-> In x prev)
  /\ (forall R : string -> string -> Prop,
         StronglySorted R prev -> StronglySorted R removed).
Proof.
  intros Hfav. cbv zeta. unfold handleToggleFavorite.
  apply arrayIncludes_In in Hfav. rewrite Hfav.
  split; [apply filter_other_removes|]. split.
  - intros x Hx. rewrite filter_In. split; [tauto|].
    intro H. split; [exact H|]. apply negb_true_iff.
    now apply String.eqb_neq.
  - intro R. apply StronglySorted_filter.
Qed.

Lemma favorite_removed_witness :
  let removed := handleToggleFavorite "a1" ["a1"; "a2"] ["a1"; "a2"; "a1"] in
  ~ In "a1" removed
  /\ (forall x, x <> "a1" -> In x removed <-> In x ["a1"; "a2"; "a1"])
  /\ (forall R : string -> string -> Prop,
         StronglySorted R ["a1"; "a2"; "a1"] -> StronglySorted R removed).
Proof.
  apply (@favorite_removed "a1" ["a1"; "a2"] ["a1"; "a2"; "a1"]).
  left. reflexivity.
Defined.


(* ------------------------------------------------------------------ *)
(** ** Muting a language in the settings *)

Lemma setAdd_fold_In (l acc : list string) (x : string) :
  In x (fold_left setAdd l acc) <-> In x acc \/ In x l.
Proof.
  revert acc. induction l as [|y l IH]; intro acc; cbn [fold_left].
  - cbn [In]. tauto.
  - rewrite IH. unfold setAdd.
    destruct (arrayIncludes acc y) eqn:E; cbn [In].
    + apply arrayIncludes_In in E. split; [tauto|].
      intros [H|[H|H]]; subst; tauto.
    + rewrite in_app_iff. cbn [In]. tauto.
Qed.

Lemma setAdd_fold_NoDup (l acc : list string) :
  NoDup acc -> NoDup (fold_left setAdd l acc).
Proof.
  revert acc. induction l as [|y l IH]; intros acc H; cbn [fold_left];
    [exact H|].
  apply IH. unfold setAdd. destruct (arrayIncludes acc y) eqn:E; [exact H|].
  apply arrayIncludes_false in E.
  apply NoDup_app; [exact H|repeat constructor; intros []|].
  intros z Hz [Hy|[]]. subst. now apply E.
Qed.

Lemma setAdd_fold_known (l acc : list string) :
  (forall x, In x l -> In x acc) -> fold_left setAdd l acc = acc.
Proof.
  revert acc. induction l as [|y l IH]; intros acc H; cbn [fold_left];
    [reflexivity|].
  assert (E : setAdd acc y = acc).
  { unfold setAdd.
    now rewrite (proj2 (arrayIncludes_In acc y) (H y (or_introl eq_refl))). }
  rewrite E. apply IH. intros x Hx. apply H. now right.
Qed.

Lemma setAdd_fold_extends (l acc : list string) :
  exists rest, fold_left setAdd l acc = (acc ++ rest)%list
               /\ forall x, In x rest -> In x l /\ ~ In x acc.
Proof.
  revert acc. induction l as [|y l IH]; intro acc; cbn [fold_left].
  - exists []. split; [now rewrite app_nil_r|intros x []].
  - destruct (IH (setAdd acc y)) as (rest & E & Hrest). unfold setAdd in *.
    destruct (arrayIncludes acc y) eqn:Hy.
    + exists rest. split; [exact E|]. intros x Hx.
      destruct (Hrest x Hx). split; [now right|assumption].
    + apply arrayIncludes_false in Hy.
      exists (y :: rest). split.
      * rewrite E, <- app_assoc. reflexivity.
      * intros x [Hx|Hx]; [subst; split; [now left|assumption]|].
        destruct (Hrest x Hx) as [Hl Hacc]. split; [now right|].
        intro H. apply Hacc. apply in_or_app. now left.
Qed.

Lemma setAdd_fold_NoDup_self (l : list string) :
  NoDup l -> fold_left setAdd l [] = l.
Proof.
  intro H.
  assert (G : forall acc, NoDup (acc ++ l) ->
                          fold_left setAdd l acc = (acc ++ l)%list).
  { clear H. induction l as [|y l IH]; intros acc H; cbn [fold_left].
    - now rewrite app_nil_r.
    - assert (Hy : arrayIncludes acc y = false).
      { apply arrayIncludes_false. intro Hy.
        apply NoDup_remove_2 in H. apply H. apply in_or_app. now left. }
      unfold setAdd at 2. rewrite Hy.
      rewrite IH; rewrite <- app_assoc; [reflexivity|exact H]. }
  apply (G []). exact H.
Qed.

Lemma groupOf_names (allSources sources : list (string * Language))
      (language : Language) (s : string * Language) :
  groupOf allSources sources language -> In s sources ->
  In (fst s) (languageSourceNames allSources language).
Proof.
  intros Hg Hs. destruct (Hg s Hs) as [Hall Hlang].
  unfold languageSourceNames. apply in_map. apply filter_In. now split.
Qed.

Lemma mutedCount_all (sources : list (string * Language))
      (mutedSources : list string) :
  (forall s, In s sources -> In (fst s) mutedSources) ->
  mutedCount sources mutedSources = List.length sources.
Proof.
  intro H. unfold mutedCount. f_equal. apply filter_all.
  apply Forall_forall. intros s Hs. apply arrayIncludes_In. now apply H.
Qed.

Lemma mutedCount_none (sources : list (string * Language))
      (mutedSources : list string) :
  (forall s, In s sources -> ~ In (fst s) mutedSources) ->
  mutedCount sources mutedSources = 0%nat.
Proof.
  intro H. unfold mutedCount.
  induction sources as [|s l IH]; [reflexivity|]. cbn [filter].
  rewrite (proj2 (arrayIncludes_false mutedSources (fst s))
                 (H s (or_introl eq_refl))).
  apply IH. intros x Hx. apply H. now right.
Qed.

Lemma mute_language_covers (allSources sources : list (string * Language))
      (language : Language) (prev : list string) :
  groupOf allSources sources language ->
  mutedCount sources (handleToggleLanguage allSources language true prev)
  = List.length sources.
Proof.
  intro Hg. apply mutedCount_all. intros s Hs.
  unfold handleToggleLanguage, uniqueValues. apply setAdd_fold_In. right.
  apply in_or_app. right. exact (@groupOf_names _ _ _ _ Hg Hs).
Qed.

Lemma unmute_language_clears (allSources sources : list (string * Language))
      (language : Language) (prev : list string) :
  groupOf allSources sources language ->
  mutedCount sources (handleToggleLanguage allSources language false prev)
  = 0%nat.
Proof.
  intro Hg. apply mutedCount_none. intros s Hs H.
  unfold handleToggleLanguage in H. apply filter_In in H as [_ H].
  apply negb_true_iff in H. apply arrayIncludes_false in H.
  apply H. exact (@groupOf_names _ _ _ _ Hg Hs).
Qed.

Lemma mutedCount_le (sources : list (string * Language))
      (mutedSources : list string) :
  (mutedCount sources mutedSources <= List.length sources)%nat.
Proof. unfold mutedCount. apply filter_length_le. Qed.

(** X23: a click on the check box of a language group flips it: when the
    box was not checked (not all sources of the group muted) every source of
    the group is muted afterwards, when it was checked none is; and after a
    click the box is never in the in-between state. *)
Theorem language_checkbox_toggles
        (allSources sources : list (string * Language))
        (first : string * Language) (mutedSources : list string) :
  groupOf allSources sources (snd first) ->
  hd_error sources = Some first ->
  let clicked := handleToggle allSources sources mutedSources in
  allForLangMuted sources clicked
  = negb (allForLangMuted sources mutedSources)
  /\ someForLangMuted sources clicked = false
  /\ (allForLangMuted sources mutedSources = true ->
      forall s, In s sources -> ~ In (fst s) clicked)
  /\ (allForLangMuted sources mutedSources = false ->
      forall s, In s sources -> In (fst s) clicked).
Proof.
  intros Hg Hfirst. destruct sources as [|s0 rest]; [discriminate|].
  cbn [hd_error] in Hfirst. injection Hfirst as ->.
  cbv zeta. unfold handleToggle.
  destruct (allForLangMuted (first :: rest) mutedSources) eqn:Eall;
    cbn [negb].
  - pose proof (@unmute_language_clears _ _ _ mutedSources Hg) as Hc.
    unfold allForLangMuted, someForLangMuted. rewrite Hc.
    repeat split; try discriminate.
    intros _ s Hs H.
    unfold handleToggleLanguage in H. apply filter_In in H as [_ H].
    apply negb_true_iff in H. apply arrayIncludes_false in H.
    apply H. exact (@groupOf_names _ _ _ _ Hg Hs).
  - pose proof (@mute_language_covers _ _ _ mutedSources Hg) as Hc.
    unfold someForLangMuted, allForLangMuted. rewrite Hc.
    rewrite Nat.eqb_refl. cbn [List.length Nat.ltb Nat.leb andb negb].
    repeat split; try discriminate.
    intros _ s Hs.
    unfold handleToggleLanguage, uniqueValues. apply setAdd_fold_In. right.
    apply in_or_app. right. exact (@groupOf_names _ _ _ _ Hg Hs).
Qed.

Lemma setAdd_fold_order (l earlier later : list string) (x : string) :
  fold_left setAdd l [] = (earlier ++ x :: later)%list ->
  exists before after,
    l = (before ++ x :: after)%list
    /\ forall y, In y before -> In y earlier.
Proof.
  revert earlier later. induction l as [|z l IH] using rev_ind;
    intros earlier later E.
  - destruct earlier; discriminate.
  - rewrite fold_left_app in E. cbn [fold_left] in E.
    pose proof (fun y => proj2 (setAdd_fold_In l [] y)) as Hin.
    set (m := fold_left setAdd l []) in *.
    unfold setAdd in E. destruct (arrayIncludes m z) eqn:Hz.
    + destruct (IH _ _ E) as (before & after & -> & Hb).
      exists before, (after ++ [z])%list. rewrite <- app_assoc. auto.
    + destruct (exists_last (l := x :: later)) as (front & y & Ey);
        [discriminate|].
      rewrite Ey, app_assoc in E. apply app_inj_tail in E as [E Hy].
      destruct front as [|n front]; cbn [app] in Ey.
      * injection Ey as -> _. rewrite app_nil_r in E.
        exists l, []. split; [now rewrite Hy|].
        intros w Hw. rewrite <- E. apply Hin. now right.
      * injection Ey as <- _.
        destruct (IH _ _ E) as (before & after & -> & Hb).
        exists before, (after ++ [z])%list. rewrite <- app_assoc. auto.
Qed.

(** X24: muting a language gives the muted sources without repetition: the
    ones that were muted, in the order of their first occurrence, followed
    only by sources of that language that were not muted before.  Unmuting
    the language afterwards gives the former list without its repetitions
    and without the sources of that language; it is the list as it was when
    that list had no repetition and no source of the language. *)
Theorem language_mute_round_trip (allSources : list (string * Language))
        (language : Language) (prev : list string) :
  let names := languageSourceNames allSources language in
  let muted := handleToggleLanguage allSources language true prev in
  let unmuted := handleToggleLanguage allSources language false muted in
  NoDup muted
  /\ (exists added,
         muted = (uniqueValues prev ++ added)%list
         /\ forall x, In x added -> In x names /\ ~ In x prev)
  /\ (forall x, In x (uniqueValues prev) <-> In x prev)
  /\ (forall earlier x later,
         uniqueValues prev = (earlier ++ x :: later)%list ->
         exists before after,
           prev = (before ++ x :: after)%list
           /\ forall y, In y before -> In y earlier)
  /\ (NoDup prev -> uniqueValues prev = prev)
  /\ unmuted
     = filter (fun s => negb (arrayIncludes names s)) (uniqueValues prev)
  /\ (NoDup prev -> (forall x, In x prev -> ~ In x names) ->
      unmuted = prev).
Proof.
  cbv zeta. unfold handleToggleLanguage.
  set (names := languageSourceNames allSources language).
  assert (Hsame : forall x, In x (uniqueValues prev) <-> In x prev).
  { intro x. unfold uniqueValues. rewrite setAdd_fold_In. cbn [In]. tauto. }
  assert (Hmuted : exists added,
             uniqueValues (prev ++ names)
             = (uniqueValues prev ++ added)%list
             /\ forall x, In x added -> In x names /\ ~ In x prev).
  { unfold uniqueValues at 1. rewrite fold_left_app.
    destruct (setAdd_fold_extends names (fold_left setAdd prev []))
      as (added & E & Hadded).
    exists added. split; [exact E|]. intros x Hx.
    destruct (Hadded x Hx) as [Hn Hp]. split; [exact Hn|].
    intro H. apply Hp. now apply Hsame. }
  assert (Hun : filter (fun s => negb (arrayIncludes names s))
                  (uniqueValues (prev ++ names))
                = filter (fun s => negb (arrayIncludes names s))
                    (uniqueValues prev)).
  { destruct Hmuted as (added & -> & Hadded). rewrite filter_app.
    assert (H2 : filter (fun s => negb (arrayIncludes names s)) added = []).
    { induction added as [|x l IH]; [reflexivity|]. cbn [filter].
      rewrite (proj2 (arrayIncludes_In names x)
                 (proj1 (Hadded x (or_introl eq_refl)))).
      cbn [negb]. apply IH. intros y Hy. apply Hadded. now right. }
    rewrite H2. apply app_nil_r. }
  split; [apply setAdd_fold_NoDup; constructor|].
  split; [exact Hmuted|]. split; [exact Hsame|].
  split; [intros earlier x later E; exact (@setAdd_fold_order _ _ _ _ E)|].
  split; [apply setAdd_fold_NoDup_self|].
  split; [exact Hun|].
  intros Hnd Hdisj. rewrite Hun.
  unfold uniqueValues. rewrite (@setAdd_fold_NoDup_self _ Hnd).
  apply filter_all. apply Forall_forall. intros x Hx.
  apply negb_true_iff. apply arrayIncludes_false. now apply Hdisj.
Qed.

Lemma language_checkbox_toggles_witness :
  let clicked := handleToggle threeSources germanGroup ["GameStar"] in
  allForLangMuted germanGroup clicked
  = negb (allForLangMuted germanGroup ["GameStar"])
  /\ someForLangMuted germanGroup clicked = false
  /\ (allForLangMuted germanGroup ["GameStar"] = true ->
      forall s, In s germanGroup -> ~ In (fst s) clicked)
  /\ (allForLangMuted germanGroup ["GameStar"] = false ->
      forall s, In s germanGroup -> In (fst s) clicked).
Proof.
  apply (@language_checkbox_toggles threeSources germanGroup ("GamePro", de)
           ["GameStar"]).
  - intros s [<-|[<-|[]]]; split; cbn; auto.
  - reflexivity.
Defined.

Lemma language_mute_round_trip_witness :
  handleToggleLanguage threeSources de false
    (handleToggleLanguage threeSources de true ["IGN"])
  = ["IGN"].
Proof.
  apply (proj2 (proj2 (proj2 (proj2 (proj2 (proj2
           (@language_mute_round_trip threeSources de ["IGN"]))))))).
  - constructor; [intros []|constructor].
  - intros x [<-|[]] H. cbn in H. destruct H as [H|[H|[]]]; discriminate H.
Defined.

(* ------------------------------------------------------------------ *)
(** ** Loading the news *)

Section LoadMore.

Variable dateTime : string -> option Z.


Lemma isCacheStale_true (nowCheck : Z) (cachedData : option CachedData) :
  isCacheStale nowCheck cachedData = true
  <-> forall d, cachedData = Some d ->
                exists t, dataTimestamp d = Some t
                          /\ (CACHE_DURATION < nowCheck - t)%Z.
Proof.
  unfold isCacheStale. destruct cachedData as [d|].
  - destruct (dataTimestamp d) as [t|] eqn:Et.
    + rewrite Z.ltb_lt. split.
      * intros H d' E. injection E as <-. exists t. now rewrite Et.
      * intro H. destruct (H d eq_refl) as (t' & E & Ht).
        rewrite Et in E. now injection E as <-.
    + split; [discriminate|]. intro H.
      destruct (H d eq_refl) as (t' & E & _). rewrite Et in E. discriminate.
  - split; [|reflexivity]. intros _ d E. discriminate.
Qed.

Lemma loadNewsBegin_cases (isManualRefresh : bool) (nowCheck : Z)
      (t : CommitTime) (ls : LoadState) :
  loadNewsBegin dateTime isManualRefresh nowCheck t ls
  = let stale := isCacheStale nowCheck (cachedDataOf ls) in
    if isInitialLoad ls
    then
      if stale
      then startFetch isManualRefresh true true
             (setIsInitialLoad false (cleared ls))
      else
        match cachedDataOf ls with
        | Some d =>
            match dataArticles d with
            | Some cached =>
                startFetch isManualRefresh false false
                  (setIsBlockingLoading false
                     (commitAndScrape dateTime t cached cached
                        (setIsInitialLoad false (cleared ls))))
            | None =>
                (setIsInitialLoad false (cleared ls), throws_type_error)
            end
        | None =>
            startFetch isManualRefresh true true
              (setIsInitialLoad false (cleared ls))
        end
    else startFetch isManualRefresh stale false (cleared ls).
Proof.
  destruct ls as [a fo b r e ini s].
  unfold loadNewsBegin, cleared, cachedDataOf.
  cbn [setError foreign appState isInitialLoad error isRefreshing
       isBlockingLoading scraperCalls].
  destruct fo as [[| |arts ts]|];
    cbn [removeCache isInitialLoad isCacheStale negb dataTimestamp
         dataArticles]; destruct ini; try reflexivity.
  - destruct ts as [ts|]; [|reflexivity].
    destruct (CACHE_DURATION <? nowCheck - ts)%Z; reflexivity.
  - destruct (cache a) as [c|]; cbn [isCacheStale dataTimestamp];
      [|reflexivity].
    destruct (CACHE_DURATION <? nowCheck - timestamp c)%Z; reflexivity.
Qed.






Lemma promiseAll_throws (first : bool)
      (primary secondary : outcome (list Article.t)) :
  (exists e, primary = Throws e) \/ (exists e, secondary = Throws e) ->
  exists e, promiseAll first primary secondary = Throws e
            /\ (primary = Throws e \/ secondary = Throws e).
Proof.
  intros [[e ->]|[e ->]].
  - destruct secondary as [s|e2]; cbn [promiseAll].
    + exists e. auto.
    + destruct first; [exists e|exists e2]; auto.
  - destruct primary as [p|e1]; cbn [promiseAll].
    + exists e. auto.
    + destruct first; [exists e1|exists e]; auto.
Qed.

(** X27: when one of the two groups fails during a refresh that does not
    block, the articles of the other group are dropped with it: the
    articles, the favorites, the sources and the cache stay as they are and
    no scraper is started; the error is shown only when no article is
    there. *)
Theorem failed_refresh_keeps_articles (first : bool)
        (primary secondary : outcome (list Article.t)) (t : CommitTime)
        (ls : LoadState) :
  (exists e, primary = Throws e) \/ (exists e, secondary = Throws e) ->
  let result :=
    loadNewsSettle dateTime false (promiseAll first primary secondary) t ls in
  snd result = settled
  /\ appState (fst result) = appState ls
  /\ scraperCalls (fst result) = scraperCalls ls
  /\ isRefreshing (fst result) = false
  /\ isBlockingLoading (fst result) = isBlockingLoading ls
  /\ (articles (appState ls) <> [] -> error (fst result) = error ls)
  /\ (articles (appState ls) = [] ->
      exists e, error (fst result) = Some (messageOf e)
                /\ (primary = Throws e \/ secondary = Throws e)).
Proof.
  intro H. destruct (promiseAll_throws first H) as (e & -> & He).
  cbv zeta. unfold loadNewsSettle. cbn [fst snd].
  destruct (articles (appState ls)) as [|a l] eqn:E;
    cbn [List.length Nat.eqb finallyOf setIsRefreshing setError appState
         scraperCalls isRefreshing isBlockingLoading error];
    repeat split; try congruence.
  exists e. auto.
Qed.

Lemma loadNewsBegin_blocking (isManualRefresh : bool) (nowCheck : Z)
      (t : CommitTime) (ls : LoadState) :
  isInitialLoad ls = true ->
  isCacheStale nowCheck (cachedDataOf ls) = true ->
  loadNewsBegin dateTime isManualRefresh nowCheck t ls
  = (setIsInitialLoad false (cleared ls), awaits_feeds true).
Proof.
  intros Hini Hstale. rewrite loadNewsBegin_cases. cbv zeta.
  rewrite Hini, Hstale. unfold startFetch.
  now rewrite andb_false_r.
Qed.

Lemma cleared_fields (ls : LoadState) :
  articles (appState (cleared ls)) = articles (appState ls)
  /\ scraperCalls (cleared ls) = scraperCalls ls
  /\ isBlockingLoading (cleared ls) = isBlockingLoading ls
  /\ isInitialLoad (cleared ls) = isInitialLoad ls
  /\ error (cleared ls) = None
  /\ foreign (cleared ls) <> Some unparsable.
Proof.
  unfold cleared. destruct ls as [a fo b r e ini s].
  destruct fo as [[| |arts ts]|]; cbn; repeat split; discriminate.
Qed.

(** X28: when the first call finds no cache of at most five minutes and the
    fetch fails, the static cache decides: its articles are committed when
    it answers with [ok] and a body that parses; otherwise the message of
    the failure is shown and the articles stay as they were, the ones of an
    older cache are not shown.  In both cases the blocking spinner goes. *)
Theorem failed_first_load_falls_back (isManualRefresh : bool)
        (i : LoadInputs) (ls : LoadState) (e : exn) :
  isInitialLoad ls = true ->
  (forall d, cachedDataOf ls = Some d ->
             exists ts, dataTimestamp d = Some ts
                        /\ (300000 < nowCheck i - ts)%Z) ->
  promiseAll (primaryRejectsFirst i) (primary i) (secondary i) = Throws e ->
  let ls' := fst (loadNews dateTime isManualRefresh i ls) in
  snd (loadNews dateTime isManualRefresh i ls) = fulfilled
  /\ isBlockingLoading ls' = false
  /\ isRefreshing ls' = false
  /\ match static i with
     | staticResponse true (Some fallbackArticles) =>
         articles (appState ls')
         = finalArticles dateTime (pruneNow (staticCommit i))
             fallbackArticles
         /\ error ls' = None
         /\ scraperCalls ls' = fallbackArticles :: scraperCalls ls
     | _ =>
         articles (appState ls') = articles (appState ls)
         /\ error ls' = Some (messageOf e)
         /\ scraperCalls ls' = scraperCalls ls
     end.
Proof.
  intros Hini Hstale Hthrows.
  change 300000%Z with CACHE_DURATION in Hstale.
  apply isCacheStale_true in Hstale.
  cbv zeta. unfold loadNews.
  rewrite (@loadNewsBegin_blocking isManualRefresh (nowCheck i)
             (cacheCommit i) ls Hini Hstale).
  rewrite Hthrows. unfold loadNewsSettle, loadNewsStatic. cbn [fst snd].
  destruct (cleared_fields ls) as (Ha & Hs & _ & _ & He & _).
  destruct (static i) as [|[|] [fallbackArticles|]];
    cbn [finallyOf setIsRefreshing setIsBlockingLoading setError
         setIsInitialLoad commitAndScrape appState scraperCalls
         isRefreshing isBlockingLoading error articles
         isInitialLoad updateArticlesAndCache];
    rewrite ?Ha, ?Hs, ?He; repeat split.
Qed.

Lemma startFetch_fields (isManualRefresh stale blocking : bool)
      (ls : LoadState) :
  let r := startFetch isManualRefresh stale blocking ls in
  isInitialLoad (fst r) = isInitialLoad ls
  /\ foreign (fst r) = foreign ls
  /\ isBlockingLoading (fst r) = isBlockingLoading ls
  /\ (snd r = returned_early \/ snd r = awaits_feeds blocking).
Proof.
  cbv zeta. unfold startFetch.
  destruct (negb isManualRefresh && negb stale); cbn [fst snd];
    [repeat split; auto|].
  destruct (negb blocking); cbn; repeat split; auto.
Qed.





(** X30: when both groups return, the articles shown afterwards are fetched
    ones or, in a refresh that does not block, articles shown before whose
    id was not fetched again: the fetched version of an article replaces
    the one shown.  A blocking load shows fetched articles only.  The
    scraper is started on the fetched articles and the error is left as it
    is. *)
Theorem fetched_version_replaces_shown (isCurrentlyBlocking : bool)
        (primary secondary : list Article.t) (t : CommitTime)
        (ls : LoadState) :
  let result :=
    loadNewsSettle dateTime isCurrentlyBlocking
      (Returns (primary, secondary)) t ls in
  snd result = settled
  /\ error (fst result) = error ls
  /\ isRefreshing (fst result) = false
  /\ scraperCalls (fst result)
     = (primary ++ secondary)%list :: scraperCalls ls
  /\ forall a,
      In a (articles (appState (fst result))) ->
      In a (primary ++ secondary)%list
      \/ (isCurrentlyBlocking = false
          /\ In a (articles (appState ls))
          /\ forall b, In b (primary ++ secondary)%list ->
                       Article.id b <> Article.id a).
Proof.
  cbv zeta. unfold loadNewsSettle. cbn [fst snd].
  split; [reflexivity|].
  split; [destruct isCurrentlyBlocking; reflexivity|].
  split; [destruct isCurrentlyBlocking; reflexivity|].
  split; [destruct isCurrentlyBlocking; reflexivity|].
  intros a Ha.
  assert (Hfinal :
    In a (finalArticles dateTime (pruneNow t)
            (if isCurrentlyBlocking then (primary ++ secondary)%list
             else (articles (appState ls) ++ (primary ++ secondary))%list))).
  { destruct isCurrentlyBlocking; exact Ha. }
  clear Ha. apply finalArticles_In in Hfinal as [Hd _].
  apply deduplicate_last in Hd as (before & after & E & Hafter).
  destruct isCurrentlyBlocking.
  - left. rewrite E. apply in_or_app. right. now left.
  - apply app_eq_app in E as [l [[E1 E2]|[E1 E2]]].
    + destruct l as [|x l].
      * left. cbn [app] in E2. rewrite <- E2. now left.
      * cbn [app] in E2. injection E2 as <- E2. right.
        split; [reflexivity|]. split.
        -- rewrite E1. apply in_or_app. right. now left.
        -- intros b Hb. apply Hafter. rewrite E2. apply in_or_app.
           now right.
    + left. rewrite E2. apply in_or_app. right. now left.
Qed.

End LoadMore.


Lemma failed_refresh_keeps_articles_witness :
  let result :=
    loadNewsSettle exampleDateTime false
      (promiseAll true (Returns [firstFetchedArticle]) (Throws exhausted))
      (mkCommitTime 1000003 1000004) (mountState [] None None) in
  snd result = settled
  /\ appState (fst result) = appState (mountState [] None None)
  /\ scraperCalls (fst result) = scraperCalls (mountState [] None None)
  /\ isRefreshing (fst result) = false
  /\ isBlockingLoading (fst result)
     = isBlockingLoading (mountState [] None None)
  /\ (articles (appState (mountState [] None None)) <> [] ->
      error (fst result) = error (mountState [] None None))
  /\ (articles (appState (mountState [] None None)) = [] ->
      exists e, error (fst result) = Some (messageOf e)
                /\ (Returns [firstFetchedArticle] = Throws e
                    \/ @Throws (list Article.t) exhausted = Throws e)).
Proof.
  apply (@failed_refresh_keeps_articles exampleDateTime true
           (Returns [firstFetchedArticle]) (Throws exhausted)
           (mkCommitTime 1000003 1000004) (mountState [] None None)).
  right. exists exhausted. reflexivity.
Defined.

Lemma failed_first_load_falls_back_witness :
  let ls := mountState ["gs-1"] (Some staleCache) None in
  let ls' := fst (loadNews exampleDateTime false offlineInputs ls) in
  snd (loadNews exampleDateTime false offlineInputs ls) = fulfilled
  /\ isBlockingLoading ls' = false
  /\ isRefreshing ls' = false
  /\ articles (appState ls') = articles (appState ls)
  /\ error ls' = Some (messageOf exhausted)
  /\ scraperCalls ls' = scraperCalls ls.
Proof.
  apply (@failed_first_load_falls_back exampleDateTime false offlineInputs
           (mountState ["gs-1"] (Some staleCache) None) exhausted).
  - reflexivity.
  - intros d E. injection E as <-. exists 699999%Z.
    split; [reflexivity|]. vm_compute. reflexivity.
  - reflexivity.
Defined.

(** The entry [{}] under the cache key.  The first call throws before it
    fetches, the blocking spinner stays; a later call that is no manual
    refresh returns without fetching, although no entry of at most five
    minutes is there; a manual refresh fetches. *)
Example empty_object_entry :
  let first :=
    loadNews exampleDateTime false offlineInputs
      (mountState [] None (Some emptyObjectEntry)) in
  snd first = rejected
  /\ isBlockingLoading (fst first) = true
  /\ isInitialLoad (fst first) = false
  /\ snd (loadNewsBegin exampleDateTime false 1000000
            (mkCommitTime 1000001 1000002) (fst first))
     = returned_early
  /\ snd (loadNewsBegin exampleDateTime true 1000000
            (mkCommitTime 1000001 1000002) (fst first))
     = awaits_feeds false.
Proof. vm_compute. repeat split. Qed.
